(** * Task scheduler of automatizaciones_kde: [scripts/programador_tareas.py]

    A shallow embedding of the [TaskScheduler] class: the task data model,
    the SQLite store ([tasks] and [execution_logs]), the command security
    check, the executor [_execute_task], trigger registration through the
    [schedule] package, and the retention sweep.

    Conventions of the embedding.
    - A Python [str] is a [string] holding the UTF-8 bytes of its
      characters; [chars] cuts it into characters.  Substring search and
      SQLite's BINARY text comparison agree with that reading; [split],
      [strip], [len] and slices work on the characters, white space being
      what [str.isspace] accepts.
    - A method that mutates its [task] argument takes the task value and
      returns the mutated one.  Tasks captured by scheduled jobs live in a
      heap of objects, so that every firing of a job sees the same object.
    - The store, the job registry, the heap, the clock and the trace of
      observable calls ([subprocess.run], [_save_task_to_db],
      [_log_execution]) make up the [World].
    - What the operating system decides (how a child process ends and how
      long it takes) is an explicit input, [ExecEnv]; the clock advances by
      that time and by [time.sleep].
    - Instants are integers, in microseconds; [time.time()] differences are
      taken exactly.  [logger] calls write to the log file only and are left
      out.  The store is assumed reachable: the [except] branches of the
      store methods, which only log, are not modelled.
    - The configuration is a parameter.  As shipped, [_load_config] fails:
      the literal of its default names [true] and [false], which Python does
      not define, so that building a [TaskScheduler] raises NameError; the
      methods are studied on a scheduler that holds a configuration.
    - The [schedule] package is not part of the repository; the registry
      follows its release 1.2: [every(n).seconds.do(f)] adds a periodic job
      first due after [n] seconds, provided [n] is positive, and
      [run_pending] runs the due jobs in order of their next run and re-arms
      each one period after it ran. *)

From Stdlib Require Import ZArith String Ascii List Bool Lia.
From stdpp Require Import base list strings pretty gmap.

Local Open Scope string_scope.
Local Open Scope list_scope.
Local Open Scope Z_scope.

(** ** Enumerations *)

Inductive TaskStatus := PENDING | RUNNING | COMPLETED | FAILED | CANCELLED.
Inductive TaskType := COMMAND | SCRIPT | NOTIFICATION | REMINDER.
Inductive TriggerType := TIME | INTERVAL | FILE_CHANGE | SYSTEM_EVENT.

#[global] Instance TaskStatus_eq_dec : EqDecision TaskStatus.
Proof. solve_decision. Defined.
#[global] Instance TaskType_eq_dec : EqDecision TaskType.
Proof. solve_decision. Defined.
#[global] Instance TriggerType_eq_dec : EqDecision TriggerType.
Proof. solve_decision. Defined.

(** [TaskStatus.value], the text stored in the [status] column. *)
Definition status_value (s : TaskStatus) : string :=
  match s with
  | PENDING => "pending"
  | RUNNING => "running"
  | COMPLETED => "completed"
  | FAILED => "failed"
  | CANCELLED => "cancelled"
  end.

(** ** Python values and exceptions *)

(** The values of [trigger_data], a JSON object, as [json.loads] gives
    them: [str], [int], [float], [bool], [None], [list] and [dict].  A
    finite [float] is [m * 2 ^ e], negated if [negative]. *)
#[warnings="-register-all"]
Inductive JVal :=
| JStr (s : string)
| JInt (n : Z)
| JFloat (negative : bool) (m : N) (e : Z)
| JNaN
| JInfinity (negative : bool)
| JBool (b : bool)
| JNull
| JList (l : list JVal)
| JObj (d : list (string * JVal)).

Inductive Exc :=
| IndexError.

Inductive result (A : Type) :=
| Ok (a : A)
| Raise (e : Exc).
Arguments Ok {A} a.
Arguments Raise {A} e.

(** ** Strings *)

(** [needle in hay] on two [str]. *)
Fixpoint str_in (needle hay : string) : bool :=
  String.prefix needle hay
  || match hay with
     | EmptyString => false
     | String _ rest => str_in needle rest
     end.

(** A continuation byte of UTF-8, [10xxxxxx]: every byte of a character
    but its first. *)
Definition is_cont (c : ascii) : bool :=
  let n := N_of_ascii c in ((128 <=? n) && (n <? 192))%N.

Definition starts_cont (s : string) : bool :=
  match s with
  | EmptyString => false
  | String c _ => is_cont c
  end.

(** The characters of a [str], in order: each byte that is no continuation
    byte, with the continuation bytes that follow it. *)
Fixpoint chars (s : string) : list string :=
  match s with
  | EmptyString => []
  | String c rest =>
      match chars rest with
      | ch :: more =>
          if starts_cont ch then String c ch :: more
          else String c "" :: ch :: more
      | [] => [String c ""]
      end
  end.

(** [''.join(cs)]. *)
Definition join (cs : list string) : string := foldr String.append "" cs.

(** [len(s)]. *)
Definition str_len (s : string) : nat := length (chars s).

(** The UTF-8 bytes of a code point. *)
Definition utf8 (cp : N) : string :=
  let bytes l := string_of_list_ascii (map ascii_of_N l) in
  (if cp <? 128 then bytes [cp]
   else if cp <? 2048 then bytes [192 + cp / 64; 128 + cp mod 64]
   else if cp <? 65536
   then bytes [224 + cp / 4096; 128 + cp / 64 mod 64; 128 + cp mod 64]
   else bytes [240 + cp / 262144; 128 + cp / 4096 mod 64;
               128 + cp / 64 mod 64; 128 + cp mod 64])%N.

(** The code points that [str.isspace], [str.split] and [str.strip] take
    for white space: TAB..CR, FS..US, the blank, NEL, the no-break space,
    U+1680, U+2000..U+200A, U+2028, U+2029, U+202F, U+205F and U+3000. *)
Definition white_space : list N :=
  [9; 10; 11; 12; 13; 28; 29; 30; 31; 32; 133; 160; 5760;
   8192; 8193; 8194; 8195; 8196; 8197; 8198; 8199; 8200; 8201; 8202;
   8232; 8233; 8239; 8287; 12288]%N.

(** [ch.isspace()] on one character. *)
Definition is_space (ch : string) : bool :=
  existsb (fun cp => String.eqb ch (utf8 cp)) white_space.

Fixpoint split_from (tok : string) (cs : list string) : list string :=
  match cs with
  | [] => if String.eqb tok "" then [] else [tok]
  | ch :: rest =>
      if is_space ch
      then (if String.eqb tok "" then split_from "" rest
            else tok :: split_from "" rest)
      else split_from (tok +:+ ch) rest
  end.

(** [s.split()]: the maximal runs of characters that are no white space. *)
Definition split (s : string) : list string := split_from "" (chars s).

(** [s[:n]]: the first [n] characters. *)
Definition str_take (n : nat) (s : string) : string := join (take n (chars s)).

(** ** Configuration *)

Record SecurityConfig := {
  allowed_commands : list string;
  blocked_commands : list string;
  require_confirmation : bool
}.

Record Config := {
  check_interval_seconds : Z;
  cleanup_completed_days : Z;
  notify_kde : bool;
  security : SecurityConfig
}.

(** The entries that the scheduler reads, with the values that the
    literal [config_default] of [_load_config] spells, its [true] and
    [false] read as the booleans they stand for. *)
Definition config_default : Config := {|
  check_interval_seconds := 60;
  cleanup_completed_days := 30;
  notify_kde := true;
  security := {|
    allowed_commands := ["echo"; "notify-send"; "kdialog"; "python"; "bash"; "sh"];
    blocked_commands := ["rm -rf /"; "dd if=/dev/random"; "mkfs"; "shutdown"; "reboot"];
    require_confirmation := true
  |}
|}.

(** ** The security check *)

(** The [for blocked_cmd in blocked] loop: [true] when it returns [False]. *)
Fixpoint blocked_hit (blocked : list string) (command : string) : bool :=
  match blocked with
  | [] => false
  | blocked_cmd :: rest =>
      if str_in blocked_cmd command then true else blocked_hit rest command
  end.

(** [command.split()[0] if ' ' in command else command]. *)
Definition cmd_base (command : string) : result string :=
  if str_in " " command
  then match split command with
       | tok :: _ => Ok tok
       | [] => Raise IndexError
       end
  else Ok command.

Definition _check_command_security (cfg : Config) (command : string) : result bool :=
  let allowed := allowed_commands (security cfg) in
  let blocked := blocked_commands (security cfg) in
  if blocked_hit blocked command then Ok false
  else
    match cmd_base command with
    | Raise e => Raise e
    | Ok base =>
        if negb (bool_decide (allowed = [])) && negb (bool_decide (base ∈ allowed))
        then Ok false
        else Ok true
    end.

(** ** Tasks *)

Record Task := {
  id : option Z;
  name : string;
  description : string;
  task_type : TaskType;
  command : string;
  arguments : list string;
  working_dir : string;
  trigger_type : TriggerType;
  trigger_data : gmap string JVal;
  status : TaskStatus;
  created_at : string;
  scheduled_for : string;
  executed_at : string;
  result_code : Z;
  output : string;
  enabled : bool;
  notify_on_completion : bool;
  max_retries : Z;
  retry_count : Z
}.

(** Attribute assignments [task.f = v]. *)
Definition set_id (v : option Z) (t : Task) : Task :=
  {| id := v; name := name t; description := description t;
     task_type := task_type t; command := command t; arguments := arguments t;
     working_dir := working_dir t; trigger_type := trigger_type t;
     trigger_data := trigger_data t; status := status t;
     created_at := created_at t; scheduled_for := scheduled_for t;
     executed_at := executed_at t; result_code := result_code t;
     output := output t; enabled := enabled t;
     notify_on_completion := notify_on_completion t;
     max_retries := max_retries t; retry_count := retry_count t |}.

Definition set_status (v : TaskStatus) (t : Task) : Task :=
  {| id := id t; name := name t; description := description t;
     task_type := task_type t; command := command t; arguments := arguments t;
     working_dir := working_dir t; trigger_type := trigger_type t;
     trigger_data := trigger_data t; status := v;
     created_at := created_at t; scheduled_for := scheduled_for t;
     executed_at := executed_at t; result_code := result_code t;
     output := output t; enabled := enabled t;
     notify_on_completion := notify_on_completion t;
     max_retries := max_retries t; retry_count := retry_count t |}.

Definition set_executed_at (v : string) (t : Task) : Task :=
  {| id := id t; name := name t; description := description t;
     task_type := task_type t; command := command t; arguments := arguments t;
     working_dir := working_dir t; trigger_type := trigger_type t;
     trigger_data := trigger_data t; status := status t;
     created_at := created_at t; scheduled_for := scheduled_for t;
     executed_at := v; result_code := result_code t;
     output := output t; enabled := enabled t;
     notify_on_completion := notify_on_completion t;
     max_retries := max_retries t; retry_count := retry_count t |}.

Definition set_result_code (v : Z) (t : Task) : Task :=
  {| id := id t; name := name t; description := description t;
     task_type := task_type t; command := command t; arguments := arguments t;
     working_dir := working_dir t; trigger_type := trigger_type t;
     trigger_data := trigger_data t; status := status t;
     created_at := created_at t; scheduled_for := scheduled_for t;
     executed_at := executed_at t; result_code := v;
     output := output t; enabled := enabled t;
     notify_on_completion := notify_on_completion t;
     max_retries := max_retries t; retry_count := retry_count t |}.

Definition set_output (v : string) (t : Task) : Task :=
  {| id := id t; name := name t; description := description t;
     task_type := task_type t; command := command t; arguments := arguments t;
     working_dir := working_dir t; trigger_type := trigger_type t;
     trigger_data := trigger_data t; status := status t;
     created_at := created_at t; scheduled_for := scheduled_for t;
     executed_at := executed_at t; result_code := result_code t;
     output := v; enabled := enabled t;
     notify_on_completion := notify_on_completion t;
     max_retries := max_retries t; retry_count := retry_count t |}.

(** ** The store *)

Definition type_value (k : TaskType) : string :=
  match k with
  | COMMAND => "command"
  | SCRIPT => "script"
  | NOTIFICATION => "notification"
  | REMINDER => "reminder"
  end.

Definition trigger_value (k : TriggerType) : string :=
  match k with
  | TIME => "time"
  | INTERVAL => "interval"
  | FILE_CHANGE => "file_change"
  | SYSTEM_EVENT => "system_event"
  end.

(** [TaskStatus(v)], [TaskType(v)], [TriggerType(v)]: [None] is ValueError. *)
Definition status_of_value (v : string) : option TaskStatus :=
  if String.eqb v "pending" then Some PENDING
  else if String.eqb v "running" then Some RUNNING
  else if String.eqb v "completed" then Some COMPLETED
  else if String.eqb v "failed" then Some FAILED
  else if String.eqb v "cancelled" then Some CANCELLED
  else None.

Definition type_of_value (v : string) : option TaskType :=
  if String.eqb v "command" then Some COMMAND
  else if String.eqb v "script" then Some SCRIPT
  else if String.eqb v "notification" then Some NOTIFICATION
  else if String.eqb v "reminder" then Some REMINDER
  else None.

Definition trigger_of_value (v : string) : option TriggerType :=
  if String.eqb v "time" then Some TIME
  else if String.eqb v "interval" then Some INTERVAL
  else if String.eqb v "file_change" then Some FILE_CHANGE
  else if String.eqb v "system_event" then Some SYSTEM_EVENT
  else None.

(** A row of table [tasks].  A column is an [option] where the code tests
    it for NULL or leaves it unbound; the others always receive a [str].
    The two JSON columns hold the document that [json.dumps] wrote,
    identified with the value [json.loads] reads back from it. *)
Record TaskRow := {
  col_id : Z;
  col_name : string;
  col_description : string;
  col_task_type : string;
  col_command : string;
  col_arguments : option (list string);
  col_working_dir : string;
  col_trigger_type : string;
  col_trigger_data : option (gmap string JVal);
  col_status : string;
  col_created_at : string;
  col_scheduled_for : string;
  col_executed_at : option string;
  col_result_code : option Z;
  col_output : option string;
  col_enabled : option Z;
  col_notify_on_completion : option Z;
  col_max_retries : option Z;
  col_retry_count : option Z
}.

(** A row of table [execution_logs]; the duration is in microseconds. *)
Record LogRow := {
  log_id : Z;
  log_task_id : Z;
  log_execution_time : string;
  log_duration_seconds : Z;
  log_result_code : Z;
  log_output : string
}.

(** Observable calls. *)
Inductive Event :=
| EvSaveTask (t : Task)
| EvLogExecution (task_id : option Z) (execution_time : string)
    (duration : Z) (result_code : Z) (output : string)
| EvRun (argv : list string) (shell : bool) (cwd : option string).

(** A job of the [schedule] package: its period, the instant of its next
    run, the task object its function closes over, and its tag. *)
Record Job := {
  job_period : Z;
  job_next_run : Z;
  job_task : nat;
  job_tag : string
}.

Record World := {
  clock : Z;
  tasks : list TaskRow;
  tasks_seq : Z;
  execution_logs : list LogRow;
  logs_seq : Z;
  jobs : list Job;
  heap : list Task;
  trace : list Event
}.

Definition set_clock (v : Z) (w : World) : World :=
  {| clock := v; tasks := tasks w; tasks_seq := tasks_seq w;
     execution_logs := execution_logs w; logs_seq := logs_seq w;
     jobs := jobs w; heap := heap w; trace := trace w |}.

Definition set_tasks (v : list TaskRow) (seq : Z) (w : World) : World :=
  {| clock := clock w; tasks := v; tasks_seq := seq;
     execution_logs := execution_logs w; logs_seq := logs_seq w;
     jobs := jobs w; heap := heap w; trace := trace w |}.

Definition set_execution_logs (v : list LogRow) (seq : Z) (w : World) : World :=
  {| clock := clock w; tasks := tasks w; tasks_seq := tasks_seq w;
     execution_logs := v; logs_seq := seq;
     jobs := jobs w; heap := heap w; trace := trace w |}.

Definition set_jobs (v : list Job) (w : World) : World :=
  {| clock := clock w; tasks := tasks w; tasks_seq := tasks_seq w;
     execution_logs := execution_logs w; logs_seq := logs_seq w;
     jobs := v; heap := heap w; trace := trace w |}.

Definition set_heap (v : list Task) (w : World) : World :=
  {| clock := clock w; tasks := tasks w; tasks_seq := tasks_seq w;
     execution_logs := execution_logs w; logs_seq := logs_seq w;
     jobs := jobs w; heap := v; trace := trace w |}.

Definition emit (e : Event) (w : World) : World :=
  {| clock := clock w; tasks := tasks w; tasks_seq := tasks_seq w;
     execution_logs := execution_logs w; logs_seq := logs_seq w;
     jobs := jobs w; heap := heap w; trace := trace w ++ [e] |}.

(** The rowid an AUTOINCREMENT table gives to a new row: one more than the
    largest that ever existed. *)
Definition next_rowid (seq : Z) (ids : list Z) : Z :=
  1 + foldr Z.max seq ids.

Definition bool_int (b : bool) : Z := if b then 1 else 0.

(** [row[i] if row[i] else d] on a nullable column. *)
Definition str_or (d : string) (o : option string) : string :=
  match o with
  | Some s => if String.eqb s "" then d else s
  | None => d
  end.

Definition int_or (d : Z) (o : option Z) : Z :=
  match o with
  | Some n => if n =? 0 then d else n
  | None => d
  end.

(** [bool(row[i])]. *)
Definition py_bool (o : option Z) : bool :=
  match o with
  | Some n => negb (n =? 0)
  | None => false
  end.

(** ** The host *)

(** What the interpreter and its library provide: the home directory,
    [sys.executable], [datetime.isoformat] and [datetime.fromisoformat] on
    instants, and the [.1f] format of a duration.  For [fromisoformat],
    [None] stands for ValueError and for a date that carries a time zone,
    whose comparison with [datetime.now()] raises TypeError: both leave the
    [try] block in which the text is read. *)
Record Host := {
  home : string;
  sys_executable : string;
  isoformat : Z -> string;
  fromisoformat : string -> option Z;
  format_1f : Z -> string
}.

(** How [subprocess.run] ends. *)
Inductive RunOutcome :=
| Exited (returncode : Z) (stdout stderr : string)
| TimeoutExpired
| RunError (msg : string).

(** The environment of one execution: the end of the child process run
    under the 300 s limit, the time that run takes, and the error, if any,
    of the notification command, which runs without a limit. *)
Record ExecEnv := {
  proc : RunOutcome;
  elapsed : Z;
  notify_error : option string
}.

Definition nl : string := String (ascii_of_nat 10) "".

(** [os.path.isabs] and [os.path.join] of two components (POSIX). *)
Definition isabs (p : string) : bool := String.prefix "/" p.

Fixpoint ends_with_slash (p : string) : bool :=
  match p with
  | EmptyString => false
  | String c EmptyString => Ascii.eqb c "/"
  | String _ rest => ends_with_slash rest
  end.

Definition path_join (a b : string) : string :=
  if isabs b then b
  else if String.eqb a "" || ends_with_slash a then a +:+ b
  else a +:+ "/" +:+ b.

Definition seconds : Z := 1000000.

(** The instants that [datetime] holds, 0001-01-01T00:00:00 to
    9999-12-31T23:59:59.999999, counted from 1970-01-01T00:00:00, and the
    periods that [timedelta] holds, of at most 999999999 days either way.
    An operation whose result is outside raises OverflowError. *)
Definition datetime_min : Z := -62135596800 * seconds.
Definition datetime_max : Z := 253402300800 * seconds - 1.

Definition in_datetime (t : Z) : bool :=
  (datetime_min <=? t) && (t <=? datetime_max).

Definition in_timedelta (d : Z) : bool :=
  let days := d / (86400 * seconds) in
  (-999999999 <=? days) && (days <=? 999999999).

(** The quotient [n / d], [d] positive, rounded to the nearest integer,
    a tie going to the even one. *)
Definition round_half_even (n d : Z) : Z :=
  let q := n / d in
  let r := n mod d in
  if 2 * r <? d then q
  else if d <? 2 * r then q + 1
  else if Z.even q then q else q + 1.

(** The [float] nearest to [p / q], for positive [p] and [q], as [(m, e)]:
    its value is [m * 2 ^ e], with a mantissa [m] of 53 bits. *)
Definition nearest_float (p q : Z) : Z * Z :=
  let k := Z.log2 p - Z.log2 q in
  let e := if q * 2 ^ Z.max 0 k <=? p * 2 ^ Z.max 0 (- k) then k - 52 else k - 53 in
  (round_half_even (p * 2 ^ Z.max 0 (- e)) (q * 2 ^ Z.max 0 e), e).

(** [timedelta] of [n / d] units, a unit being [unit] microseconds and
    [n / d] a [float]: the whole units count exactly, the fraction of a
    unit is multiplied by the unit as a [float], and the sum is rounded to
    the nearest microsecond, a tie going to the even one. *)
Definition float_period (unit n d : Z) : Z :=
  let whole := Z.quot n d in
  let fraction := Z.rem n d in
  if fraction =? 0 then whole * unit
  else
    let '(m, e) := nearest_float (unit * Z.abs fraction) d in
    let scale := 2 ^ Z.max 0 (- e) in
    round_half_even (whole * unit * scale + Z.sgn fraction * m * 2 ^ Z.max 0 e) scale.

(** [total_seconds()] of a positive [timedelta] of [d] microseconds: the
    [float] nearest to [d / 10 ** 6], as a numerator and a denominator. *)
Definition total_seconds (d : Z) : Z * Z :=
  let '(m, e) := nearest_float d seconds in (m * 2 ^ Z.max 0 e, 2 ^ Z.max 0 (- e)).

Section Scheduler.

Variable host : Host.
Variable cfg : Config.

(** *** Store methods *)

Definition inserted_row (new_id : Z) (now : Z) (task : Task) : TaskRow := {|
  col_id := new_id;
  col_name := name task;
  col_description := description task;
  col_task_type := type_value (task_type task);
  col_command := command task;
  col_arguments := Some (arguments task);
  col_working_dir := working_dir task;
  col_trigger_type := trigger_value (trigger_type task);
  col_trigger_data := Some (trigger_data task);
  col_status := status_value (status task);
  col_created_at :=
    if String.eqb (created_at task) "" then isoformat host now
    else created_at task;
  col_scheduled_for := scheduled_for task;
  col_executed_at := None;
  col_result_code := None;
  col_output := None;
  col_enabled := Some (bool_int (enabled task));
  col_notify_on_completion := Some (bool_int (notify_on_completion task));
  col_max_retries := Some (max_retries task);
  col_retry_count := Some (retry_count task)
|}.

Definition updated_row (task : Task) (row : TaskRow) : TaskRow := {|
  col_id := col_id row;
  col_name := name task;
  col_description := description task;
  col_task_type := type_value (task_type task);
  col_command := command task;
  col_arguments := Some (arguments task);
  col_working_dir := working_dir task;
  col_trigger_type := trigger_value (trigger_type task);
  col_trigger_data := Some (trigger_data task);
  col_status := status_value (status task);
  col_created_at := col_created_at row;
  col_scheduled_for := scheduled_for task;
  col_executed_at := col_executed_at row;
  col_result_code := col_result_code row;
  col_output := col_output row;
  col_enabled := Some (bool_int (enabled task));
  col_notify_on_completion := Some (bool_int (notify_on_completion task));
  col_max_retries := Some (max_retries task);
  col_retry_count := Some (retry_count task)
|}.

(** [UPDATE tasks SET ... WHERE id = ?]. *)
Definition update_where_id (i : Z) (task : Task) (rows : list TaskRow) : list TaskRow :=
  map (fun row => if col_id row =? i then updated_row task row else row) rows.

Definition _save_task_to_db (task : Task) (w : World) : Z * Task * World :=
  let w := emit (EvSaveTask task) w in
  match id task with
  | None =>
      let new_id := next_rowid (tasks_seq w) (map col_id (tasks w)) in
      let row := inserted_row new_id (clock w) task in
      (new_id, set_id (Some new_id) task, set_tasks (tasks w ++ [row]) new_id w)
  | Some i =>
      (i, task, set_tasks (update_where_id i task (tasks w)) (tasks_seq w) w)
  end.

Definition task_of_row (row : TaskRow) : option Task :=
  match type_of_value (col_task_type row),
        trigger_of_value (col_trigger_type row),
        status_of_value (col_status row) with
  | Some ty, Some tr, Some st =>
      Some {|
        id := Some (col_id row);
        name := col_name row;
        description := col_description row;
        task_type := ty;
        command := col_command row;
        arguments := match col_arguments row with Some l => l | None => [] end;
        working_dir := col_working_dir row;
        trigger_type := tr;
        trigger_data := match col_trigger_data row with Some d => d | None => ∅ end;
        status := st;
        created_at := col_created_at row;
        scheduled_for := col_scheduled_for row;
        executed_at := str_or "" (col_executed_at row);
        result_code := int_or 0 (col_result_code row);
        output := str_or "" (col_output row);
        enabled := py_bool (col_enabled row);
        notify_on_completion := py_bool (col_notify_on_completion row);
        max_retries := int_or 3 (col_max_retries row);
        retry_count := int_or 0 (col_retry_count row)
      |}
  | _, _, _ => None
  end.

(** [SELECT * FROM tasks WHERE id = ?] and [fetchone]. *)
Definition select_by_id (task_id : Z) (rows : list TaskRow) : option TaskRow :=
  find (fun row => col_id row =? task_id) rows.

Definition _load_task_from_db (task_id : Z) (w : World) : option Task :=
  match select_by_id task_id (tasks w) with
  | None => None
  | Some row => task_of_row row
  end.

(** The insert fails on a NULL [task_id], and the failure is only logged. *)
Definition _log_execution (task_id : option Z) (execution_time : string)
    (duration : Z) (rc : Z) (out : string) (w : World) : World :=
  let w := emit (EvLogExecution task_id execution_time duration rc out) w in
  match task_id with
  | None => w
  | Some i =>
      let new_id := next_rowid (logs_seq w) (map log_id (execution_logs w)) in
      let row := {| log_id := new_id; log_task_id := i;
                    log_execution_time := execution_time;
                    log_duration_seconds := duration;
                    log_result_code := rc; log_output := out |} in
      set_execution_logs (execution_logs w ++ [row]) new_id w
  end.

(** *** The executor *)

(** Errors of kdialog are silenced. *)
Definition _send_notification (title message : string) (w : World) : World :=
  if notify_kde cfg
  then emit (EvRun ["kdialog"; "--title"; title; "--passivepopup"; message; "10"] false None) w
  else w.

(** The end of the [try] block, once the kind-specific action returned. *)
Definition finish_run (start_time : Z) (success : bool) (task : Task) (w : World)
  : result bool * Task * World :=
  let duration := clock w - start_time in
  let task := set_status (if success then COMPLETED else FAILED) task in
  let task := set_executed_at (isoformat host (clock w)) task in
  let '(_, task, w) := _save_task_to_db task w in
  let w := _log_execution (id task) (executed_at task) duration
             (result_code task) (str_take 1000 (output task)) w in
  let w :=
    if success && notify_on_completion task
    then _send_notification "✅ Tarea Completada"
           (name task +:+ nl +:+ "Duración: " +:+ format_1f host duration +:+ "s") w
    else if negb success
    then _send_notification "❌ Tarea Fallida"
           (name task +:+ nl +:+ "Error: " +:+ pretty (result_code task)) w
    else w in
  (Ok success, task, w).

(** [except subprocess.TimeoutExpired]. *)
Definition on_timeout (task : Task) (w : World) : result bool * Task * World :=
  let task := set_status FAILED task in
  let task := set_output "Timeout (5 minutos)" task in
  let task := set_executed_at (isoformat host (clock w)) task in
  let '(_, task, w) := _save_task_to_db task w in
  let w := _send_notification "⏰ Tarea Timeout"
             (name task +:+ nl +:+ "Excedió el tiempo límite") w in
  (Ok false, task, w).

(** [except Exception as e]. *)
Definition on_exception (msg : string) (task : Task) (w : World)
  : result bool * Task * World :=
  let task := set_status FAILED task in
  let task := set_output msg task in
  let task := set_executed_at (isoformat host (clock w)) task in
  let '(_, task, w) := _save_task_to_db task w in
  (Ok false, task, w).

(** A child process run under [timeout=300]. *)
Definition run_child (env : ExecEnv) (start_time : Z) (ev : Event)
    (task : Task) (w : World) : result bool * Task * World :=
  let w := emit ev w in
  let w := set_clock (clock w + elapsed env) w in
  match proc env with
  | Exited rc out err =>
      let task := set_result_code rc task in
      let task := set_output (out +:+ err) task in
      finish_run start_time (rc =? 0) task w
  | TimeoutExpired => on_timeout task w
  | RunError msg => on_exception msg task w
  end.

(** The notification command, run without a limit. *)
Definition run_notifier (env : ExecEnv) (start_time : Z) (argv : list string)
    (task : Task) (w : World) : result bool * Task * World :=
  let w := emit (EvRun argv false None) w in
  let w := set_clock (clock w + elapsed env) w in
  match notify_error env with
  | Some msg => on_exception msg task w
  | None =>
      let task := set_result_code 0 task in
      let task := set_output "Notificación enviada" task in
      finish_run start_time true task w
  end.

Definition _execute_task (env : ExecEnv) (task : Task) (w : World)
  : result bool * Task * World :=
  if negb (enabled task) then (Ok false, task, w)
  else
    match _check_command_security cfg (command task) with
    | Raise e => (Raise e, task, w)
    | Ok false =>
        let task := set_status FAILED task in
        let task := set_output "Comando bloqueado por seguridad" task in
        let '(_, task, w) := _save_task_to_db task w in
        (Ok false, task, w)
    | Ok true =>
        let task := set_status RUNNING task in
        let '(_, task, w) := _save_task_to_db task w in
        let start_time := clock w in
        let wd := if String.eqb (working_dir task) "" then home host
                  else working_dir task in
        match task_type task with
        | COMMAND =>
            match arguments task with
            | [] => run_child env start_time
                      (EvRun [command task] true (Some wd)) task w
            | args => run_child env start_time
                        (EvRun (command task :: args) false (Some wd)) task w
            end
        | SCRIPT =>
            let script_path :=
              if isabs (command task) then command task
              else path_join wd (command task) in
            run_child env start_time
              (EvRun (sys_executable host :: script_path :: arguments task)
                 false (Some wd)) task w
        | NOTIFICATION =>
            if String.eqb (command task) "kdialog"
            then run_notifier env start_time
                   ("kdialog" :: "--title" :: name task :: arguments task) task w
            else if String.eqb (command task) "notify-send"
            then run_notifier env start_time
                   ("notify-send" :: name task :: arguments task) task w
            else
              let task := set_result_code 0 task in
              let task := set_output "Notificación enviada" task in
              finish_run start_time true task w
        | REMINDER =>
            let message :=
              match arguments task with
              | [] => command task
              | args => command task +:+ " " +:+ String.concat " " args
              end in
            let w := _send_notification "Recordatorio" message w in
            let task := set_result_code 0 task in
            let task := set_output "Recordatorio mostrado" task in
            finish_run start_time true task w
        end
    end.

(** *** Triggers: the module-level scheduler of the [schedule] package *)

(** How [schedule.every(n).<unit>.do(job)] ends: the job has joined the
    registry, an exception was raised before it was added, or the call
    does not return. *)
Inductive Registration :=
| Added (w : World)
| Raised
| Unending.

(** [schedule.every(n).<unit>.do(job).tag(tag)], for a period in
    microseconds.  Before it adds the job, [do] computes its first run:
    [period] is the [timedelta] of [n] units, [next_run = now + period], then
    [while next_run <= now: next_run += period].  A period out of the range
    of [timedelta] and a first run out of the range of [datetime] raise
    OverflowError.  With a period of zero the loop does not end.  With a
    negative period each round steps [next_run] further back, until it
    leaves the range of [datetime] and the addition raises OverflowError
    (after some 6e10 rounds for a period of -1 s).  A job that is added is
    first due one period after the registration; it stays registered and
    periodic unless its function returns [CancelJob]. *)
Definition every_do (period : Z) (r : nat) (tag : string) (w : World) : Registration :=
  if negb (in_timedelta period) then Raised
  else if period =? 0 then Unending
  else if period <? 0 then Raised
  else if negb (in_datetime (clock w + period)) then Raised
  else Added (set_jobs (jobs w ++ [{| job_period := period;
                                      job_next_run := clock w + period;
                                      job_task := r; job_tag := tag |}]) w).

(** The [try] block around a registration: an exception is logged and the
    method returns, the registry being as it was; [None] when [do] does
    not return. *)
Definition registered (reg : Registration) (w : World) : option World :=
  match reg with
  | Added w' => Some w'
  | Raised => Some w
  | Unending => None
  end.

(** [f"task_{task.id}"]. *)
Definition task_tag (task : Task) : string :=
  "task_" +:+ match id task with Some i => pretty i | None => "None" end.

(** [r] is the task object that the job function closes over.  A value
    that is no text (TypeError) or no date (ValueError) is logged and
    nothing is registered. *)
Definition _schedule_time_trigger (r : nat) (task : Task) (w : World) : option World :=
  match trigger_data task !! "datetime" with
  | Some (JStr text) =>
      match fromisoformat host text with
      | Some scheduled_time =>
          let now := clock w in
          if now <? scheduled_time
          then
            let '(n, d) := total_seconds (scheduled_time - now) in
            registered (every_do (float_period seconds n d) r (task_tag task) w) w
          else Some w
      | None => Some w
      end
  | Some _ => Some w
  | None => Some w
  end.

(** [schedule.every(v).<unit>]: a boolean counts as the integer 1 or 0;
    [timedelta] raises ValueError for NaN, OverflowError for an infinity,
    and TypeError for what is no number. *)
Definition every_unit (unit : Z) (v : JVal) (r : nat) (task : Task) (w : World)
  : option World :=
  match v with
  | JInt n => registered (every_do (n * unit) r (task_tag task) w) w
  | JBool b => registered (every_do (bool_int b * unit) r (task_tag task) w) w
  | JFloat negative m e =>
      let n := (if negative then -1 else 1) * Z.of_N m * 2 ^ Z.max 0 e in
      registered (every_do (float_period unit n (2 ^ Z.max 0 (- e))) r
                    (task_tag task) w) w
  | JNaN => Some w
  | JInfinity _ => Some w
  | JStr _ => Some w
  | JNull => Some w
  | JList _ => Some w
  | JObj _ => Some w
  end.

Definition _schedule_interval_trigger (r : nat) (task : Task) (w : World)
  : option World :=
  let trigger_data := trigger_data task in
  match trigger_data !! "seconds" with
  | Some v => every_unit seconds v r task w
  | None =>
  match trigger_data !! "minutes" with
  | Some v => every_unit (60 * seconds) v r task w
  | None =>
  match trigger_data !! "hours" with
  | Some v => every_unit (3600 * seconds) v r task w
  | None =>
  match trigger_data !! "days" with
  | Some v => every_unit (86400 * seconds) v r task w
  | None => Some w
  end end end end.

(** [schedule_task(task)], [task] being the object at [r]: the value
    returned, [None] when the call does not return, and the world it
    leaves. *)
Definition schedule_task (r : nat) (w : World) : option bool * World :=
  match heap w !! r with
  | None => (Some false, w)
  | Some task =>
      let '(task_id, task, w) := _save_task_to_db task w in
      if task_id =? -1 then (Some false, set_heap (<[r := task]> (heap w)) w)
      else
        let task := set_id (Some task_id) task in
        let w := set_heap (<[r := task]> (heap w)) w in
        let trigger :=
          match trigger_type task with
          | TIME => _schedule_time_trigger r task w
          | INTERVAL => _schedule_interval_trigger r task w
          | FILE_CHANGE => Some w
          | SYSTEM_EVENT => Some w
          end in
        match trigger with
        | Some w => (Some true, w)
        | None => (None, w)
        end
  end.

(** [Job.should_run]. *)
Definition should_run (now : Z) (j : Job) : bool := job_next_run j <=? now.

(** [sorted(runnable_jobs)]: jobs compare by [next_run]; the sort is stable. *)
Fixpoint insert_job (x : nat * Job) (l : list (nat * Job)) : list (nat * Job) :=
  match l with
  | [] => [x]
  | y :: rest =>
      if job_next_run (snd x) <=? job_next_run (snd y) then x :: l
      else y :: insert_job x rest
  end.

Definition sorted_jobs (l : list (nat * Job)) : list (nat * Job) :=
  foldr insert_job [] l.

Definition runnable_jobs (w : World) : list (nat * Job) :=
  sorted_jobs (filter (fun kj => should_run (clock w) (snd kj))
                 (imap (fun k j => (k, j)) (jobs w))).

(** [Job.run] on the job at index [k]: call the job function, that is
    [_execute_task] on the captured object, then set the next run one
    period after the present instant.  [_execute_task] never returns
    [CancelJob], so the job is kept. *)
Definition run_job (env : ExecEnv) (k : nat) (w : World) : result unit * World :=
  match jobs w !! k with
  | None => (Ok tt, w)
  | Some j =>
      match heap w !! job_task j with
      | None => (Ok tt, w)
      | Some task =>
          let '(res, task, w) := _execute_task env task w in
          let w := set_heap (<[job_task j := task]> (heap w)) w in
          match res with
          | Raise e => (Raise e, w)
          | Ok _ =>
              let j := {| job_period := job_period j;
                          job_next_run := clock w + job_period j;
                          job_task := job_task j; job_tag := job_tag j |} in
              (Ok tt, set_jobs (<[k := j]> (jobs w)) w)
          end
      end
  end.

Fixpoint run_all (envs : nat -> ExecEnv) (n : nat) (ks : list (nat * Job)) (w : World)
  : result unit * World :=
  match ks with
  | [] => (Ok tt, w)
  | (k, _) :: rest =>
      match run_job (envs n) k w with
      | (Raise e, w) => (Raise e, w)
      | (Ok _, w) => run_all envs (S n) rest w
      end
  end.

(** [schedule.run_pending()]; [envs n] is the environment of the [n]-th job
    run in this call. *)
Definition run_pending (envs : nat -> ExecEnv) (w : World) : result unit * World :=
  run_all envs 0%nat (runnable_jobs w) w.

(** [time.sleep(secs)]. *)
Definition sleep (secs : Z) (w : World) : World :=
  set_clock (clock w + secs * seconds) w.

(** One iteration of [scheduler_loop]: an exception of [run_pending] is
    logged, then the loop sleeps. *)
Definition scheduler_tick (envs : nat -> ExecEnv) (w : World) : World :=
  sleep (check_interval_seconds cfg) (snd (run_pending envs w)).

(** *** The retention sweep *)

Definition is_terminal_text (s : string) : bool :=
  bool_decide (s ∈ ["completed"; "failed"; "cancelled"]).

(** [execution_time < ?]. *)
Definition log_is_old (cutoff_date : string) (row : LogRow) : bool :=
  String.ltb (log_execution_time row) cutoff_date.

(** [status IN (...) AND executed_at < ?]; a NULL [executed_at] compares
    as NULL, and the row is kept. *)
Definition task_is_old (cutoff_date : string) (row : TaskRow) : bool :=
  is_terminal_text (col_status row)
  && match col_executed_at row with
     | Some t => String.ltb t cutoff_date
     | None => false
     end.

Definition keep {A} (old : A -> bool) (rows : list A) : list A :=
  filter (fun row => negb (old row)) rows.

(** The local variable [deleted]: [cursor.rowcount] after the second
    DELETE, the number of task rows it removed. *)
Definition cleanup_deleted (cutoff_date : string) (w : World) : Z :=
  Z.of_nat (length (filter (fun row => task_is_old cutoff_date row) (tasks w))).

(** [(datetime.now() - timedelta(days=days)).isoformat()]; [None] is the
    OverflowError of a period or of an instant out of range. *)
Definition cleanup_cutoff (w : World) : option string :=
  let period := cleanup_completed_days cfg * 86400 * seconds in
  if in_timedelta period && in_datetime (clock w - period)
  then Some (isoformat host (clock w - period))
  else None.

(** The method has no [return]: its value is [None].  An exception of the
    [try] block is logged, with nothing deleted. *)
Definition cleanup_old_tasks (w : World) : option Z * World :=
  match cleanup_cutoff w with
  | None => (None, w)
  | Some cutoff_date =>
      let w := set_execution_logs (keep (log_is_old cutoff_date) (execution_logs w))
                 (logs_seq w) w in
      let w := set_tasks (keep (task_is_old cutoff_date) (tasks w)) (tasks_seq w) w in
      (None, w)
  end.

End Scheduler.

(** ** A concrete host

    Instants count microseconds from 1970-01-01T00:00:00 on the proleptic
    Gregorian calendar, as naive [datetime] values do. *)

Definition day_us : Z := 86400 * seconds.

Definition civil_from_days (z : Z) : Z * Z * Z :=
  let z := z + 719468 in
  let era := z / 146097 in
  let doe := z - era * 146097 in
  let yoe := (doe - doe / 1460 + doe / 36524 - doe / 146096) / 365 in
  let doy := doe - (365 * yoe + yoe / 4 - yoe / 100) in
  let mp := (5 * doy + 2) / 153 in
  let d := doy - (153 * mp + 2) / 5 + 1 in
  let m := if mp <? 10 then mp + 3 else mp - 9 in
  let y := yoe + era * 400 in
  (if m <=? 2 then y + 1 else y, m, d).

Definition days_from_civil (y m d : Z) : Z :=
  let y := if m <=? 2 then y - 1 else y in
  let era := y / 400 in
  let yoe := y - era * 400 in
  let doy := (153 * (if 2 <? m then m - 3 else m + 9) + 2) / 5 + d - 1 in
  let doe := yoe * 365 + yoe / 4 - yoe / 100 + doy in
  era * 146097 + doe - 719468.

Definition digit_char (n : Z) : string :=
  String (ascii_of_N (Z.to_N (48 + n mod 10))) "".

(** [n] in decimal on [width] digits, zero-padded. *)
Fixpoint zero_pad (width : nat) (n : Z) : string :=
  match width with
  | O => ""
  | S k => zero_pad k (n / 10) +:+ digit_char n
  end.

(** [datetime.isoformat()]: the fraction is written when it is not zero. *)
Definition isoformat_py (t : Z) : string :=
  let '(y, m, d) := civil_from_days (t / day_us) in
  let r := t mod day_us in
  let s := r / seconds in
  let us := r mod seconds in
  zero_pad 4 y +:+ "-" +:+ zero_pad 2 m +:+ "-" +:+ zero_pad 2 d +:+ "T"
  +:+ zero_pad 2 (s / 3600) +:+ ":" +:+ zero_pad 2 (s / 60 mod 60) +:+ ":"
  +:+ zero_pad 2 (s mod 60)
  +:+ (if us =? 0 then "" else "." +:+ zero_pad 6 us).

Definition days_in_month (y m : Z) : Z :=
  days_from_civil (if m =? 12 then y + 1 else y) (if m =? 12 then 1 else m + 1) 1
  - days_from_civil y m 1.

(** [datetime.fromisoformat], as Python 3.11 reads a text, byte by byte:
    the byte past the end reads as 0, the end mark of the text. *)
Definition byte_at (l : list N) (i : nat) : N := nth i l 0%N.

Definition is_digit (c : N) : bool := ((48 <=? c) && (c <=? 57))%N.

(** [n] decimal digits from [pos]: their value and the position after
    them. *)
Fixpoint parse_digits (l : list N) (n pos : nat) (acc : Z) : option (Z * nat) :=
  match n with
  | O => Some (acc, pos)
  | S k =>
      let c := byte_at l pos in
      if is_digit c
      then parse_digits l k (S pos) (10 * acc + Z.of_N (c - 48))
      else None
  end.

Fixpoint count_digits (l : list N) : nat :=
  match l with
  | c :: rest => if is_digit c then S (count_digits rest) else O
  | [] => O
  end.

(** Where the date ends: after [YYYY-MM-DD] (10), [YYYYMMDD] (8),
    [YYYY-Www] (8), [YYYY-Www-D] (10), [YYYYWww] (7) or [YYYYWwwD] (8). *)
Definition find_separator (l : list N) : option nat :=
  let len := length l in
  if (len =? 7)%nat then Some 7%nat
  else if (byte_at l 4 =? 45)%N then
    if (byte_at l 5 =? 87)%N then
      if (8 <? len)%nat && (byte_at l 8 =? 45)%N then
        if (len =? 9)%nat then None
        else if (10 <? len)%nat && is_digit (byte_at l 10) then Some 8%nat
        else Some 10%nat
      else Some 8%nat
    else Some 10%nat
  else if (byte_at l 4 =? 87)%N then
    let idx := (7 + count_digits (drop 7 l))%nat in
    if (idx <? 9)%nat then Some idx
    else if Nat.even idx then Some 7%nat else Some 8%nat
  else Some 8%nat.

(** The day number of a date, 0001-01-01 being day 1. *)
Definition ymd_to_ord (y m d : Z) : Z := days_from_civil y m d + 719163.

Definition is_leap (y : Z) : bool :=
  (y mod 4 =? 0) && (negb (y mod 100 =? 0) || (y mod 400 =? 0)).

(** The date of the day [day] of the ISO week [week] of [year]. *)
Definition iso_to_ymd (year week day : Z) : option (Z * Z * Z) :=
  let first_day := ymd_to_ord year 1 1 in
  let first_weekday := (first_day + 6) mod 7 in
  let long_year := (first_weekday =? 3) || (first_weekday =? 2) && is_leap year in
  if year <=? 0 then None
  else if negb ((0 <? week) && (week <? 53) || (week =? 53) && long_year) then None
  else if negb ((0 <? day) && (day <? 8)) then None
  else
    let week1_monday :=
      first_day - first_weekday + (if 3 <? first_weekday then 7 else 0) in
    Some (civil_from_days (week1_monday + (week - 1) * 7 + day - 1 - 719163)).

Definition parse_isoformat_date (l : list N) (len : nat) : option (Z * Z * Z) :=
  match parse_digits l 4 0 0 with
  | None => None
  | Some (year, p) =>
      let uses_separator := (byte_at l p =? 45)%N in
      let p := if uses_separator then S p else p in
      if (byte_at l p =? 87)%N then
        match parse_digits l 2 (S p) 0 with
        | None => None
        | Some (week, p) =>
            if (p <? len)%nat then
              if uses_separator && negb (byte_at l p =? 45)%N then None
              else
                match parse_digits l 1 (if uses_separator then S p else p) 0 with
                | None => None
                | Some (day, _) => iso_to_ymd year week day
                end
            else iso_to_ymd year week 1
        end
      else
        match parse_digits l 2 p 0 with
        | None => None
        | Some (month, p) =>
            if uses_separator && negb (byte_at l p =? 45)%N then None
            else
              match parse_digits l 2 (if uses_separator then S p else p) 0 with
              | None => None
              | Some (day, _) => Some (year, month, day)
              end
        end
  end.

Fixpoint skip_digits (l : list N) (fuel pos : nat) : nat :=
  match fuel with
  | O => pos
  | S k => if is_digit (byte_at l pos) then skip_digits l k (S pos) else pos
  end.

(** The fraction of a second, from [p]: at most six digits count. *)
Definition parse_fraction (l : list N) (p : nat) : option Z :=
  let to_parse := Nat.min 6 (length l - p) in
  match parse_digits l to_parse p 0 with
  | None => None
  | Some (us, p) =>
      let p := skip_digits l (length l) p in
      if (byte_at l p =? 0)%N then Some (us * 10 ^ Z.of_nat (6 - to_parse)) else None
  end.

(** [HH[:MM[:SS[.f]]]], the colons being all there or all left out;
    [todo] counts the fields still to be read after this one. *)
Fixpoint parse_hh_mm_ss_ff (l : list N) (todo : nat) (p : nat)
    (has_separator : option bool) (vals : list Z) : option (list Z * Z) :=
  match parse_digits l 2 p 0 with
  | None => None
  | Some (v, p) =>
      let c := byte_at l p in
      let p := S p in
      let has_separator :=
        match has_separator with
        | None => (c =? 58)%N
        | Some b => b
        end in
      let vals := vals ++ [v] in
      let next p :=
        match todo with
        | O => match parse_fraction l p with
               | Some us => Some (vals, us)
               | None => None
               end
        | S k => parse_hh_mm_ss_ff l k p (Some has_separator) vals
        end in
      if (length l <=? p)%nat then (if (c =? 0)%N then Some (vals, 0) else None)
      else if has_separator && (c =? 58)%N then next p
      else if (c =? 46)%N || (c =? 44)%N
      then match parse_fraction l p with
           | Some us => Some (vals, us)
           | None => None
           end
      else if negb has_separator then next (p - 1)%nat
      else None
  end.

(** The width of the character that separates the date from the time. *)
Definition separator_width (c : N) : nat :=
  if (c <? 128)%N then 1%nat
  else if (c / 16 =? 14)%N then 3%nat
  else if (c / 16 =? 15)%N then 4%nat
  else 2%nat.

(** [datetime.fromisoformat(s)] for a date that carries no time zone;
    [None] stands for ValueError and for a date with a time zone. *)
Definition fromisoformat_py (s : string) : option Z :=
  let l := map N_of_ascii (list_ascii_of_string s) in
  let len := length l in
  if (str_len s <? 7)%nat then None
  else
    match find_separator l with
    | None => None
    | Some sep =>
        match parse_isoformat_date l sep with
        | None => None
        | Some (y, m, d) =>
            let time :=
              if (sep <? len)%nat then
                let p := (sep + separator_width (byte_at l sep))%nat in
                if existsb (fun c => (c =? 90) || (c =? 43) || (c =? 45))%N (drop p l)
                   || (len <=? p)%nat
                then None
                else
                  match parse_hh_mm_ss_ff l 2 p None [] with
                  | Some (vals, us) =>
                      Some (nth 0 vals 0, nth 1 vals 0, nth 2 vals 0, us)
                  | None => None
                  end
              else Some (0, 0, 0, 0) in
            match time with
            | None => None
            | Some (hh, mm, ss, us) =>
                if (1 <=? y) && (y <=? 9999) && (1 <=? m) && (m <=? 12) && (1 <=? d)
                   && (d <=? days_in_month y m) && (hh <? 24) && (mm <? 60)
                   && (ss <? 60)
                then Some (days_from_civil y m d * day_us
                           + (hh * 3600 + mm * 60 + ss) * seconds + us)
                else None
            end
        end
    end.

(** [f"{x:.1f}"], [x] being the [float] nearest to a duration given in
    microseconds: the decimal that is nearest to the binary value, a tie
    going to the even digit. *)
Definition format_1f_py (us : Z) : string :=
  let tenths :=
    if us =? 0 then 0
    else
      let '(m, e) := nearest_float (Z.abs us) seconds in
      round_half_even (10 * m * 2 ^ Z.max 0 e) (2 ^ Z.max 0 (- e)) in
  (if us <? 0 then "-" else "")
  +:+ pretty (tenths / 10) +:+ "." +:+ digit_char tenths.

Definition posix_host : Host := {|
  home := "/home/user";
  sys_executable := "/usr/bin/python3";
  isoformat := isoformat_py;
  fromisoformat := fromisoformat_py;
  format_1f := format_1f_py
|}.

(** ** Observations on worlds and traces *)

(** [Task()]: the defaults of the dataclass, after [__post_init__]. *)
Definition Task_default : Task := {|
  id := None; name := ""; description := ""; task_type := COMMAND;
  command := ""; arguments := []; working_dir := ""; trigger_type := TIME;
  trigger_data := ∅; status := PENDING; created_at := ""; scheduled_for := "";
  executed_at := ""; result_code := 0; output := ""; enabled := true;
  notify_on_completion := true; max_retries := 3; retry_count := 0
|}.

(** A scheduler just created, at instant [now], over an empty database. *)
Definition new_world (now : Z) : World := {|
  clock := now; tasks := []; tasks_seq := 0; execution_logs := [];
  logs_seq := 0; jobs := []; heap := []; trace := []
|}.

(** The tasks handed to [_save_task_to_db], in call order. *)
Fixpoint saved_snapshots (tr : list Event) : list Task :=
  match tr with
  | [] => []
  | EvSaveTask t :: rest => t :: saved_snapshots rest
  | _ :: rest => saved_snapshots rest
  end.

(** The [subprocess.run] calls, in call order. *)
Fixpoint child_runs (tr : list Event) : list (list string) :=
  match tr with
  | [] => []
  | EvRun argv _ _ :: rest => argv :: child_runs rest
  | _ :: rest => child_runs rest
  end.

(** Number of calls of [_save_task_to_db]. *)
Definition saves_in (tr : list Event) : nat := length (saved_snapshots tr).

(** Number of executions begun: saves of a task in status RUNNING. *)
Definition runs_started (tr : list Event) : nat :=
  length (filter (fun t => bool_decide (status t = RUNNING)) (saved_snapshots tr)).




Definition denial_output : string := "Comando bloqueado por seguridad".
Definition timeout_output : string := "Timeout (5 minutos)".

(** The state saved when an attempt ends at [now] with status [st]. *)
Definition ended (host : Host) (st : TaskStatus) (task : Task) (now : Z) : Task :=
  set_executed_at (isoformat host now) (set_status st task).

(** What an execution leaves: the task it returns, the snapshot it saved
    last, and whether it appended a log row. *)
Definition leaves (out : result bool * Task * World) (w : World)
    (res : bool) (last : Task) (logged : bool) : Prop :=
  fst (fst out) = Ok res
  /\ (exists i, snd (fst out) = set_id (Some i) last)
  /\ saved_snapshots (trace (snd out)) = saved_snapshots (trace w) ++ [last]
  /\ length (execution_logs (snd out))
     = ((if logged then 1 else 0) + length (execution_logs w))%nat.

(** The outcome of the run under the limit: the value returned, the task
    state saved last, and whether a log row is written. *)
Definition child_result (host : Host) (env : ExecEnv) (task : Task) (now : Z)
  : bool * Task * bool :=
  match proc env with
  | Exited rc out err =>
      (rc =? 0,
       ended host (if rc =? 0 then COMPLETED else FAILED)
         (set_output (out +:+ err) (set_result_code rc task)) now, true)
  | TimeoutExpired =>
      (false, ended host FAILED (set_output timeout_output task) now, false)
  | RunError msg =>
      (false, ended host FAILED (set_output msg task) now, false)
  end.

(** The same for the whole kind-specific action of a task in status
    RUNNING, begun at [now]. *)
Definition action_result (host : Host) (env : ExecEnv) (task : Task) (now : Z)
  : bool * Task * bool :=
  let sent := set_output "Notificación enviada" (set_result_code 0 task) in
  match task_type task with
  | COMMAND | SCRIPT => child_result host env task (now + elapsed env)
  | NOTIFICATION =>
      if String.eqb (command task) "kdialog" || String.eqb (command task) "notify-send"
      then match notify_error env with
           | Some msg =>
               (false, ended host FAILED (set_output msg task) (now + elapsed env), false)
           | None => (true, ended host COMPLETED sent (now + elapsed env), true)
           end
      else (true, ended host COMPLETED sent now, true)
  | REMINDER =>
      (true,
       ended host COMPLETED
         (set_output "Recordatorio mostrado" (set_result_code 0 task)) now, true)
  end.

(** Sample environments and tasks. *)
Definition env_exit (rc : Z) (out : string) : ExecEnv :=
  {| proc := Exited rc out ""; elapsed := 20000; notify_error := None |}.

Definition env_timeout : ExecEnv :=
  {| proc := TimeoutExpired; elapsed := 300 * seconds + 1500; notify_error := None |}.

Definition echo_task : Task :=
  {| id := None; name := "saludo"; description := ""; task_type := COMMAND;
     command := "echo"; arguments := ["ok"]; working_dir := "";
     trigger_type := TIME; trigger_data := ∅; status := PENDING;
     created_at := ""; scheduled_for := ""; executed_at := ""; result_code := 0;
     output := ""; enabled := true; notify_on_completion := true;
     max_retries := 3; retry_count := 0 |}.

Definition t0 : Z := 1709281800 * seconds.

(** The [_log_execution] calls, in call order, by duration. *)
Fixpoint logged_durations (tr : list Event) : list Z :=
  match tr with
  | [] => []
  | EvLogExecution _ _ d _ _ :: rest => d :: logged_durations rest
  | _ :: rest => logged_durations rest
  end.

Definition blocked_task : Task :=
  {| id := None; name := "apagar"; description := ""; task_type := COMMAND;
     command := "shutdown -h now"; arguments := []; working_dir := "";
     trigger_type := TIME; trigger_data := ∅; status := PENDING;
     created_at := ""; scheduled_for := ""; executed_at := ""; result_code := 0;
     output := ""; enabled := true; notify_on_completion := true;
     max_retries := 3; retry_count := 0 |}.

Definition slow_task : Task :=
  {| id := None; name := "espera"; description := ""; task_type := COMMAND;
     command := "bash"; arguments := ["-c"; "sleep 600"]; working_dir := "";
     trigger_type := TIME; trigger_data := ∅; status := PENDING;
     created_at := ""; scheduled_for := ""; executed_at := ""; result_code := 0;
     output := ""; enabled := true; notify_on_completion := true;
     max_retries := 3; retry_count := 0 |}.

Definition reminder_task : Task :=
  {| id := None; name := "cita"; description := ""; task_type := REMINDER;
     command := "Llamar al dentista"; arguments := []; working_dir := "";
     trigger_type := TIME; trigger_data := ∅; status := PENDING;
     created_at := ""; scheduled_for := ""; executed_at := ""; result_code := 0;
     output := ""; enabled := true; notify_on_completion := true;
     max_retries := 3; retry_count := 0 |}.




(** A row in a terminal status, and a text that sorts strictly before
    another, which for [isoformat] texts is the earlier instant. *)
Definition terminal_row (row : TaskRow) : Prop :=
  exists st, col_status row = status_value st
             /\ (st = COMPLETED \/ st = FAILED \/ st = CANCELLED).

Definition predates (t cutoff : string) : Prop := String.ltb t cutoff = true.

(** The rows that the sweep is said to delete. *)
Definition old_task (cutoff : string) (row : TaskRow) : Prop :=
  terminal_row row /\ exists t, col_executed_at row = Some t /\ predates t cutoff.

Definition old_log (cutoff : string) (row : LogRow) : Prop :=
  predates (log_execution_time row) cutoff.

(** The claim that the sweep returns the number of rows it deleted. *)
Definition returns_deleted_count (w : World) (ret : option Z) (w' : World) : Prop :=
  ret = Some (Z.of_nat (length (tasks w) - length (tasks w'))
              + Z.of_nat (length (execution_logs w) - length (execution_logs w'))).

(** A stored task that ended long before [t0], and one still pending. *)
Definition old_done_row : TaskRow := {|
  col_id := 1; col_name := "viejo"; col_description := "";
  col_task_type := "command"; col_command := "echo";
  col_arguments := Some ["ok"]; col_working_dir := "";
  col_trigger_type := "time"; col_trigger_data := Some ∅;
  col_status := "completed"; col_created_at := "2023-01-01T10:00:00";
  col_scheduled_for := ""; col_executed_at := Some "2023-01-01T10:00:05";
  col_result_code := Some 0; col_output := Some "ok";
  col_enabled := Some 1; col_notify_on_completion := Some 1;
  col_max_retries := Some 3; col_retry_count := Some 0
|}.

Definition old_pending_row : TaskRow := {|
  col_id := 2; col_name := "pendiente"; col_description := "";
  col_task_type := "command"; col_command := "echo";
  col_arguments := Some ["ok"]; col_working_dir := "";
  col_trigger_type := "time"; col_trigger_data := Some ∅;
  col_status := "pending"; col_created_at := "2023-01-01T10:00:00";
  col_scheduled_for := ""; col_executed_at := Some "2023-01-01T10:00:05";
  col_result_code := None; col_output := None;
  col_enabled := Some 1; col_notify_on_completion := Some 1;
  col_max_retries := Some 3; col_retry_count := Some 0
|}.

Definition old_log_row : LogRow := {|
  log_id := 1; log_task_id := 1; log_execution_time := "2023-01-01T10:00:05";
  log_duration_seconds := 20000; log_result_code := 0; log_output := "ok"
|}.

Definition aged_world : World := {|
  clock := t0; tasks := [old_done_row; old_pending_row]; tasks_seq := 2;
  execution_logs := [old_log_row]; logs_seq := 1;
  jobs := []; heap := []; trace := []
|}.

(** A task that allows no retry. *)
Definition no_retry_task : Task :=
  {| id := None; name := "una vez"; description := ""; task_type := COMMAND;
     command := "echo"; arguments := ["ok"]; working_dir := "";
     trigger_type := TIME; trigger_data := ∅; status := PENDING;
     created_at := ""; scheduled_for := ""; executed_at := ""; result_code := 0;
     output := ""; enabled := true; notify_on_completion := true;
     max_retries := 0; retry_count := 0 |}.

(** Successive iterations of [scheduler_loop]. *)
Fixpoint run_ticks (host : Host) (cfg : Config) (ticks : list (nat -> ExecEnv))
    (w : World) : World :=
  match ticks with
  | [] => w
  | envs :: rest => run_ticks host cfg rest (scheduler_tick host cfg envs w)
  end.

(** No registered job closes over the object [r]. *)
Definition not_scheduled (r : nat) (w : World) : Prop :=
  Forall (fun j => job_task j <> r) (jobs w).

(** A TIME task due ten seconds after [t0], and one due half an hour
    before [t0]. *)
Definition time_task (at_time : string) : Task :=
  {| id := None; name := "aviso"; description := ""; task_type := COMMAND;
     command := "echo"; arguments := ["ok"]; working_dir := "";
     trigger_type := TIME; trigger_data := {[ "datetime" := JStr at_time ]};
     status := PENDING; created_at := ""; scheduled_for := at_time;
     executed_at := ""; result_code := 0; output := ""; enabled := true;
     notify_on_completion := false; max_retries := 3; retry_count := 0 |}.

Definition soon_task : Task := time_task "2024-03-01T08:30:10".
Definition past_task : Task := time_task "2024-03-01T08:00:00".

(** The scheduler at [t0] with one task object, not yet scheduled. *)
Definition world_with (task : Task) : World := {|
  clock := t0; tasks := []; tasks_seq := 0; execution_logs := [];
  logs_seq := 0; jobs := []; heap := [task]; trace := []
|}.

Definition all_ok : nat -> ExecEnv := fun _ => env_exit 0 "ok".



(** ** Further observations *)

(** Every character is white space. *)
Definition all_space (s : string) : bool := forallb is_space (chars s).

(** No character is white space. *)
Definition no_space (s : string) : bool :=
  forallb (fun ch => negb (is_space ch)) (chars s).

(** One elementary change of the world, as the executor and the scheduler
    loop make them: a [subprocess.run] call, a clock change, a save of a task whose
    id satisfies [P], a log row whose output is cut at 1000 characters, a
    change of the task objects or of the job registry. *)
Inductive step (host : Host) (P : option Z -> Prop) : World -> World -> Prop :=
| step_run (argv : list string) (shell : bool) (cwd : option string) (w : World) :
    step host P w (emit (EvRun argv shell cwd) w)
| step_clock (v : Z) (w : World) : step host P w (set_clock v w)
| step_save (t : Task) (w : World) :
    P (id t) -> step host P w (snd (_save_task_to_db host t w))
| step_log (tid : option Z) (time : string) (d rc : Z) (out : string) (w : World) :
    step host P w (_log_execution tid time d rc (str_take 1000 out) w)
| step_heap (h : list Task) (w : World) : step host P w (set_heap h w)
| step_jobs (j : list Job) (w : World) : step host P w (set_jobs j w).

(** A finite sequence of such changes. *)
Definition touches (host : Host) (P : option Z -> Prop) : World -> World -> Prop :=
  rtc (step host P).

(** The ids the executor may save under, for the task it is given: the id
    of the task, or the one the store gives it when it has none. *)
Definition own_id (P : option Z -> Prop) (task : Task) : Prop :=
  P (id task) /\ (id task = None -> forall i, P (Some i)).

(** Saves under any id. *)
Definition any_id : option Z -> Prop := fun _ => True.

(** The columns of a task row that no save rewrites. *)
Definition fixed_columns (row : TaskRow)
  : Z * string * option string * option Z * option string :=
  (col_id row, col_created_at row, col_executed_at row, col_result_code row,
   col_output row).

(** No stored task carries an execution time. *)
Definition never_executed (w : World) : Prop :=
  Forall (fun row => col_executed_at row = None) (tasks w).

(** The primary key of [tasks]. *)
Definition ids_unique (w : World) : Prop := NoDup (map col_id (tasks w)).

(** The effect on the rows of the saves of tasks stored under [i], in
    order. *)
Definition replay_updates (i : Z) (saved : list Task) (rows : list TaskRow)
  : list TaskRow :=
  foldl (fun rows t => update_where_id i t rows) rows saved.

(** A row before and after saves under the id [i]: the fixed columns are
    kept, and a row of another id is kept whole. *)
Definition same_but (i : Z) (r r' : TaskRow) : Prop :=
  fixed_columns r' = fixed_columns r /\ (col_id r <> i -> r' = r).

(** The snapshots saved from [w] to [w']. *)
Definition new_snapshots (w w' : World) : list Task :=
  drop (length (saved_snapshots (trace w))) (saved_snapshots (trace w')).

(** A row of [execution_logs] with an output of at most 1000 characters. *)
Definition log_output_bounded (row : LogRow) : Prop :=
  (str_len (log_output row) <= 1000)%nat.

(** A row of [tasks] with no result recorded. *)
Definition no_result (row : TaskRow) : Prop :=
  col_executed_at row = None /\ col_result_code row = None /\ col_output row = None.







(** The [subprocess.run] calls of the kind-specific action of a task. *)
Definition action_runs (host : Host) (cfg : Config) (task : Task)
  : list (list string) :=
  let wd := if String.eqb (working_dir task) "" then home host
            else working_dir task in
  match task_type task with
  | COMMAND =>
      match arguments task with
      | [] => [[command task]]
      | args => [command task :: args]
      end
  | SCRIPT =>
      [sys_executable host
       :: (if isabs (command task) then command task
           else path_join wd (command task))
       :: arguments task]
  | NOTIFICATION =>
      if String.eqb (command task) "kdialog"
      then ["kdialog" :: "--title" :: name task :: arguments task]
      else if String.eqb (command task) "notify-send"
      then ["notify-send" :: name task :: arguments task]
      else []
  | REMINDER =>
      if notify_kde cfg
      then [["kdialog"; "--title"; "Recordatorio"; "--passivepopup";
             match arguments task with
             | [] => command task
             | args => command task +:+ " " +:+ String.concat " " args
             end; "10"]]
      else []
  end.

(** Whether the end of an execution is announced by a pop-up, when
    [notify_kde] is set: a success on request, a failure by exit status and
    a timeout always, an exception never. *)
Definition announced (env : ExecEnv) (task : Task) : bool :=
  match task_type task with
  | COMMAND | SCRIPT =>
      match proc env with
      | Exited rc _ _ => if rc =? 0 then notify_on_completion task else true
      | TimeoutExpired => true
      | RunError _ => false
      end
  | NOTIFICATION =>
      if String.eqb (command task) "kdialog" || String.eqb (command task) "notify-send"
      then match notify_error env with
           | None => notify_on_completion task
           | Some _ => false
           end
      else notify_on_completion task
  | REMINDER => notify_on_completion task
  end.

(** A COMMAND task whose arguments hold a blocked text. *)
Definition wipe_task : Task :=
  {| id := None; name := "limpieza"; description := ""; task_type := COMMAND;
     command := "bash"; arguments := ["-c"; "rm -rf /"]; working_dir := "";
     trigger_type := TIME; trigger_data := ∅; status := CANCELLED;
     created_at := ""; scheduled_for := ""; executed_at := ""; result_code := 0;
     output := ""; enabled := true; notify_on_completion := false;
     max_retries := 3; retry_count := 0 |}.

Definition quiet_config : Config := {|
  check_interval_seconds := 60;
  cleanup_completed_days := 30;
  notify_kde := false;
  security := {| allowed_commands := []; blocked_commands := ["shutdown"];
                 require_confirmation := true |}
|}.

(** What a job keeps for ever: its period, its task object and its tag. *)
Definition job_static (j : Job) : Z * nat * string :=
  (job_period j, job_task j, job_tag j).

(** The job at index [k] is the only one that closes over its object. *)
Definition sole_job (k : nat) (j : Job) (w : World) : Prop :=
  jobs w !! k = Some j
  /\ forall k' j', jobs w !! k' = Some j' -> k' <> k -> job_task j' <> job_task j.

(** The job that [sorted] puts first: the earliest next run, and among
    equals the first in the list. *)
Definition earlier (x : nat * Job) (m : option (nat * Job)) : option (nat * Job) :=
  match m with
  | None => Some x
  | Some y => if job_next_run (snd x) <=? job_next_run (snd y) then Some x else Some y
  end.

Definition first_due (l : list (nat * Job)) : option (nat * Job) :=
  foldr earlier None l.

(** A job of one second whose task has a command of blanks. *)
Definition blank_task : Task :=
  {| id := None; name := "vacia"; description := ""; task_type := COMMAND;
     command := "   "; arguments := []; working_dir := "";
     trigger_type := INTERVAL; trigger_data := {[ "seconds" := JInt 1 ]};
     status := PENDING; created_at := ""; scheduled_for := "";
     executed_at := ""; result_code := 0; output := ""; enabled := true;
     notify_on_completion := false; max_retries := 3; retry_count := 0 |}.

(** The scheduler at [t0] with two task objects, not yet scheduled. *)
Definition world_with_two (a b : Task) : World := {|
  clock := t0; tasks := []; tasks_seq := 0; execution_logs := [];
  logs_seq := 0; jobs := []; heap := [a; b]; trace := []
|}.






(** ** The interactive front end

    [create_task_interactive].  The lines typed are an explicit input; what
    the method prints is left out. *)

(** [s.strip()]: the white space characters at both ends are dropped. *)
Fixpoint lstrip (cs : list string) : list string :=
  match cs with
  | [] => []
  | ch :: rest => if is_space ch then lstrip rest else cs
  end.

Fixpoint rstrip (cs : list string) : list string :=
  match cs with
  | [] => []
  | ch :: rest =>
      match rstrip rest with
      | [] => if is_space ch then [] else [ch]
      | kept => ch :: kept
      end
  end.

Definition strip (s : string) : string := join (rstrip (lstrip (chars s))).

(** [input(prompt).strip()]: the next line of the standard input; [None] is
    EOFError. *)
Definition ask (ins : list string) : option (string * list string) :=
  match ins with
  | [] => None
  | line :: rest => Some (strip line, rest)
  end.

(** [answer.lower() == 's']: the upper-case S is the only other character
    with that lower case. *)
Definition is_yes (answer : string) : bool :=
  String.eqb answer "s" || String.eqb answer "S".

(** [task_types.get(type_choice, TaskType.COMMAND)]. *)
Definition task_type_of_choice (choice : string) : TaskType :=
  if String.eqb choice "1" then COMMAND
  else if String.eqb choice "2" then SCRIPT
  else if String.eqb choice "3" then NOTIFICATION
  else if String.eqb choice "4" then REMINDER
  else COMMAND.

(** [intervals.get(interval_choice, "minutes")]. *)
Definition interval_of_choice (choice : string) : string :=
  if String.eqb choice "1" then "seconds"
  else if String.eqb choice "2" then "minutes"
  else if String.eqb choice "3" then "hours"
  else if String.eqb choice "4" then "days"
  else "minutes".

(** The code point of one character. *)
Definition code_point (ch : string) : N :=
  match map N_of_ascii (list_ascii_of_string ch) with
  | [a] => a
  | [a; b] => (a - 192) * 64 + (b - 128)
  | [a; b; c] => (a - 224) * 4096 + (b - 128) * 64 + (c - 128)
  | [a; b; c; d] => (a - 240) * 262144 + (b - 128) * 4096 + (c - 128) * 64 + (d - 128)
  | _ => 0
  end%N.

(** The zeros of the decimal digits of Unicode 14, each followed by its
    digits 1 to 9. *)
Definition decimal_zeros : list N :=
  [48; 1632; 1776; 1984; 2406; 2534; 2662; 2790; 2918; 3046; 3174; 3302;
   3430; 3558; 3664; 3792; 3872; 4160; 4240; 6112; 6160; 6470; 6608; 6784;
   6800; 6992; 7088; 7232; 7248; 42528; 43216; 43264; 43472; 43504; 43600;
   44016; 65296; 66720; 68912; 69734; 69872; 69942; 70096; 70384; 70736;
   70864; 71248; 71360; 71472; 71904; 72016; 72784; 73040; 73120; 92768;
   92864; 93008; 120782; 120792; 120802; 120812; 120822; 123200; 123632;
   125264; 130032]%N.

(** What [int] makes of a character before it reads the number: an ASCII
    character stays, white space becomes a blank, a decimal digit its ASCII
    digit, and anything else, the null character included, the mark [?]. *)
Definition int_char (ch : string) : N :=
  let cp := code_point ch in
  (if cp =? 0 then 63
   else if cp <? 127 then cp
   else if is_space ch then 32
   else match find (fun z => (z <=? cp) && (cp <? z + 10)) decimal_zeros with
        | Some z => 48 + (cp - z)
        | None => 63
        end)%N.

(** The blanks that may surround the number: TAB..CR and the blank. *)
Definition int_blank (c : N) : bool := ((9 <=? c) && (c <=? 13) || (c =? 32))%N.

Fixpoint int_skip (l : list N) : list N :=
  match l with
  | c :: rest => if int_blank c then int_skip rest else l
  | [] => []
  end.

(** Digits, with single underscores between them; then blanks only. *)
Fixpoint int_digits (acc : Z) (count : nat) (underscore : bool) (l : list N)
  : option (Z * nat) :=
  match l with
  | c :: rest =>
      if ((48 <=? c) && (c <=? 57))%N
      then int_digits (10 * acc + Z.of_N (c - 48)) (S count) false rest
      else if (c =? 95)%N
      then (if underscore then None else int_digits acc count true rest)
      else if underscore then None
      else match int_skip l with
           | [] => Some (acc, count)
           | _ => None
           end
  | [] => if underscore then None else Some (acc, count)
  end.

(** [int(text)], as Python 3.11 reads a decimal number: blanks, a sign,
    digits of any script, with at most 4300 of them. *)
Definition int_py (text : string) : option Z :=
  let number sign l :=
    match l with
    | c :: _ =>
        if ((48 <=? c) && (c <=? 57))%N
        then match int_digits 0 0 false l with
             | Some (n, count) => if (count <=? 4300)%nat then Some (sign * n) else None
             | None => None
             end
        else None
    | [] => None
    end in
  match int_skip (map int_char (chars text)) with
  | c :: rest =>
      if (c =? 43)%N then number 1 rest
      else if (c =? 45)%N then number (-1) rest
      else number 1 (c :: rest)
  | [] => None
  end.

Section Interactive.

Variable host : Host.
Variable cfg : Config.

(** [int]: [None] is ValueError. *)
Variable int_of_str : string -> option Z.

(** The command, the arguments and the working directory, by kind. *)
Definition read_action (task_type : TaskType) (ins : list string)
  : option (string * list string * string * list string) :=
  match task_type with
  | COMMAND | SCRIPT =>
      match ask ins with
      | None => None
      | Some (command, ins) =>
          match ask ins with
          | None => None
          | Some (args_input, ins) =>
              let arguments :=
                if String.eqb args_input "" then [] else split args_input in
              match ask ins with
              | None => None
              | Some (working_dir, ins) => Some (command, arguments, working_dir, ins)
              end
          end
      end
  | NOTIFICATION =>
      match ask ins with
      | None => None
      | Some (message, ins) => Some ("kdialog", ["--msgbox"; message], "", ins)
      end
  | REMINDER =>
      match ask ins with
      | None => None
      | Some (command, ins) => Some (command, [], "", ins)
      end
  end.

(** The trigger, by the answer to "when". *)
Definition read_trigger (now : Z) (trigger_choice : string) (ins : list string)
  : option (TriggerType * gmap string JVal * list string) :=
  if String.eqb trigger_choice "1" then
    match ask ins with
    | None => None
    | Some (date_str, ins) => Some (TIME, {[ "datetime" := JStr date_str ]}, ins)
    end
  else if String.eqb trigger_choice "2" then
    match ask ins with
    | None => None
    | Some (interval_choice, ins) =>
        match ask ins with
        | None => None
        | Some (value, ins) =>
            match int_of_str value with
            | None => None
            | Some n =>
                Some (INTERVAL, {[ interval_of_choice interval_choice := JInt n ]}, ins)
            end
        end
    end
  else Some (TIME, {[ "datetime" := JStr (isoformat host now) ]}, ins).

(** The answers read and the [Task] built from them, with the answer to
    "when"; [None] when reading raised (end of input, or a value that is no
    integer). *)
Definition read_task (now : Z) (ins : list string) : option (Task * string) :=
  match ask ins with
  | None => None
  | Some (name, ins) =>
  match ask ins with
  | None => None
  | Some (description, ins) =>
  match ask ins with
  | None => None
  | Some (type_choice, ins) =>
  let task_type := task_type_of_choice type_choice in
  match read_action task_type ins with
  | None => None
  | Some (command, arguments, working_dir, ins) =>
  match ask ins with
  | None => None
  | Some (trigger_choice, ins) =>
  match read_trigger now trigger_choice ins with
  | None => None
  | Some (trigger_type, trigger_data, ins) =>
  match ask ins with
  | None => None
  | Some (notify, ins) =>
  match ask ins with
  | None => None
  | Some (enabled, ins) =>
      Some ({| id := None; name := name; description := description;
               task_type := task_type; command := command;
               arguments := arguments; working_dir := working_dir;
               trigger_type := trigger_type; trigger_data := trigger_data;
               status := PENDING; created_at := isoformat host now;
               scheduled_for :=
                 match trigger_data !! "datetime" with
                 | Some (JStr text) => text
                 | _ => ""
                 end;
               executed_at := ""; result_code := 0; output := "";
               enabled := is_yes enabled; notify_on_completion := is_yes notify;
               max_retries := 3; retry_count := 0 |},
            trigger_choice)
  end end end end end end end end.

(** [create_task_interactive()], on the lines [ins] of the standard input;
    the new [Task] object is the last of the heap.  Any exception, of the
    reading or of the immediate execution, makes the method return
    [False]; it does not return when [schedule_task] does not. *)
Definition create_task_interactive (env : ExecEnv) (ins : list string) (w : World)
  : option bool * World :=
  match read_task (clock w) ins with
  | None => (Some false, w)
  | Some (task, trigger_choice) =>
      let r := length (heap w) in
      let w := set_heap (heap w ++ [task]) w in
      let '(ok, w) := schedule_task host r w in
      match ok with
      | None => (None, w)
      | Some false => (Some false, w)
      | Some true =>
          if String.eqb trigger_choice "3" then
            match heap w !! r with
            | None => (Some true, w)
            | Some task =>
                let '(res, task, w) := _execute_task host cfg env task w in
                let w := set_heap (<[r := task]> (heap w)) w in
                match res with
                | Ok _ => (Some true, w)
                | Raise _ => (Some false, w)
                end
            end
          else (Some true, w)
      end
  end.

End Interactive.





(** An INTERVAL task that names two units. *)
Definition two_units_task : Task :=
  {| id := None; name := "pulso"; description := ""; task_type := COMMAND;
     command := "echo"; arguments := ["ok"]; working_dir := "";
     trigger_type := INTERVAL;
     trigger_data := {[ "minutes" := JInt 2; "days" := JInt 1 ]};
     status := PENDING; created_at := ""; scheduled_for := "";
     executed_at := ""; result_code := 0; output := ""; enabled := true;
     notify_on_completion := false; max_retries := 3; retry_count := 0 |}.

(** ** Theorems *)

(** *** The concrete host *)

Example isoformat_py_epoch : isoformat_py 0 = "1970-01-01T00:00:00".
Proof. reflexivity. Qed.

Example isoformat_py_2024 :
  isoformat_py (1709210096 * seconds + 250) = "2024-02-29T12:34:56.000250".
Proof. vm_compute. reflexivity. Qed.

Example fromisoformat_py_2024 :
  fromisoformat_py "2024-02-29T12:34:56.000250" = Some (1709210096 * seconds + 250).
Proof. vm_compute. reflexivity. Qed.

Example fromisoformat_py_prompt :
  fromisoformat_py "2024-03-01 08:30" = Some (1709281800 * seconds).
Proof. vm_compute. reflexivity. Qed.

Example fromisoformat_py_bad : fromisoformat_py "2023-02-29" = None.
Proof. vm_compute. reflexivity. Qed.

(** Hours alone, a short fraction, a date without dashes, a week date; a
    time zone makes the date one that cannot be compared with [now]. *)
Example fromisoformat_py_forms :
  fromisoformat_py "2024-03-01T08" = Some (1709280000 * seconds)
  /\ fromisoformat_py "2024-03-01T08:30:00.5" = Some (1709281800 * seconds + 500000)
  /\ fromisoformat_py "20240301T0830" = Some (1709281800 * seconds)
  /\ fromisoformat_py "2024-W09-5" = Some (1709251200 * seconds)
  /\ fromisoformat_py "2024-03-01T08:30:00+01:00" = None.
Proof. vm_compute. repeat split. Qed.

(** A duration of a quarter of a second is written 0.2, the tie going to
    the even digit; 0.35 s, whose [float] is below 0.35, is written 0.3. *)
Example format_1f_py_ties :
  format_1f_py 250000 = "0.2" /\ format_1f_py 750000 = "0.8"
  /\ format_1f_py 350000 = "0.3" /\ format_1f_py 20000 = "0.0"
  /\ format_1f_py (300 * seconds + 1500) = "300.0".
Proof. vm_compute. repeat split. Qed.

Example int_py_forms :
  int_py "1_000" = Some 1000 /\ int_py " -7" = Some (-7) /\ int_py "٣٤" = Some 34
  /\ int_py "1__0" = None /\ int_py "" = None /\ int_py "1e3" = None.
Proof. vm_compute. repeat split. Qed.

Lemma append_nonempty (a b : string) : b <> "" -> a +:+ b <> "".
Proof.
  intros Hb. destruct a as [|c a]; cbn; [exact Hb|discriminate].
Qed.


(** *** The security check *)

Lemma blocked_hit_elem blocked command b :
  b ∈ blocked -> str_in b command = true -> blocked_hit blocked command = true.
Proof.
  induction blocked as [|x rest IH]; intros Hin Hsub.
  - inversion Hin.
  - simpl. destruct (str_in x command) eqn:Hx; [reflexivity|].
    apply IH; [|exact Hsub].
    apply elem_of_cons in Hin as [->|Hin]; [congruence|exact Hin].
Qed.

(** C1. Whenever some configured blocked substring occurs in the command,
    the security check returns [False], whatever the allow-list holds. *)
Theorem check_blocked_precedence (cfg : Config) (command b : string) :
  b ∈ blocked_commands (security cfg) ->
  str_in b command = true ->
  _check_command_security cfg command = Ok false.
Proof.
  intros Hin Hsub. unfold _check_command_security.
  rewrite (blocked_hit_elem _ _ _ Hin Hsub). reflexivity.
Qed.

Lemma check_blocked_precedence_witness :
  _check_command_security config_default "echo shutdown" = Ok false.
Proof.
  apply (check_blocked_precedence config_default "echo shutdown" "shutdown").
  - vm_compute. repeat constructor.
  - reflexivity.
Defined.

(** The allow-list decides only when no blocked text occurs; a command of
    blanks makes the check raise. *)
Example check_allow_list :
  _check_command_security config_default "echo  hola" = Ok true
  /\ _check_command_security config_default "ls -l" = Ok false
  /\ _check_command_security config_default " " = Raise IndexError.
Proof. vm_compute. repeat split. Qed.

(** *** Traces *)

Lemma saved_snapshots_app (a b : list Event) :
  saved_snapshots (a ++ b) = saved_snapshots a ++ saved_snapshots b.
Proof.
  induction a as [|e a IH]; [reflexivity|].
  destruct e; simpl; rewrite IH; reflexivity.
Qed.

Lemma child_runs_app (a b : list Event) :
  child_runs (a ++ b) = child_runs a ++ child_runs b.
Proof.
  induction a as [|e a IH]; [reflexivity|].
  destruct e; simpl; rewrite IH; reflexivity.
Qed.

Lemma saves_in_app (a b : list Event) :
  saves_in (a ++ b) = (saves_in a + saves_in b)%nat.
Proof. unfold saves_in. rewrite saved_snapshots_app. apply length_app. Qed.

(** *** Effects of the store methods and of the notifier *)

Section Effects.

Variable host : Host.
Variable cfg : Config.

Lemma save_effect (task : Task) (w : World) :
  exists i,
    _save_task_to_db host task w
    = (i, set_id (Some i) task,
       set_tasks (tasks (snd (_save_task_to_db host task w)))
         (tasks_seq (snd (_save_task_to_db host task w)))
         (emit (EvSaveTask task) w)).
Proof.
  unfold _save_task_to_db. destruct task as [[i|] ? ? ? ? ? ? ? ? ? ? ? ? ? ? ? ? ? ?];
    simpl; eexists; reflexivity.
Qed.

Lemma save_trace (task : Task) (w : World) :
  trace (snd (_save_task_to_db host task w)) = trace w ++ [EvSaveTask task].
Proof. destruct (save_effect task w) as [i ->]. reflexivity. Qed.

Lemma save_logs (task : Task) (w : World) :
  execution_logs (snd (_save_task_to_db host task w)) = execution_logs w.
Proof. destruct (save_effect task w) as [i ->]. reflexivity. Qed.

Lemma save_clock (task : Task) (w : World) :
  clock (snd (_save_task_to_db host task w)) = clock w.
Proof. destruct (save_effect task w) as [i ->]. reflexivity. Qed.

Lemma save_task (task : Task) (w : World) :
  exists i, snd (fst (_save_task_to_db host task w)) = set_id (Some i) task.
Proof. destruct (save_effect task w) as [i ->]. exists i. reflexivity. Qed.

Lemma notification_trace (title message : string) (w : World) :
  exists evs,
    trace (_send_notification cfg title message w) = trace w ++ evs
    /\ saved_snapshots evs = [].
Proof.
  unfold _send_notification. destruct (notify_kde cfg).
  - eexists [_]. split; reflexivity.
  - exists []. rewrite app_nil_r. split; reflexivity.
Qed.

Lemma notification_clock (title message : string) (w : World) :
  clock (_send_notification cfg title message w) = clock w.
Proof. unfold _send_notification. destruct (notify_kde cfg); reflexivity. Qed.

Lemma notification_logs (title message : string) (w : World) :
  execution_logs (_send_notification cfg title message w) = execution_logs w.
Proof. unfold _send_notification. destruct (notify_kde cfg); reflexivity. Qed.

Lemma save_inv (task task' : Task) (w w' : World) (i : Z) :
  _save_task_to_db host task w = (i, task', w') ->
  task' = set_id (Some i) task
  /\ trace w' = trace w ++ [EvSaveTask task]
  /\ execution_logs w' = execution_logs w
  /\ clock w' = clock w.
Proof.
  intros H. destruct (save_effect task w) as [j Hj]. rewrite Hj in H.
  injection H as <- <- <-. repeat split.
Qed.

Lemma log_execution_effect (i : Z) (time : string) (d rc : Z) (out : string) (w : World) :
  trace (_log_execution (Some i) time d rc out w)
  = trace w ++ [EvLogExecution (Some i) time d rc out]
  /\ length (execution_logs (_log_execution (Some i) time d rc out w))
     = S (length (execution_logs w)).
Proof.
  unfold _log_execution. simpl. split; [reflexivity|].
  rewrite length_app. simpl. lia.
Qed.

Lemma finish_run_effect (start_time : Z) (success : bool) (task : Task) (w : World) :
  let snap := ended host (if success then COMPLETED else FAILED) task (clock w) in
  let out := finish_run host cfg start_time success task w in
  fst (fst out) = Ok success
  /\ (exists i, snd (fst out) = set_id (Some i) snap)
  /\ saved_snapshots (trace (snd out)) = saved_snapshots (trace w) ++ [snap]
  /\ length (execution_logs (snd out)) = S (length (execution_logs w)).
Proof.
  intros snap out. subst out snap. unfold finish_run, ended. cbv zeta.
  set (snap := set_executed_at _ _).
  destruct (_save_task_to_db host snap w) as [[i t1] w1] eqn:Hs.
  apply save_inv in Hs as (-> & Htr & Hlogs & _).
  cbn [id set_id].
  match goal with
  | |- context [_log_execution ?a ?b ?c ?d ?e ?f] =>
      destruct (log_execution_effect i b c d e f) as [Hl1 Hl2];
      set (w2 := _log_execution a b c d e f) in *
  end.
  assert (Hfin : forall w3, (exists evs, trace w3 = trace w2 ++ evs /\ saved_snapshots evs = [])
             -> execution_logs w3 = execution_logs w2
             -> saved_snapshots (trace w3) = saved_snapshots (trace w) ++ [snap]
                /\ length (execution_logs w3) = S (length (execution_logs w))).
  { intros w3 (evs & Ht & He) Hl. rewrite Ht, Hl1, Htr, Hl, Hl2, Hlogs.
    rewrite !saved_snapshots_app, He. simpl. rewrite !app_nil_r. split; reflexivity. }
  destruct (success && _)%bool; [|destruct (negb success)]; cbn [fst snd];
    (split; [reflexivity|split; [eexists; reflexivity|]]); apply Hfin;
    try apply notification_trace; try apply notification_logs;
    try (exists []; rewrite app_nil_r; split; reflexivity); reflexivity.
Qed.

Lemma on_timeout_effect (task : Task) (w : World) :
  let snap := ended host FAILED (set_output timeout_output task) (clock w) in
  let out := on_timeout host cfg task w in
  fst (fst out) = Ok false
  /\ (exists i, snd (fst out) = set_id (Some i) snap)
  /\ saved_snapshots (trace (snd out)) = saved_snapshots (trace w) ++ [snap]
  /\ execution_logs (snd out) = execution_logs w.
Proof.
  intros snap out. subst out snap. unfold on_timeout, ended. cbv zeta.
  set (snap := set_executed_at _ _).
  destruct (_save_task_to_db host snap w) as [[i t1] w1] eqn:Hs.
  apply save_inv in Hs as (-> & Htr & Hlogs & _). cbn [fst snd].
  split; [reflexivity|]. split; [eexists; reflexivity|].
  rewrite notification_logs, Hlogs. split; [|reflexivity].
  destruct (notification_trace "⏰ Tarea Timeout"
              (name (set_id (Some i) snap) +:+ nl +:+ "Excedió el tiempo límite") w1)
    as (evs & -> & He).
  rewrite Htr, !saved_snapshots_app, He. simpl. rewrite app_nil_r. reflexivity.
Qed.

Lemma on_exception_effect (msg : string) (task : Task) (w : World) :
  let snap := ended host FAILED (set_output msg task) (clock w) in
  let out := on_exception host msg task w in
  fst (fst out) = Ok false
  /\ (exists i, snd (fst out) = set_id (Some i) snap)
  /\ saved_snapshots (trace (snd out)) = saved_snapshots (trace w) ++ [snap]
  /\ execution_logs (snd out) = execution_logs w.
Proof.
  intros snap out. subst out snap. unfold on_exception, ended. cbv zeta.
  set (snap := set_executed_at _ _).
  destruct (_save_task_to_db host snap w) as [[i t1] w1] eqn:Hs.
  apply save_inv in Hs as (-> & Htr & Hlogs & _). cbn [fst snd].
  split; [reflexivity|]. split; [eexists; reflexivity|].
  rewrite Hlogs, Htr, saved_snapshots_app. split; reflexivity.
Qed.

Lemma leaves_after (out : result bool * Task * World) (w1 w : World)
    (res : bool) (last : Task) (logged : bool) (pre : list Task) :
  leaves out w1 res last logged ->
  saved_snapshots (trace w1) = saved_snapshots (trace w) ++ pre ->
  execution_logs w1 = execution_logs w ->
  fst (fst out) = Ok res
  /\ (exists i, snd (fst out) = set_id (Some i) last)
  /\ saved_snapshots (trace (snd out)) = saved_snapshots (trace w) ++ pre ++ [last]
  /\ length (execution_logs (snd out))
     = ((if logged then 1 else 0) + length (execution_logs w))%nat.
Proof.
  intros (Hr & Ht & Hs & Hl) Hpre Hlogs. rewrite Hs, Hl, Hpre, Hlogs, <- app_assoc.
  repeat split; assumption.
Qed.

Lemma finish_run_leaves (start_time : Z) (success : bool) (task : Task) (w : World) :
  leaves (finish_run host cfg start_time success task w) w success
    (ended host (if success then COMPLETED else FAILED) task (clock w)) true.
Proof.
  destruct (finish_run_effect start_time success task w) as (H1 & H2 & H3 & H4).
  repeat split; assumption.
Qed.

Lemma on_timeout_leaves (task : Task) (w : World) :
  leaves (on_timeout host cfg task w) w false
    (ended host FAILED (set_output timeout_output task) (clock w)) false.
Proof.
  destruct (on_timeout_effect task w) as (H1 & H2 & H3 & H4).
  repeat split; try assumption. rewrite H4. reflexivity.
Qed.

Lemma on_exception_leaves (msg : string) (task : Task) (w : World) :
  leaves (on_exception host msg task w) w false
    (ended host FAILED (set_output msg task) (clock w)) false.
Proof.
  destruct (on_exception_effect msg task w) as (H1 & H2 & H3 & H4).
  repeat split; try assumption. rewrite H4. reflexivity.
Qed.

Lemma run_child_leaves (env : ExecEnv) (start_time : Z) (argv : list string)
    (shell : bool) (cwd : option string) (task : Task) (w : World) :
  let '(res, last, logged) := child_result host env task (clock w + elapsed env) in
  leaves (run_child host cfg env start_time (EvRun argv shell cwd) task w)
    w res last logged.
Proof.
  unfold child_result, run_child. cbv zeta.
  set (w2 := set_clock _ (emit _ w)).
  assert (Hs : saved_snapshots (trace w2) = saved_snapshots (trace w) ++ []).
  { subst w2. cbn. rewrite saved_snapshots_app. reflexivity. }
  assert (Hl : execution_logs w2 = execution_logs w) by reflexivity.
  assert (Hc : clock w2 = clock w + elapsed env) by reflexivity.
  destruct (proc env) as [rc out err| |msg]; rewrite <- Hc;
    [ pose proof (finish_run_leaves start_time (rc =? 0)
                    (set_output (out +:+ err) (set_result_code rc task)) w2) as H
    | pose proof (on_timeout_leaves task w2) as H
    | pose proof (on_exception_leaves msg task w2) as H ];
    destruct (leaves_after _ _ _ _ _ _ _ H Hs Hl) as (H1 & H2 & H3 & H4);
    rewrite app_nil_l in H3; repeat split; assumption.
Qed.

End Effects.

(** *** The executor, path by path *)

Section Executor.

Variable host : Host.
Variable cfg : Config.

Lemma run_notifier_leaves (env : ExecEnv) (start_time : Z) (argv : list string)
    (task : Task) (w : World) :
  let now := clock w + elapsed env in
  let '(res, last, logged) :=
    match notify_error env with
    | Some msg => (false, ended host FAILED (set_output msg task) now, false)
    | None =>
        (true, ended host COMPLETED
                 (set_output "Notificación enviada" (set_result_code 0 task)) now, true)
    end in
  leaves (run_notifier host cfg env start_time argv task w) w res last logged.
Proof.
  unfold run_notifier. cbv zeta.
  set (w2 := set_clock _ (emit _ w)).
  assert (Hs : saved_snapshots (trace w2) = saved_snapshots (trace w) ++ []).
  { subst w2. cbn. rewrite saved_snapshots_app. reflexivity. }
  assert (Hl : execution_logs w2 = execution_logs w) by reflexivity.
  assert (Hc : clock w2 = clock w + elapsed env) by reflexivity.
  destruct (notify_error env) as [msg|]; rewrite <- Hc;
    [ pose proof (on_exception_leaves host msg task w2) as H
    | pose proof (finish_run_leaves host cfg start_time true
                    (set_output "Notificación enviada" (set_result_code 0 task)) w2) as H ];
    destruct (leaves_after _ _ _ _ _ _ _ H Hs Hl) as (H1 & H2 & H3 & H4);
    rewrite app_nil_l in H3; repeat split; assumption.
Qed.

(** An enabled task whose command passes the check: the RUNNING state is
    saved, the action runs, and the state it ends in is saved. *)
Lemma execute_allowed (env : ExecEnv) (task : Task) (w : World) :
  enabled task = true ->
  _check_command_security cfg (command task) = Ok true ->
  let out := _execute_task host cfg env task w in
  let running := set_status RUNNING task in
  exists i res last logged,
    action_result host env (set_id (Some i) running) (clock w) = (res, last, logged)
    /\ fst (fst out) = Ok res
    /\ (exists j, snd (fst out) = set_id (Some j) last)
    /\ saved_snapshots (trace (snd out))
       = saved_snapshots (trace w) ++ [running; last]
    /\ length (execution_logs (snd out))
       = ((if logged then 1 else 0) + length (execution_logs w))%nat.
Proof.
  intros Hen Hsec out running. subst out. unfold _execute_task.
  rewrite Hen, Hsec. cbn [negb]. cbv zeta. fold running.
  destruct (_save_task_to_db host running w) as [[i t1] w1] eqn:Hs.
  apply save_inv in Hs as (-> & Htr & Hlogs & Hclk).
  assert (Hsn : saved_snapshots (trace w1) = saved_snapshots (trace w) ++ [running]).
  { rewrite Htr, saved_snapshots_app. reflexivity. }
  exists i. unfold action_result. rewrite <- Hclk.
  set (t1 := set_id (Some i) running).
  set (wd := if String.eqb (working_dir t1) "" then home host else working_dir t1).
  destruct (task_type t1) eqn:Hty.
  - (* COMMAND *)
    destruct (arguments t1) as [|a args];
      match goal with
      | |- context [run_child _ _ _ ?st (EvRun ?argv ?sh ?cwd) _ _] =>
          pose proof (run_child_leaves host cfg env st argv sh cwd t1 w1) as H
      end;
      destruct (child_result host env t1 (clock w1 + elapsed env)) as [[res last] logged];
      exists res, last, logged; (split; [reflexivity|]);
      exact (leaves_after _ _ _ _ _ _ _ H Hsn Hlogs).
  - (* SCRIPT *)
    match goal with
    | |- context [run_child _ _ _ ?st (EvRun ?argv ?sh ?cwd) _ _] =>
        pose proof (run_child_leaves host cfg env st argv sh cwd t1 w1) as H
    end.
    destruct (child_result host env t1 (clock w1 + elapsed env)) as [[res last] logged].
    exists res, last, logged. split; [reflexivity|].
    exact (leaves_after _ _ _ _ _ _ _ H Hsn Hlogs).
  - (* NOTIFICATION *)
    destruct (String.eqb (command t1) "kdialog") eqn:Hk; cbn [orb].
    + pose proof (run_notifier_leaves env (clock w1)
                    ("kdialog" :: "--title" :: name t1 :: arguments t1) t1 w1) as H.
      cbv zeta in H. destruct (notify_error env);
        do 3 eexists; (split; [reflexivity|]);
        exact (leaves_after _ _ _ _ _ _ _ H Hsn Hlogs).
    + destruct (String.eqb (command t1) "notify-send") eqn:Hn.
      * pose proof (run_notifier_leaves env (clock w1)
                      ("notify-send" :: name t1 :: arguments t1) t1 w1) as H.
        cbv zeta in H. destruct (notify_error env);
          do 3 eexists; (split; [reflexivity|]);
          exact (leaves_after _ _ _ _ _ _ _ H Hsn Hlogs).
      * do 3 eexists. split; [reflexivity|].
        exact (leaves_after _ _ _ _ _ _ _
                 (finish_run_leaves host cfg (clock w1) true _ w1) Hsn Hlogs).
  - (* REMINDER *)
    do 3 eexists. split; [reflexivity|].
    match goal with
    | |- context [finish_run _ _ _ true _ ?w'] => set (w2 := w')
    end.
    assert (Hs2 : saved_snapshots (trace w2) = saved_snapshots (trace w) ++ [running]).
    { subst w2.
      match goal with
      | |- context [_send_notification cfg ?a ?b w1] =>
          destruct (notification_trace cfg a b w1) as (evs & -> & He)
      end.
      rewrite saved_snapshots_app, He, app_nil_r. exact Hsn. }
    assert (Hl2 : execution_logs w2 = execution_logs w).
    { subst w2. rewrite notification_logs. exact Hlogs. }
    assert (Hc2 : clock w2 = clock w1) by apply notification_clock.
    rewrite <- Hc2.
    exact (leaves_after _ _ _ _ _ _ _
             (finish_run_leaves host cfg _ true _ w2) Hs2 Hl2).
Qed.

End Executor.

Section ExecutorClaims.

Variable host : Host.
Variable cfg : Config.

(** A command that fails the check: the task is failed and saved, and
    nothing else happens. *)
Lemma execute_denied (env : ExecEnv) (task : Task) (w : World) :
  enabled task = true ->
  _check_command_security cfg (command task) = Ok false ->
  let out := _execute_task host cfg env task w in
  let denied := set_output denial_output (set_status FAILED task) in
  fst (fst out) = Ok false
  /\ (exists i, snd (fst out) = set_id (Some i) denied)
  /\ trace (snd out) = trace w ++ [EvSaveTask denied]
  /\ execution_logs (snd out) = execution_logs w.
Proof.
  intros Hen Hsec out denied. subst out. unfold _execute_task.
  rewrite Hen, Hsec. cbn [negb]. cbv zeta. fold denied.
  change (set_output "Comando bloqueado por seguridad" (set_status FAILED task))
    with denied.
  destruct (_save_task_to_db host denied w) as [[i t1] w1] eqn:Hs.
  apply save_inv in Hs as (-> & Htr & Hlogs & _). cbn [fst snd].
  repeat split; try assumption. exists i. reflexivity.
Qed.


Lemma action_result_last (env : ExecEnv) (task : Task) (now : Z)
    (res : bool) (last : Task) (logged : bool) :
  action_result host env task now = (res, last, logged) ->
  (status last = COMPLETED \/ status last = FAILED)
  /\ (exists t, executed_at last = isoformat host t).
Proof.
  unfold action_result, child_result.
  destruct (task_type task); try destruct (proc env) as [rc ? ?| |?];
    try destruct (rc =? 0); try destruct (_ || _)%bool;
    try destruct (notify_error env);
    intros H; injection H as <- <- <-; cbn; eauto.
Qed.

End ExecutorClaims.

(** *** The order of the events of an execution *)

Section Order.

Variable host : Host.
Variable cfg : Config.







End Order.

(** *** Claims on the executor *)




(** With an empty allow-list the same reminder is shown. *)
Example reminder_shown_without_allow_list :
  let cfg := {| check_interval_seconds := 60; cleanup_completed_days := 30;
                notify_kde := true;
                security := {| allowed_commands := [];
                               blocked_commands := ["shutdown"];
                               require_confirmation := true |} |} in
  let '(res, task', w') :=
    _execute_task posix_host cfg (env_exit 0 "") reminder_task (new_world t0) in
  res = Ok true /\ status task' = COMPLETED
  /\ hd_error (child_runs (trace w'))
     = Some ["kdialog"; "--title"; "Recordatorio"; "--passivepopup";
             "Llamar al dentista"; "10"].
Proof. vm_compute. repeat split. Qed.




(** On the sample task: the RUNNING save, the command, the final save, the
    log row and the pop-up, in that order. *)
Example execution_order_sample :
  let '(_, _, w') :=
    _execute_task posix_host config_default (env_exit 0 "ok")
      (set_id (Some 1) echo_task) (new_world t0) in
  map (fun e => match e with
                | EvSaveTask t => status_value (status t)
                | EvLogExecution _ _ _ _ _ => "log"
                | EvRun argv _ _ => hd "" argv
                end) (trace w')
  = ["running"; "echo"; "completed"; "log"; "kdialog"].
Proof. vm_compute. reflexivity. Qed.

(** On a timeout of the child process, whatever the task: it is marked
    FAILED with the timeout marker, and [execution_logs] is left as it
    was. *)
Lemma timeout_leaves_no_log (host : Host) (cfg : Config)
    (env : ExecEnv) (task : Task) (w : World) :
  enabled task = true ->
  _check_command_security cfg (command task) = Ok true ->
  task_type task = COMMAND \/ task_type task = SCRIPT ->
  proc env = TimeoutExpired ->
  let '(res, task', w') := _execute_task host cfg env task w in
  res = Ok false /\ status task' = FAILED /\ output task' = timeout_output
  /\ length (execution_logs w') = length (execution_logs w).
Proof.
  intros Hen Hsec Hty Hto.
  destruct (execute_allowed host cfg env task w Hen Hsec)
    as (i & res & last & logged & Hact & Hr & [j Hj] & _ & Hlen).
  destruct (_execute_task host cfg env task w) as [[r t'] w']. cbn [fst snd] in *.
  subst r t'. unfold action_result, child_result in Hact. cbn [task_type set_id set_status] in Hact.
  rewrite Hto in Hact.
  destruct Hty as [Hty|Hty]; rewrite Hty in Hact; injection Hact as <- <- <-;
    rewrite Hlen; repeat split.
Qed.

(** C3. A COMMAND task whose child process exceeds the limit ends FAILED
    with the timeout marker, but no duration is recorded for the attempt:
    [_log_execution] is not called and [execution_logs] stays empty; the
    marker does not reach the stored row either, whose [output] is NULL. *)
Theorem timeout_records_no_duration :
  let '(res, task', w') :=
    _execute_task posix_host config_default env_timeout slow_task (new_world t0) in
  res = Ok false /\ status task' = FAILED /\ output task' = timeout_output
  /\ logged_durations (trace w') = []
  /\ execution_logs w' = []
  /\ map col_status (tasks w') = ["failed"]
  /\ map col_output (tasks w') = [None].
Proof. vm_compute. repeat split. Qed.

(** The sibling branch, for comparison: the same task ending with exit
    status 1 after 2 s has its duration logged. *)
Example failure_records_duration :
  let env := {| proc := Exited 1 "" "error"; elapsed := 2 * seconds;
                notify_error := None |} in
  let '(res, task', w') :=
    _execute_task posix_host config_default env slow_task (new_world t0) in
  res = Ok false /\ status task' = FAILED
  /\ logged_durations (trace w') = [2 * seconds]
  /\ map log_duration_seconds (execution_logs w') = [2 * seconds].
Proof. vm_compute. repeat split. Qed.

(** C5. A task already stored, with a blocked command: the execution marks
    it FAILED with the security-denial output and runs no child process,
    and the status reaches the store; the denial output does not: the
    UPDATE leaves the [output] column NULL, and the task loaded back has an
    empty output. *)
Theorem denial_output_not_persisted :
  let '(_, stored, w1) := _save_task_to_db posix_host blocked_task (new_world t0) in
  let '(res, task', w') :=
    _execute_task posix_host config_default (env_exit 0 "") stored w1 in
  res = Ok false /\ status task' = FAILED /\ output task' = denial_output
  /\ child_runs (trace w') = []
  /\ map col_status (tasks w') = ["failed"]
  /\ map col_output (tasks w') = [None]
  /\ option_map output (_load_task_from_db 1 w') = Some "".
Proof. vm_compute. repeat split. Qed.

(** No save writes the three result columns: an UPDATE keeps what the row
    held, and an INSERT leaves them NULL. *)
Lemma save_keeps_result_columns (host : Host) (task : Task) (w : World) (i : Z) :
  id task = Some i ->
  let w' := snd (_save_task_to_db host task w) in
  map col_output (tasks w') = map col_output (tasks w)
  /\ map col_executed_at (tasks w') = map col_executed_at (tasks w)
  /\ map col_result_code (tasks w') = map col_result_code (tasks w).
Proof.
  intros Hid. unfold _save_task_to_db. rewrite Hid. cbn.
  unfold update_where_id. rewrite !map_map.
  repeat split; apply map_ext; intros row; destruct (col_id row =? i); reflexivity.
Qed.




(** From the second execution on, the RUNNING state is saved with the
    [executed_at] of the execution before. *)
Example running_with_stale_executed_at :
  let w1 := snd (schedule_task posix_host 0 (world_with soon_task)) in
  let w := run_ticks posix_host config_default (replicate 3 all_ok) w1 in
  map (fun t => (status t, executed_at t)) (saved_snapshots (trace w))
  = [(PENDING, ""); (RUNNING, ""); (COMPLETED, "2024-03-01T08:31:00.020000");
     (RUNNING, "2024-03-01T08:31:00.020000");
     (COMPLETED, "2024-03-01T08:32:00.040000")].
Proof. vm_compute. reflexivity. Qed.

(** *** The retention sweep *)

Lemma is_terminal_text_spec (row : TaskRow) :
  is_terminal_text (col_status row) = true <-> terminal_row row.
Proof.
  unfold is_terminal_text, terminal_row. rewrite bool_decide_eq_true.
  rewrite !elem_of_cons, elem_of_nil. split.
  - intros [H|[H|[H|[]]]]; [exists COMPLETED|exists FAILED|exists CANCELLED];
      rewrite H; cbn; auto.
  - intros (st & -> & [->|[->| ->]]); cbn; auto.
Qed.

Lemma task_is_old_spec (cutoff : string) (row : TaskRow) :
  task_is_old cutoff row = true <-> old_task cutoff row.
Proof.
  unfold task_is_old, old_task, predates.
  rewrite andb_true_iff, is_terminal_text_spec.
  destruct (col_executed_at row) as [t|]; split.
  - intros [Ht Hlt]. split; [exact Ht|]. exists t. split; [reflexivity|exact Hlt].
  - intros [Ht (t' & [= <-] & Hlt)]. split; assumption.
  - intros [_ H]. discriminate H.
  - intros [_ (t' & H & _)]. discriminate H.
Qed.

Lemma keep_spec {A} (old : A -> bool) (rows : list A) (row : A) :
  row ∈ keep old rows <-> row ∈ rows /\ old row = false.
Proof.
  unfold keep. rewrite list_elem_of_filter.
  destruct (old row); cbn; intuition congruence.
Qed.

Lemma keep_sublist {A} (old : A -> bool) (rows : list A) :
  sublist (keep old rows) rows.
Proof. unfold keep. apply sublist_filter. Qed.

Lemma keep_length {A} (old : A -> bool) (rows : list A) :
  (length (filter (fun row => old row) rows) + length (keep old rows))%nat
  = length rows.
Proof.
  unfold keep. induction rows as [|row rows IH]; [reflexivity|].
  rewrite !filter_cons. destruct (old row) eqn:Hold; cbn.
  - rewrite decide_True by exact I. rewrite decide_False by (intros []).
    cbn. lia.
  - rewrite decide_False by (intros []). rewrite decide_True by exact I.
    cbn. lia.
Qed.

(** C7, as stated, fails on the returned value: one old task row and one
    old log row are deleted, and the method returns [None]. *)
Lemma cleanup_returns_none :
  let '(ret, w') := cleanup_old_tasks posix_host config_default aged_world in
  length (tasks w') = 1%nat /\ length (execution_logs w') = 0%nat
  /\ ~ returns_deleted_count aged_world ret w'.
Proof. vm_compute. split; [reflexivity|split; [reflexivity|discriminate]]. Qed.

(** C7, amended. The cutoff is the instant [cleanup_completed_days] days
    before the clock.  When computing it raises no OverflowError, the rows
    left in [tasks] are exactly those that are not both in a terminal
    status and with an [executed_at] strictly before the cutoff, the rows
    left in [execution_logs] are exactly those whose time is not strictly
    before it, and the rows kept are unchanged and in their order; the
    number of task rows deleted is the count the method logs.  When it
    does, nothing is deleted.  In both cases the method returns nothing. *)
Theorem cleanup_removes_exactly_old (host : Host) (cfg : Config) (w : World) :
  let '(ret, w') := cleanup_old_tasks host cfg w in
  ret = None
  /\ match cleanup_cutoff host cfg w with
     | Some cutoff =>
         (forall row, row ∈ tasks w' <-> row ∈ tasks w /\ ~ old_task cutoff row)
         /\ (forall row, row ∈ execution_logs w'
                         <-> row ∈ execution_logs w /\ ~ old_log cutoff row)
         /\ sublist (tasks w') (tasks w)
         /\ sublist (execution_logs w') (execution_logs w)
         /\ cleanup_deleted cutoff w
            = Z.of_nat (length (tasks w)) - Z.of_nat (length (tasks w'))
     | None => w' = w
     end.
Proof.
  unfold cleanup_old_tasks.
  destruct (cleanup_cutoff host cfg w) as [cutoff|]; [|split; reflexivity].
  cbn [tasks execution_logs set_tasks set_execution_logs].
  split; [reflexivity|]. split; [|split; [|split; [|split]]].
  - intros row. rewrite keep_spec, <- task_is_old_spec.
    destruct (task_is_old cutoff row); intuition congruence.
  - intros row. rewrite keep_spec. unfold old_log, predates, log_is_old.
    destruct (String.ltb _ _); intuition congruence.
  - apply keep_sublist.
  - apply keep_sublist.
  - unfold cleanup_deleted.
    pose proof (keep_length (task_is_old cutoff) (tasks w)) as H. lia.
Qed.

(** At an instant that [datetime] holds, the cutoff is computed exactly
    when it is itself such an instant: the range of [timedelta] is the
    wider one. *)
Lemma cleanup_cutoff_some (host : Host) (cfg : Config) (w : World) :
  in_datetime (clock w) = true ->
  let t := clock w - cleanup_completed_days cfg * 86400 * seconds in
  cleanup_cutoff host cfg w
  = if in_datetime t then Some (isoformat host t) else None.
Proof.
  intros Hc t. unfold cleanup_cutoff. cbv zeta. fold t.
  destruct (in_datetime t) eqn:Ht; [|rewrite andb_false_r; reflexivity].
  rewrite andb_true_r.
  replace (in_timedelta _) with true; [reflexivity|]. symmetry.
  unfold in_datetime, in_timedelta, datetime_min, datetime_max, seconds in *.
  cbv zeta. subst t.
  apply andb_true_iff in Hc as [Hc1 Hc2]. apply andb_true_iff in Ht as [Ht1 Ht2].
  apply Z.leb_le in Hc1, Hc2, Ht1, Ht2. apply andb_true_iff.
  split; apply Z.leb_le.
  - apply Z.div_le_lower_bound; lia.
  - apply Z.div_le_upper_bound; lia.
Qed.

(** On the sample store: the old completed task and the old log row go, the
    pending task of the same age stays. *)
Example cleanup_aged_world :
  let '(_, w') := cleanup_old_tasks posix_host config_default aged_world in
  tasks w' = [old_pending_row] /\ execution_logs w' = []
  /\ cleanup_cutoff posix_host config_default aged_world = Some "2024-01-31T08:30:00".
Proof. vm_compute. repeat split. Qed.

(** With a retention of a million days the cutoff would fall before the
    year 1: the subtraction raises OverflowError and the old rows stay. *)
Example cleanup_cutoff_overflow :
  let cfg := {| check_interval_seconds := 60; cleanup_completed_days := 1000000;
                notify_kde := true; security := security config_default |} in
  cleanup_cutoff posix_host cfg aged_world = None
  /\ cleanup_old_tasks posix_host cfg aged_world = (None, aged_world).
Proof. vm_compute. split; reflexivity. Qed.

(** *** Saving and loading *)

Lemma type_value_inv (k : TaskType) : type_of_value (type_value k) = Some k.
Proof. destruct k; reflexivity. Qed.

Lemma trigger_value_inv (k : TriggerType) : trigger_of_value (trigger_value k) = Some k.
Proof. destruct k; reflexivity. Qed.

Lemma status_value_inv (k : TaskStatus) : status_of_value (status_value k) = Some k.
Proof. destruct k; reflexivity. Qed.

Lemma next_rowid_fresh (seq : Z) (ids : list Z) (i : Z) :
  i ∈ ids -> i < next_rowid seq ids.
Proof.
  unfold next_rowid. induction ids as [|j ids IH]; intros Hin.
  - inversion Hin.
  - cbn. apply elem_of_cons in Hin as [->|Hin]; [lia|].
    specialize (IH Hin). lia.
Qed.

Lemma select_by_id_last (rows : list TaskRow) (row : TaskRow) :
  (forall r, r ∈ rows -> col_id r <> col_id row) ->
  select_by_id (col_id row) (rows ++ [row]) = Some row.
Proof.
  unfold select_by_id. induction rows as [|r rows IH]; intros Hne; cbn.
  - rewrite Z.eqb_refl. reflexivity.
  - destruct (col_id r =? col_id row) eqn:E.
    + apply Z.eqb_eq in E. exfalso. apply (Hne r); [left|exact E].
    + apply IH. intros r' Hr'. apply Hne. right. exact Hr'.
Qed.

Lemma update_where_id_last (task : Task) (rows : list TaskRow) (row : TaskRow) :
  (forall r, r ∈ rows -> col_id r <> col_id row) ->
  update_where_id (col_id row) task (rows ++ [row])
  = rows ++ [updated_row task row].
Proof.
  unfold update_where_id. intros Hne. rewrite map_app. cbn.
  rewrite Z.eqb_refl. f_equal.
  induction rows as [|r rows IH]; [reflexivity|]. cbn.
  destruct (col_id r =? col_id row) eqn:E.
  - apply Z.eqb_eq in E. exfalso. apply (Hne r); [left|exact E].
  - f_equal. apply IH. intros r' Hr'. apply Hne. right. exact Hr'.
Qed.

(** Saving a new task, loading it and saving it again leaves the stored
    rows as they were, provided [max_retries] is not zero. *)
Lemma save_load_save_new (host : Host) (task : Task) (w : World) :
  id task = None ->
  max_retries task <> 0 ->
  let '(i, _, w1) := _save_task_to_db host task w in
  exists loaded,
    _load_task_from_db i w1 = Some loaded
    /\ tasks (snd (_save_task_to_db host loaded w1)) = tasks w1.
Proof.
  intros Hid Hmax. unfold _save_task_to_db at 1. rewrite Hid.
  cbn [tasks tasks_seq emit clock].
  set (new_id := next_rowid (tasks_seq w) (map col_id (tasks w))).
  set (row := inserted_row host new_id (clock w) task).
  assert (Hfresh : forall r, r ∈ tasks w -> col_id r <> col_id row).
  { intros r Hr. change (col_id row) with new_id.
    assert (col_id r < new_id); [|lia].
    apply next_rowid_fresh. apply list_elem_of_fmap. exists r. split; [reflexivity|exact Hr]. }
  unfold _load_task_from_db. cbn [tasks set_tasks].
  change new_id with (col_id row) at 1.
  rewrite (select_by_id_last _ _ Hfresh).
  unfold task_of_row. cbn [row inserted_row col_task_type col_trigger_type col_status].
  rewrite type_value_inv, trigger_value_inv, status_value_inv.
  eexists. split; [reflexivity|].
  unfold _save_task_to_db. cbn [id set_tasks tasks emit snd].
  rewrite (update_where_id_last _ _ _ Hfresh). f_equal. f_equal.
  unfold updated_row, inserted_row, int_or, py_bool, bool_int. cbn.
  destruct (max_retries task =? 0) eqn:E; [apply Z.eqb_eq in E; contradiction|].
  subst row. unfold inserted_row, bool_int.
  destruct (retry_count task =? 0) eqn:E2;
    [apply Z.eqb_eq in E2; rewrite E2|];
    destruct (enabled task), (notify_on_completion task); reflexivity.
Qed.

Lemma save_load_save_new_witness :
  let '(i, _, w1) := _save_task_to_db posix_host echo_task (new_world t0) in
  exists loaded,
    _load_task_from_db i w1 = Some loaded
    /\ tasks (snd (_save_task_to_db posix_host loaded w1)) = tasks w1.
Proof.
  apply (save_load_save_new posix_host echo_task (new_world t0)).
  - reflexivity.
  - cbn. lia.
Defined.

(** C8. For a task saved with [max_retries = 0], the task loaded back has
    [max_retries = 3], and saving it again changes the stored column from
    0 to 3. *)
Theorem reload_changes_zero_max_retries :
  let '(i, _, w1) := _save_task_to_db posix_host no_retry_task (new_world t0) in
  exists loaded,
    _load_task_from_db i w1 = Some loaded
    /\ max_retries loaded = 3
    /\ map col_max_retries (tasks w1) = [Some 0]
    /\ map col_max_retries (tasks (snd (_save_task_to_db posix_host loaded w1)))
       = [Some 3].
Proof. vm_compute. eexists. repeat split. Qed.

(** *** Triggers *)

(** The job registry and the task objects are out of reach of the store
    methods, of the notifier and of the executor. *)
Lemma save_frame (host : Host) (task : Task) (w : World) :
  let w' := snd (_save_task_to_db host task w) in
  jobs w' = jobs w /\ heap w' = heap w.
Proof.
  unfold _save_task_to_db. destruct (id task); split; reflexivity.
Qed.

Lemma log_execution_frame (task_id : option Z) (time : string) (d rc : Z)
    (out : string) (w : World) :
  let w' := _log_execution task_id time d rc out w in
  jobs w' = jobs w /\ heap w' = heap w.
Proof. unfold _log_execution. destruct task_id; split; reflexivity. Qed.

Lemma notification_frame (cfg : Config) (title message : string) (w : World) :
  let w' := _send_notification cfg title message w in
  jobs w' = jobs w /\ heap w' = heap w.
Proof. unfold _send_notification. destruct (notify_kde cfg); split; reflexivity. Qed.

Ltac frame_step :=
  match goal with
  | |- context [_save_task_to_db ?h ?t ?w] =>
      let H := fresh "Hf" in
      pose proof (save_frame h t w) as H; cbv zeta in H;
      destruct (_save_task_to_db h t w) as [[? ?] ?]; cbn [fst snd] in H
  | |- context [_log_execution ?a ?b ?c ?d ?e ?w] =>
      let H := fresh "Hf" in
      pose proof (log_execution_frame a b c d e w) as H; cbv zeta in H;
      set (_log_execution a b c d e w) in *
  | |- context [_send_notification ?c ?a ?b ?w] =>
      let H := fresh "Hf" in
      pose proof (notification_frame c a b w) as H; cbv zeta in H;
      set (_send_notification c a b w) in *
  end.

Ltac frame_close :=
  cbn [fst snd jobs heap emit set_clock] in *;
  repeat match goal with
         | H : _ /\ _ |- _ => destruct H
         end;
  split; congruence.

Lemma finish_run_frame (host : Host) (cfg : Config) (start_time : Z)
    (success : bool) (task : Task) (w : World) :
  let w' := snd (finish_run host cfg start_time success task w) in
  jobs w' = jobs w /\ heap w' = heap w.
Proof.
  unfold finish_run. cbv zeta. frame_step. frame_step.
  destruct (success && _)%bool; [|destruct (negb success)];
    try frame_step; frame_close.
Qed.

Lemma on_timeout_frame (host : Host) (cfg : Config) (task : Task) (w : World) :
  let w' := snd (on_timeout host cfg task w) in
  jobs w' = jobs w /\ heap w' = heap w.
Proof. unfold on_timeout. cbv zeta. frame_step. frame_step. frame_close. Qed.

Lemma on_exception_frame (host : Host) (msg : string) (task : Task) (w : World) :
  let w' := snd (on_exception host msg task w) in
  jobs w' = jobs w /\ heap w' = heap w.
Proof. unfold on_exception. cbv zeta. frame_step. frame_close. Qed.

Lemma run_child_frame (host : Host) (cfg : Config) (env : ExecEnv)
    (start_time : Z) (ev : Event) (task : Task) (w : World) :
  let w' := snd (run_child host cfg env start_time ev task w) in
  jobs w' = jobs w /\ heap w' = heap w.
Proof.
  unfold run_child. cbv zeta.
  destruct (proc env) as [rc out err| |msg];
    [ destruct (finish_run_frame host cfg start_time (rc =? 0)
                  (set_output (out +:+ err) (set_result_code rc task))
                  (set_clock (clock (emit ev w) + elapsed env) (emit ev w)))
    | destruct (on_timeout_frame host cfg task
                  (set_clock (clock (emit ev w) + elapsed env) (emit ev w)))
    | destruct (on_exception_frame host msg task
                  (set_clock (clock (emit ev w) + elapsed env) (emit ev w))) ];
    split; etransitivity; eauto.
Qed.

Lemma run_notifier_frame (host : Host) (cfg : Config) (env : ExecEnv)
    (start_time : Z) (argv : list string) (task : Task) (w : World) :
  let w' := snd (run_notifier host cfg env start_time argv task w) in
  jobs w' = jobs w /\ heap w' = heap w.
Proof.
  unfold run_notifier. cbv zeta.
  set (w2 := set_clock _ (emit _ w)).
  destruct (notify_error env) as [msg|];
    [ destruct (on_exception_frame host msg task w2)
    | destruct (finish_run_frame host cfg start_time true
                  (set_output "Notificación enviada" (set_result_code 0 task)) w2) ];
    split; etransitivity; eauto.
Qed.

Lemma execute_frame (host : Host) (cfg : Config) (env : ExecEnv)
    (task : Task) (w : World) :
  let w' := snd (_execute_task host cfg env task w) in
  jobs w' = jobs w /\ heap w' = heap w.
Proof.
  unfold _execute_task. cbv zeta.
  destruct (negb (enabled task)); [split; reflexivity|].
  destruct (_check_command_security cfg (command task)) as [[|]|e];
    [|frame_step; frame_close|split; reflexivity].
  frame_step. destruct Hf as [Hj Hh]. rewrite <- Hj, <- Hh.
  destruct (task_type _).
  - destruct (arguments _); apply run_child_frame.
  - apply run_child_frame.
  - destruct (String.eqb _ "kdialog"); [apply run_notifier_frame|].
    destruct (String.eqb _ "notify-send"); [apply run_notifier_frame|].
    apply finish_run_frame.
  - match goal with
    | |- context [finish_run ?h ?c ?st ?b ?t ?w2] =>
        destruct (finish_run_frame h c st b t w2) as [H1 H2]
    end.
    frame_step. destruct Hf as [H3 H4]. split; congruence.
Qed.


(** A job runs on the object it closes over, and on no other. *)
Lemma run_job_untouched (host : Host) (cfg : Config) (env : ExecEnv)
    (k r : nat) (w : World) :
  not_scheduled r w ->
  let w' := snd (run_job host cfg env k w) in
  heap w' !! r = heap w !! r /\ not_scheduled r w'.
Proof.
  unfold not_scheduled, run_job. intros Hns. cbv zeta.
  destruct (jobs w !! k) as [j|] eqn:Hj; [|split; [reflexivity|exact Hns]].
  destruct (heap w !! job_task j) as [task|]; [|split; [reflexivity|exact Hns]].
  pose proof (Forall_lookup_1 _ _ _ _ Hns Hj) as Hne. cbn beta in Hne.
  pose proof (execute_frame host cfg env task w) as [Hjobs Hheap].
  destruct (_execute_task host cfg env task w) as [[res task'] w1].
  cbn [snd] in Hjobs, Hheap.
  assert (Hlook : <[job_task j := task']> (heap w1) !! r = heap w !! r).
  { rewrite list_lookup_insert_ne by exact Hne. rewrite Hheap. reflexivity. }
  destruct res as [b|e]; cbn [snd heap jobs set_heap set_jobs].
  - split; [exact Hlook|]. apply Forall_insert; [rewrite Hjobs; exact Hns|exact Hne].
  - split; [exact Hlook|]. rewrite Hjobs. exact Hns.
Qed.

Lemma run_all_untouched (host : Host) (cfg : Config) (envs : nat -> ExecEnv)
    (r : nat) (ks : list (nat * Job)) (n : nat) (w : World) :
  not_scheduled r w ->
  let w' := snd (run_all host cfg envs n ks w) in
  heap w' !! r = heap w !! r /\ not_scheduled r w'.
Proof.
  revert n w. induction ks as [|[k j] ks IH]; intros n w Hns; cbn.
  - split; [reflexivity|exact Hns].
  - pose proof (run_job_untouched host cfg (envs n) k r w Hns) as [Hh Hn].
    destruct (run_job host cfg (envs n) k w) as [[u|e] w1]; cbn [snd] in *.
    + destruct (IH (S n) w1 Hn) as [Hh2 Hn2]. split; [congruence|exact Hn2].
    + split; assumption.
Qed.

Lemma run_ticks_untouched (host : Host) (cfg : Config)
    (ticks : list (nat -> ExecEnv)) (r : nat) (w : World) :
  not_scheduled r w ->
  let w' := run_ticks host cfg ticks w in
  heap w' !! r = heap w !! r /\ not_scheduled r w'.
Proof.
  revert w. induction ticks as [|envs ticks IH]; intros w Hns; cbn.
  - split; [reflexivity|exact Hns].
  - pose proof (run_all_untouched host cfg envs r (runnable_jobs w) 0 w Hns) as [Hh Hn].
    unfold scheduler_tick, run_pending.
    set (w1 := snd (run_all host cfg envs 0 (runnable_jobs w) w)) in *.
    destruct (IH (sleep (check_interval_seconds cfg) w1)) as [Hh2 Hn2]; [exact Hn|].
    split; [|exact Hn2]. rewrite Hh2. exact Hh.
Qed.

(** A TIME trigger whose instant is not in the future registers nothing. *)
Lemma time_trigger_not_future (host : Host) (r : nat) (task : Task)
    (text : string) (scheduled_time : Z) (w : World) :
  trigger_data task !! "datetime" = Some (JStr text) ->
  fromisoformat host text = Some scheduled_time ->
  scheduled_time <= clock w ->
  _schedule_time_trigger host r task w = Some w.
Proof.
  intros Hd Hp Hle. unfold _schedule_time_trigger. rewrite Hd, Hp.
  destruct (clock w <? scheduled_time) eqn:E; [|reflexivity].
  apply Z.ltb_lt in E. lia.
Qed.

(** C9, as stated, fails: a TIME task registered half an hour after its
    instant is not executed on the next tick, nor on the two after it; no
    job was registered for it and it stays PENDING. *)
Lemma past_time_task_skipped :
  let '(ok, w1) := schedule_task posix_host 0 (world_with past_task) in
  let w2 := scheduler_tick posix_host config_default all_ok w1 in
  let w4 := run_ticks posix_host config_default [all_ok; all_ok] w2 in
  ok = Some true
  /\ ~ (runs_started (trace w1) < runs_started (trace w2))%nat
  /\ runs_started (trace w4) = 0%nat
  /\ jobs w1 = []
  /\ status <$> heap w4 = [PENDING].
Proof. vm_compute. split; [reflexivity|]. split; [lia|]. repeat split. Qed.

(** C9, amended. For a TIME task whose instant is not after the time of
    registration, [schedule_task] registers no job; if no job closed over
    the task object before, no later tick executes it: after any number of
    ticks the object is as the registration left it. *)
Theorem past_time_trigger_never_fires (host : Host) (cfg : Config) (r : nat)
    (task : Task) (text : string) (scheduled_time : Z) (w : World)
    (ticks : list (nat -> ExecEnv)) :
  heap w !! r = Some task ->
  trigger_type task = TIME ->
  trigger_data task !! "datetime" = Some (JStr text) ->
  fromisoformat host text = Some scheduled_time ->
  scheduled_time <= clock w ->
  not_scheduled r w ->
  let w1 := snd (schedule_task host r w) in
  jobs w1 = jobs w
  /\ heap (run_ticks host cfg ticks w1) !! r = heap w1 !! r.
Proof.
  intros Hr Hty Hd Hp Hle Hns. cbv zeta.
  assert (Hjobs : jobs (snd (schedule_task host r w)) = jobs w).
  { unfold schedule_task. rewrite Hr.
    pose proof (save_frame host task w) as [Hj _].
    pose proof (save_clock host task w) as Hc.
    destruct (save_task host task w) as [i Hi].
    destruct (_save_task_to_db host task w) as [[i' t1] w1]. cbn [fst snd] in *.
    subst t1. destruct (i' =? -1); [exact Hj|].
    cbn [trigger_type set_id]. rewrite Hty.
    rewrite (time_trigger_not_future host r _ text scheduled_time);
      [exact Hj|exact Hd|exact Hp|cbn; lia]. }
  split; [exact Hjobs|].
  apply run_ticks_untouched. unfold not_scheduled. rewrite Hjobs. exact Hns.
Qed.

Lemma past_time_trigger_never_fires_witness :
  let w1 := snd (schedule_task posix_host 0 (world_with past_task)) in
  jobs w1 = jobs (world_with past_task)
  /\ heap (run_ticks posix_host config_default [all_ok; all_ok; all_ok] w1) !! 0%nat
     = heap w1 !! 0%nat.
Proof.
  apply (past_time_trigger_never_fires posix_host config_default 0 past_task
           "2024-03-01T08:00:00" (t0 - 1800 * seconds) (world_with past_task)
           [all_ok; all_ok; all_ok]).
  - reflexivity.
  - reflexivity.
  - vm_compute. reflexivity.
  - vm_compute. reflexivity.
  - vm_compute. discriminate.
  - constructor.
Defined.

(** A TIME task whose instant is ahead is registered as a periodic job,
    its period being the delay to that instant. *)
Example soon_task_registered :
  jobs (snd (schedule_task posix_host 0 (world_with soon_task)))
  = [{| job_period := 10 * seconds; job_next_run := t0 + 10 * seconds;
        job_task := 0; job_tag := "task_1" |}].
Proof. vm_compute. reflexivity. Qed.

(** The delay passes through a [float] of seconds: beyond some 285 years
    the period is the delay only to within a few microseconds, and at the
    last instant of the calendar the first run would fall outside of it, so
    that nothing is registered. *)
Example far_delay_period :
  let outcome text :=
    let '(ok, w') := schedule_task posix_host 0 (world_with (time_task text)) in
    (ok, map job_period (jobs w')) in
  outcome "2400-01-01T00:00:00.000001" = (Some true, [11860183800000002])
  /\ outcome "9999-12-31T23:59:59.999999" = (Some true, []).
Proof. vm_compute. repeat split. Qed.

(** C4. A TIME task due ten seconds after its registration, under the
    default tick of 60 s: the first tick finds nothing due, the second
    executes the task, and the third executes it again; the job is still
    registered afterwards. *)
Theorem time_task_fires_again :
  let w1 := snd (schedule_task posix_host 0 (world_with soon_task)) in
  let after n := run_ticks posix_host config_default (replicate n all_ok) w1 in
  runs_started (trace (after 1%nat)) = 0%nat
  /\ runs_started (trace (after 2%nat)) = 1%nat
  /\ runs_started (trace (after 3%nat)) = 2%nat
  /\ child_runs (trace (after 3%nat)) = [["echo"; "ok"]; ["echo"; "ok"]]
  /\ length (jobs (after 3%nat)) = 1%nat.
Proof. vm_compute. repeat split. Qed.

(** ** Further properties *)

(** *** Substrings and words *)

Lemma prefix_spec (n h : string) :
  String.prefix n h = true <-> exists post, h = n +:+ post.
Proof.
  revert n. induction h as [|d h IH]; intros [|c n]; cbn.
  - split; [intros _; exists ""; reflexivity|reflexivity].
  - split; [discriminate|intros [post H]; discriminate H].
  - split; [intros _; exists (String d h); reflexivity|reflexivity].
  - destruct (Ascii.ascii_dec c d) as [->|Hne].
    + rewrite IH. split; intros [post H]; exists post; [rewrite H; reflexivity|].
      injection H as H. exact H.
    + split; [discriminate|]. intros [post H]. injection H as H1 H2. congruence.
Qed.

Lemma str_in_spec (n h : string) :
  str_in n h = true <-> exists pre post, h = pre +:+ n +:+ post.
Proof.
  induction h as [|d h IH]; cbn [str_in]; rewrite orb_true_iff, prefix_spec.
  - split.
    + intros [[post H]|H]; [|discriminate]. exists "", post. exact H.
    + intros (pre & post & H). left. destruct pre; [exists post; exact H|discriminate].
  - rewrite IH. split.
    + intros [[post H]|(pre & post & H)].
      * exists "", post. exact H.
      * exists (String d pre), post. cbn. rewrite H. reflexivity.
    + intros (pre & post & H). destruct pre as [|c pre].
      * left. exists post. exact H.
      * right. cbn in H. injection H as _ H. exists pre, post. exact H.
Qed.

Lemma append_assoc (a b c : string) : (a +:+ b) +:+ c = a +:+ (b +:+ c).
Proof.
  induction a as [|x a IH]; [reflexivity|].
  change (String x ((a +:+ b) +:+ c) = String x (a +:+ b +:+ c)).
  f_equal. exact IH.
Qed.

Lemma append_empty_r (a : string) : a +:+ "" = a.
Proof.
  induction a as [|x a IH]; [reflexivity|].
  change (String x (a +:+ "") = String x a). f_equal. exact IH.
Qed.

(** *** Characters *)

Lemma chars_head (s : string) : starts_cont (hd "" (chars s)) = starts_cont s.
Proof.
  destruct s as [|c s]; [reflexivity|]. cbn [chars].
  destruct (chars s) as [|ch more]; [reflexivity|].
  destruct (starts_cont ch); reflexivity.
Qed.

Lemma chars_nil (s : string) : chars s = [] -> s = "".
Proof.
  destruct s as [|c s]; [reflexivity|]. cbn [chars].
  destruct (chars s) as [|ch more]; [discriminate|].
  destruct (starts_cont ch); discriminate.
Qed.

(** A byte joins the character that follows it when that one begins with
    a continuation byte, and is a character of its own otherwise. *)
Lemma chars_cons (c : ascii) (s : string) :
  chars (String c s)
  = if starts_cont s then String c (hd "" (chars s)) :: tl (chars s)
    else String c "" :: chars s.
Proof.
  pose proof (chars_head s) as H. cbn [chars].
  destruct (chars s) as [|ch more]; cbn [hd tl] in *; rewrite <- H.
  - reflexivity.
  - destruct (starts_cont ch); reflexivity.
Qed.

Lemma join_cons (ch : string) (cs : list string) : join (ch :: cs) = ch +:+ join cs.
Proof. reflexivity. Qed.

Lemma join_chars (s : string) : join (chars s) = s.
Proof.
  induction s as [|c s IH]; [reflexivity|]. rewrite chars_cons.
  destruct (starts_cont s) eqn:E.
  - destruct (chars s) as [|ch more] eqn:Hc.
    + apply chars_nil in Hc. subst s. discriminate E.
    + cbn [hd tl]. rewrite join_cons in *.
      change (String c (ch +:+ join more) = String c s). f_equal. exact IH.
  - rewrite join_cons. change (String c (join (chars s)) = String c s).
    f_equal. exact IH.
Qed.

(** Every character is a character of its own. *)
Lemma chars_single (s : string) : Forall (fun ch => chars ch = [ch]) (chars s).
Proof.
  induction s as [|c s IH]; [constructor|]. cbn [chars].
  destruct (chars s) as [|ch more]; [repeat constructor|].
  inversion IH as [|? ? Hch Hmore]; subst.
  destruct (starts_cont ch) eqn:E.
  - constructor; [|exact Hmore]. cbn [chars]. rewrite Hch, E. reflexivity.
  - constructor; [reflexivity|exact IH].
Qed.

Lemma chars_nonempty (s : string) : Forall (fun ch => ch <> "") (chars s).
Proof.
  eapply Forall_impl; [apply chars_single|]. intros ch H ->. discriminate H.
Qed.

(** The characters of two texts put together, the second being a text of
    its own: it does not begin with a continuation byte. *)
Lemma chars_app (a b : string) :
  starts_cont b = false -> chars (a +:+ b) = chars a ++ chars b.
Proof.
  intros Hb. induction a as [|c a IH]; [reflexivity|].
  change (String c a +:+ b) with (String c (a +:+ b)).
  rewrite !chars_cons, IH.
  destruct a as [|d a].
  - change ("" +:+ b) with b. rewrite Hb. reflexivity.
  - change (starts_cont (String d a +:+ b)) with (starts_cont (String d a)).
    destruct (starts_cont (String d a)); [|reflexivity].
    destruct (chars (String d a)) as [|ch more] eqn:Hc; [|reflexivity].
    apply chars_nil in Hc. discriminate Hc.
Qed.

Lemma str_len_cons (c : ascii) (s : string) :
  str_len (String c s) = if starts_cont s then str_len s else S (str_len s).
Proof.
  unfold str_len. rewrite chars_cons. destruct (starts_cont s) eqn:E; [|reflexivity].
  destruct (chars s) as [|ch more] eqn:Hc; [|reflexivity].
  apply chars_nil in Hc. subst s. discriminate E.
Qed.

Lemma str_len_app (a b : string) : (str_len (a +:+ b) <= str_len a + str_len b)%nat.
Proof.
  induction a as [|c a IH]; [change ("" +:+ b) with b; cbn; lia|].
  change (String c a +:+ b) with (String c (a +:+ b)). rewrite !str_len_cons.
  destruct a as [|d a].
  - change ("" +:+ b) with b. cbn [starts_cont]. change (str_len "") with 0%nat.
    destruct (starts_cont b); lia.
  - change (starts_cont (String d a +:+ b)) with (starts_cont (String d a)).
    destruct (starts_cont (String d a)); lia.
Qed.

Lemma str_len_join (cs : list string) :
  Forall (fun ch => (str_len ch <= 1)%nat) cs -> (str_len (join cs) <= length cs)%nat.
Proof.
  induction 1 as [|ch cs Hch _ IH]; [cbn; lia|].
  rewrite join_cons. pose proof (str_len_app ch (join cs)). cbn [length]. lia.
Qed.

(** A slice of [n] characters has at most [n] characters. *)
Lemma str_take_length (n : nat) (s : string) : (str_len (str_take n s) <= n)%nat.
Proof.
  unfold str_take. etransitivity; [apply str_len_join|rewrite length_take; lia].
  apply Forall_take. eapply Forall_impl; [apply chars_single|].
  intros ch H. unfold str_len. rewrite H. cbn. lia.
Qed.

(** *** Words *)

Lemma split_from_nil (tok : string) (cs : list string) :
  Forall (fun ch => ch <> "") cs ->
  split_from tok cs = [] <-> tok = "" /\ forallb is_space cs = true.
Proof.
  intros Hcs. revert tok.
  induction Hcs as [|ch cs Hch _ IH]; intros tok; cbn [split_from forallb].
  - destruct (String.eqb tok "") eqn:E.
    + apply String.eqb_eq in E. intuition.
    + apply String.eqb_neq in E. split; [discriminate|intros [H _]; contradiction].
  - destruct (is_space ch); cbn [andb].
    + destruct (String.eqb tok "") eqn:E.
      * apply String.eqb_eq in E. rewrite IH. intuition.
      * apply String.eqb_neq in E. split; [discriminate|intros [H _]; contradiction].
    + rewrite IH. split; [|intros [_ H]; discriminate H].
      intros [H _]. exfalso. revert H. apply append_nonempty. exact Hch.
Qed.

(** [s.split()] is empty exactly when [s] is made of white space. *)
Lemma split_nil (s : string) : split s = [] <-> all_space s = true.
Proof.
  unfold split, all_space. rewrite (split_from_nil "" _ (chars_nonempty s)).
  intuition.
Qed.

(** A run of characters that are no white space goes to the token. *)
Lemma split_from_run (tok : string) (ws tail : list string) :
  forallb (fun ch => negb (is_space ch)) ws = true ->
  split_from tok (ws ++ tail) = split_from (tok +:+ join ws) tail.
Proof.
  revert tok. induction ws as [|ch ws IH]; intros tok Hns.
  - cbn [app join foldr]. rewrite append_empty_r. reflexivity.
  - cbn [forallb] in Hns. apply andb_true_iff in Hns as [Hch Hns].
    apply negb_true_iff in Hch. cbn [app split_from]. rewrite Hch.
    rewrite IH by exact Hns. rewrite join_cons, append_assoc. reflexivity.
Qed.

(** A word alone is its own first word, and so it is when a blank and a
    text follow it. *)
Lemma split_word (word : string) :
  word <> "" -> no_space word = true -> split word = [word].
Proof.
  intros Hne Hns. unfold split.
  rewrite <- (app_nil_r (chars word)), split_from_run by exact Hns.
  change ("" +:+ join (chars word)) with (join (chars word)).
  rewrite join_chars. cbn [split_from].
  destruct (String.eqb word "") eqn:E; [apply String.eqb_eq in E; contradiction|].
  reflexivity.
Qed.

Lemma split_word_blank (word args : string) :
  word <> "" -> no_space word = true -> starts_cont args = false ->
  exists more, split (word +:+ " " +:+ args) = word :: more.
Proof.
  intros Hne Hns Hargs. unfold split.
  change (word +:+ " " +:+ args) with (word +:+ String " " args).
  rewrite chars_app by reflexivity. rewrite (chars_cons " " args), Hargs.
  rewrite split_from_run by exact Hns.
  change ("" +:+ join (chars word)) with (join (chars word)).
  rewrite join_chars. cbn [split_from].
  change (is_space " ") with true. cbv iota.
  destruct (String.eqb word "") eqn:E; [apply String.eqb_eq in E; contradiction|].
  eexists. reflexivity.
Qed.

(** White space is recognised beyond ASCII: a no-break space and an
    ideographic space separate words and are stripped, and a slice counts
    characters, not bytes. *)
Example split_unicode :
  split ("echo" +:+ utf8 160 +:+ "hola" +:+ utf8 12288 +:+ "mundo")
  = ["echo"; "hola"; "mundo"]
  /\ split (utf8 160 +:+ " ") = []
  /\ strip (utf8 160 +:+ "3" +:+ utf8 8195) = "3"
  /\ str_take 2 "año nuevo" = "añ"
  /\ str_len "año" = 3%nat.
Proof. vm_compute. repeat split. Qed.

(** *** The security check, further *)

(** X1. The check raises IndexError exactly for a command that contains a
    blank, consists of white space only and meets no blocked text. *)
Theorem check_raises_iff (cfg : Config) (command : string) :
  _check_command_security cfg command = Raise IndexError
  <-> blocked_hit (blocked_commands (security cfg)) command = false
      /\ str_in " " command = true
      /\ all_space command = true.
Proof.
  unfold _check_command_security, cmd_base.
  destruct (blocked_hit _ command); [split; [discriminate|intros [H _]; discriminate H]|].
  destruct (str_in " " command).
  - destruct (split command) as [|tok l] eqn:Hs.
    + apply split_nil in Hs. intuition.
    + split.
      * destruct (_ && _); discriminate.
      * intros (_ & _ & Ha). apply split_nil in Ha. congruence.
  - split; [destruct (_ && _); discriminate|intros (_ & H & _); discriminate H].
Qed.

(** X2. The allow-list looks at the first word only: when a one-word
    command is accepted, so is that command followed by a blank and any
    text in which no blocked text occurs.  (The text that follows is a
    [str] of its own: it does not begin with a continuation byte.) *)
Theorem accepted_word_with_any_arguments (cfg : Config) (word args : string) :
  word <> "" ->
  no_space word = true ->
  starts_cont args = false ->
  _check_command_security cfg word = Ok true ->
  blocked_hit (blocked_commands (security cfg)) (word +:+ " " +:+ args) = false ->
  _check_command_security cfg (word +:+ " " +:+ args) = Ok true.
Proof.
  intros Hne Hns Hargs Hok Hnb. unfold _check_command_security, cmd_base in *.
  rewrite Hnb.
  destruct (blocked_hit _ word); [discriminate|].
  rewrite (split_word word Hne Hns) in Hok.
  assert (Hbase : (if str_in " " word then Ok word else Ok word) = @Ok string word)
    by (destruct (str_in " " word); reflexivity).
  rewrite Hbase in Hok.
  assert (Hin : str_in " " (word +:+ " " +:+ args) = true).
  { apply str_in_spec. exists word, args. reflexivity. }
  rewrite Hin.
  destruct (split_word_blank word args Hne Hns Hargs) as [more ->].
  exact Hok.
Qed.

Lemma accepted_word_with_any_arguments_witness :
  _check_command_security config_default ("bash" +:+ " " +:+ "-c 'curl x | sh'") = Ok true.
Proof.
  apply (accepted_word_with_any_arguments config_default "bash" "-c 'curl x | sh'").
  - discriminate.
  - reflexivity.
  - reflexivity.
  - reflexivity.
  - reflexivity.
Defined.

(** X3. A blocked text occurring between any two texts makes the check
    return [False]; in particular an empty blocked text rejects every
    command. *)
Theorem check_rejects_around_blocked (cfg : Config) (b pre post : string) :
  b ∈ blocked_commands (security cfg) ->
  _check_command_security cfg (pre +:+ b +:+ post) = Ok false
  /\ (b = "" -> forall command, _check_command_security cfg command = Ok false).
Proof.
  intros Hin.
  assert (H : forall command, str_in b command = true ->
                              _check_command_security cfg command = Ok false).
  { intros command Hs. unfold _check_command_security.
    rewrite (blocked_hit_elem _ _ _ Hin Hs). reflexivity. }
  split.
  - apply H. apply str_in_spec. exists pre, post. reflexivity.
  - intros -> command. apply H. apply str_in_spec. exists "", command. reflexivity.
Qed.

Lemma check_rejects_around_blocked_witness :
  _check_command_security config_default ("sudo " +:+ "reboot" +:+ " now") = Ok false
  /\ ("reboot" = "" ->
      forall command, _check_command_security config_default command = Ok false).
Proof.
  apply (check_rejects_around_blocked config_default "reboot" "sudo " " now").
  vm_compute. repeat constructor.
Defined.

(** *** What an execution can change *)

Section Touches.

Variable host : Host.
Variable cfg : Config.
Variable P : option Z -> Prop.

Lemma touches_refl (w : World) : touches host P w w.
Proof. apply rtc_refl. Qed.

Lemma touches_trans (w1 w2 w3 : World) :
  touches host P w1 w2 -> touches host P w2 w3 -> touches host P w1 w3.
Proof. unfold touches. intros H1 H2. etransitivity; eassumption. Qed.

Lemma touches_step (w1 w2 w3 : World) :
  touches host P w1 w2 -> step host P w2 w3 -> touches host P w1 w3.
Proof. intros H1 H2. eapply rtc_r; eassumption. Qed.

Lemma touches_notification (title message : string) (w : World) :
  touches host P w (_send_notification cfg title message w).
Proof.
  unfold _send_notification. destruct (notify_kde cfg).
  - apply rtc_once. constructor.
  - apply touches_refl.
Qed.

Lemma save_id_kept (task : Task) (w : World) :
  id (snd (fst (_save_task_to_db host task w))) = Some (fst (fst (_save_task_to_db host task w)))
  /\ (forall i, id task = Some i -> fst (fst (_save_task_to_db host task w)) = i).
Proof.
  unfold _save_task_to_db. destruct (id task) as [i|] eqn:Hid; cbn.
  - split; [exact Hid|]. intros j [= ->]. reflexivity.
  - split; [reflexivity|]. intros j H. discriminate H.
Qed.

Lemma own_id_saved (task : Task) (w : World) :
  own_id P task -> own_id P (snd (fst (_save_task_to_db host task w))).
Proof.
  intros [H1 H2]. destruct (save_id_kept task w) as [Hs Hk].
  unfold own_id. rewrite Hs. split; [|discriminate].
  destruct (id task) as [i|] eqn:Hid.
  - rewrite (Hk i eq_refl). exact H1.
  - apply H2. reflexivity.
Qed.

Ltac save_step task w :=
  let Hs := fresh "Hs" in
  let Ho := fresh "Ho" in
  pose proof (own_id_saved task w) as Ho;
  assert (Hs : step host P w (snd (_save_task_to_db host task w)));
  [ apply step_save | destruct (_save_task_to_db host task w) as [[? ?] ?];
                      cbn [fst snd] in Hs, Ho ].

Lemma finish_run_touches (start_time : Z) (success : bool) (task : Task) (w : World) :
  own_id P task ->
  touches host P w (snd (finish_run host cfg start_time success task w)).
Proof.
  intros Hown. unfold finish_run. cbv zeta.
  match goal with |- context [_save_task_to_db host ?t w] => save_step t w end;
    [exact (proj1 Hown)|].
  match goal with
  | |- context [_log_execution ?a ?b ?c ?d (str_take 1000 ?e) ?f] =>
      pose proof (step_log host P a b c d e f) as Hl;
      set (w2 := _log_execution a b c d (str_take 1000 e) f) in *
  end.
  assert (H2 : touches host P w w2).
  { eapply touches_step; [apply rtc_once; exact Hs|exact Hl]. }
  destruct (success && _)%bool; [|destruct (negb success)]; cbn [snd];
    try exact H2;
    (eapply touches_trans; [exact H2|apply touches_notification]).
Qed.

Lemma on_timeout_touches (task : Task) (w : World) :
  own_id P task -> touches host P w (snd (on_timeout host cfg task w)).
Proof.
  intros Hown. unfold on_timeout. cbv zeta.
  match goal with |- context [_save_task_to_db host ?t w] => save_step t w end;
    [exact (proj1 Hown)|]. cbn [snd].
  eapply touches_trans; [apply rtc_once; exact Hs|apply touches_notification].
Qed.

Lemma on_exception_touches (msg : string) (task : Task) (w : World) :
  own_id P task -> touches host P w (snd (on_exception host msg task w)).
Proof.
  intros Hown. unfold on_exception. cbv zeta.
  match goal with |- context [_save_task_to_db host ?t w] => save_step t w end;
    [exact (proj1 Hown)|]. cbn [snd].
  apply rtc_once. exact Hs.
Qed.

Lemma run_child_touches (env : ExecEnv) (start_time : Z) (argv : list string)
    (shell : bool) (cwd : option string) (task : Task) (w : World) :
  own_id P task ->
  touches host P w
    (snd (run_child host cfg env start_time (EvRun argv shell cwd) task w)).
Proof.
  intros Hown. unfold run_child. cbv zeta.
  set (w2 := set_clock _ (emit _ w)).
  assert (H2 : touches host P w w2).
  { eapply touches_step; [apply rtc_once; apply step_run|apply step_clock]. }
  destruct (proc env) as [rc out err| |msg];
    (eapply touches_trans; [exact H2|]).
  - apply finish_run_touches. exact Hown.
  - apply on_timeout_touches. exact Hown.
  - apply on_exception_touches. exact Hown.
Qed.

Lemma run_notifier_touches (env : ExecEnv) (start_time : Z) (argv : list string)
    (task : Task) (w : World) :
  own_id P task ->
  touches host P w (snd (run_notifier host cfg env start_time argv task w)).
Proof.
  intros Hown. unfold run_notifier. cbv zeta.
  set (w2 := set_clock _ (emit _ w)).
  assert (H2 : touches host P w w2).
  { eapply touches_step; [apply rtc_once; apply step_run|apply step_clock]. }
  destruct (notify_error env) as [msg|];
    (eapply touches_trans; [exact H2|]).
  - apply on_exception_touches. exact Hown.
  - apply finish_run_touches. exact Hown.
Qed.

(** Every execution is a sequence of elementary changes, its saves being
    under the id of the task. *)
Lemma execute_touches (env : ExecEnv) (task : Task) (w : World) :
  own_id P task ->
  touches host P w (snd (_execute_task host cfg env task w)).
Proof.
  intros Hown. unfold _execute_task. cbv zeta.
  destruct (negb (enabled task)); [apply touches_refl|].
  destruct (_check_command_security cfg (command task)) as [[|]|e];
    [| |apply touches_refl].
  - match goal with |- context [_save_task_to_db host ?t w] => save_step t w end;
      [exact (proj1 Hown)|].
    specialize (Ho Hown).
    eapply touches_trans; [apply rtc_once; exact Hs|].
    destruct (task_type _).
    + destruct (arguments _); apply run_child_touches; exact Ho.
    + apply run_child_touches. exact Ho.
    + destruct (String.eqb _ "kdialog"); [apply run_notifier_touches; exact Ho|].
      destruct (String.eqb _ "notify-send"); [apply run_notifier_touches; exact Ho|].
      apply finish_run_touches. exact Ho.
    + eapply touches_trans; [apply touches_notification|].
      apply finish_run_touches. exact Ho.
  - match goal with |- context [_save_task_to_db host ?t w] => save_step t w end;
      [exact (proj1 Hown)|]. cbn [snd].
    apply rtc_once. exact Hs.
Qed.

End Touches.

(** *** Invariants of the store *)

Section StoreInvariants.

Variable host : Host.
Variable P : option Z -> Prop.

(** The log only grows, by rows of bounded output. *)
Lemma touches_logs (w w' : World) :
  touches host P w w' ->
  exists rows,
    execution_logs w' = execution_logs w ++ rows
    /\ Forall log_output_bounded rows.
Proof.
  intros H. induction H as [w|w w1 w' Hstep _ IH].
  - exists []. rewrite app_nil_r. split; [reflexivity|constructor].
  - destruct IH as (rows & Hrows & Hb).
    assert (Hs : exists rows1, execution_logs w1 = execution_logs w ++ rows1
                               /\ Forall log_output_bounded rows1).
    { destruct Hstep as [argv shell cwd w|v w|t w Hp|tid time d rc out w|h w|j w];
        try (exists []; rewrite app_nil_r; split; [reflexivity|constructor]).
      - exists []. rewrite app_nil_r, save_logs. split; [reflexivity|constructor].
      - unfold _log_execution. destruct tid as [i|]; cbn -[str_take].
        + eexists [_]. split; [reflexivity|]. constructor; [|constructor].
          unfold log_output_bounded. cbn -[str_take]. apply str_take_length.
        + exists []. rewrite app_nil_r. split; [reflexivity|constructor]. }
    destruct Hs as (rows1 & Hrows1 & Hb1).
    exists (rows1 ++ rows). rewrite Hrows, Hrows1, app_assoc.
    split; [reflexivity|]. apply Forall_app. split; assumption.
Qed.

Lemma update_fixed_columns (i : Z) (t : Task) (rows : list TaskRow) :
  map fixed_columns (update_where_id i t rows) = map fixed_columns rows.
Proof.
  unfold update_where_id. rewrite map_map. apply map_ext.
  intros row. destruct (col_id row =? i); reflexivity.
Qed.

(** Rows are never removed, their fixed columns never rewritten, and the
    rows added carry no result. *)
Lemma touches_fixed_columns (w w' : World) :
  touches host P w w' ->
  exists added,
    map fixed_columns (tasks w') = map fixed_columns (tasks w ++ added)
    /\ Forall no_result added.
Proof.
  intros H. induction H as [w|w w1 w' Hstep _ IH].
  - exists []. rewrite app_nil_r. split; [reflexivity|constructor].
  - destruct IH as (added & Hadd & Hn).
    assert (Hs : exists added1,
               map fixed_columns (tasks w1) = map fixed_columns (tasks w ++ added1)
               /\ Forall no_result added1).
    { destruct Hstep as [argv shell cwd w|v w|t w Hp|tid time d rc out w|h w|j w];
        try (exists []; rewrite app_nil_r; split; [reflexivity|constructor]).
      - unfold _save_task_to_db. destruct (id t) as [i|]; cbn [snd tasks set_tasks emit].
        + exists []. rewrite app_nil_r, update_fixed_columns.
          split; [reflexivity|constructor].
        + eexists [_]. split; [reflexivity|]. repeat constructor.
      - exists []. rewrite app_nil_r. unfold _log_execution.
        destruct tid; split; try reflexivity; constructor. }
    destruct Hs as (added1 & Hadd1 & Hn1).
    exists (added1 ++ added). rewrite Hadd, !map_app, Hadd1, !map_app, app_assoc.
    split; [reflexivity|]. apply Forall_app. split; assumption.
Qed.

Lemma step_tasks_same (w w1 : World) :
  step host P w w1 ->
  (exists t, w1 = snd (_save_task_to_db host t w) /\ P (id t))
  \/ (tasks w1 = tasks w /\ tasks_seq w1 = tasks_seq w
      /\ saved_snapshots (trace w1) = saved_snapshots (trace w)).
Proof.
  intros [argv shell cwd w0|v w0|t w0 Hp|tid time d rc out w0|h w0|j w0];
    try (right; cbn; repeat split; try reflexivity;
         rewrite saved_snapshots_app; cbn; apply app_nil_r).
  - left. exists t. split; [reflexivity|exact Hp].
  - right. unfold _log_execution. destruct tid; cbn; repeat split;
      rewrite saved_snapshots_app; cbn; apply app_nil_r.
Qed.

(** The primary key stays a key. *)
Lemma touches_ids_unique (w w' : World) :
  touches host P w w' -> ids_unique w -> ids_unique w'.
Proof.
  intros H. induction H as [w|w w1 w' Hstep _ IH]; [auto|].
  intros Hu. apply IH. clear IH.
  destruct (step_tasks_same _ _ Hstep) as [(t & -> & _)|(Ht & _)];
    [|unfold ids_unique; rewrite Ht; exact Hu].
  unfold ids_unique, _save_task_to_db in *.
  destruct (id t) as [i|]; cbn [snd tasks tasks_seq set_tasks emit].
  - replace (map col_id (update_where_id i t (tasks w))) with (map col_id (tasks w));
      [exact Hu|].
    unfold update_where_id. rewrite map_map. apply map_ext.
    intros row. destruct (col_id row =? i); reflexivity.
  - rewrite map_app. cbn. apply NoDup_app. split; [exact Hu|]. split.
    + intros x Hx Hin. apply list_elem_of_singleton in Hin. subst x.
      pose proof (next_rowid_fresh (tasks_seq w) _ _ Hx). lia.
    + apply NoDup_singleton.
Qed.

Lemma touches_never_executed (w w' : World) :
  touches host P w w' -> never_executed w -> never_executed w'.
Proof.
  intros H Hn. destruct (touches_fixed_columns w w' H) as (added & Hcols & Hadd).
  unfold never_executed in *.
  assert (Hall : Forall (fun row => col_executed_at row = None) (tasks w ++ added)).
  { apply Forall_app. split; [exact Hn|].
    eapply Forall_impl; [exact Hadd|]. intros row (Hr & _). exact Hr. }
  clear -Hcols Hall. revert Hcols Hall.
  generalize (tasks w ++ added). generalize (tasks w').
  induction l as [|r l IH]; intros [|r0 l0] Hcols Hall; try discriminate; constructor.
  - injection Hcols as Hc _. inversion Hall as [|? ? Hr0 _]; subst.
    unfold fixed_columns in Hc. congruence.
  - injection Hcols as _ Hc. inversion Hall; subst. eapply IH; eassumption.
Qed.

End StoreInvariants.

(** *** Saves of a stored task *)

Lemma select_update (i : Z) (t : Task) (rows : list TaskRow) :
  select_by_id i (update_where_id i t rows)
  = option_map (updated_row t) (select_by_id i rows).
Proof.
  unfold select_by_id, update_where_id.
  induction rows as [|row rows IH]; [reflexivity|]. cbn.
  destruct (col_id row =? i) eqn:E; cbn; rewrite E; [reflexivity|exact IH].
Qed.

Lemma touches_replay (host : Host) (i : Z) (w w' : World) :
  touches host (fun o => o = Some i) w w' ->
  exists saved,
    saved_snapshots (trace w') = saved_snapshots (trace w) ++ saved
    /\ tasks w' = replay_updates i saved (tasks w).
Proof.
  intros H. induction H as [w|w w1 w' Hstep _ IH].
  - exists []. rewrite app_nil_r. split; reflexivity.
  - destruct IH as (saved & Hsn & Ht).
    destruct (step_tasks_same _ _ _ _ Hstep) as [(t & -> & Hid)|(Ht1 & _ & Hs1)].
    + exists (t :: saved). rewrite Hsn, Ht, save_trace, saved_snapshots_app.
      cbn [saved_snapshots]. rewrite <- app_assoc. split; [reflexivity|].
      unfold _save_task_to_db. rewrite Hid. reflexivity.
    + exists saved. rewrite Hsn, Ht, Hs1, Ht1. split; reflexivity.
Qed.

Lemma same_but_refl (i : Z) (rows : list TaskRow) : Forall2 (same_but i) rows rows.
Proof. induction rows; constructor; [split; reflexivity|assumption]. Qed.

Lemma same_but_trans (i : Z) (a b c : list TaskRow) :
  Forall2 (same_but i) a b -> Forall2 (same_but i) b c -> Forall2 (same_but i) a c.
Proof.
  intros H. revert c. induction H as [|r m a b [H1 H2] _ IH]; intros c Hc.
  - inversion Hc. constructor.
  - inversion Hc as [|? f ? c' [H3 H4] Hc']; subst. constructor; [|apply IH; exact Hc'].
    split; [congruence|]. intros Hne. rewrite H4, H2; auto.
    rewrite H2 by exact Hne. exact Hne.
Qed.

Lemma update_same_but (i : Z) (t : Task) (rows : list TaskRow) :
  Forall2 (same_but i) rows (update_where_id i t rows).
Proof.
  unfold update_where_id. induction rows as [|r rows IH]; cbn; constructor; [|exact IH].
  destruct (col_id r =? i) eqn:E.
  - split; [reflexivity|]. apply Z.eqb_eq in E. intros Hne. contradiction.
  - split; reflexivity.
Qed.

Lemma replay_rows (i : Z) (saved : list Task) (rows : list TaskRow) :
  Forall2 (same_but i) rows (replay_updates i saved rows).
Proof.
  revert rows. induction saved as [|t saved IH]; intros rows; cbn.
  - apply same_but_refl.
  - eapply same_but_trans; [apply update_same_but|apply IH].
Qed.

Section SchedulerTouches.

Variable host : Host.
Variable cfg : Config.

Lemma own_id_any (task : Task) : own_id any_id task.
Proof. split; [exact I|intros _ i; exact I]. Qed.

Lemma run_job_touches (env : ExecEnv) (k : nat) (w : World) :
  touches host any_id w (snd (run_job host cfg env k w)).
Proof.
  unfold run_job. destruct (jobs w !! k) as [j|]; [|apply touches_refl].
  destruct (heap w !! job_task j) as [task|]; [|apply touches_refl].
  pose proof (execute_touches host cfg any_id env task w (own_id_any task)) as H.
  destruct (_execute_task host cfg env task w) as [[res task'] w1]. cbn [snd] in H.
  destruct res as [b|e]; cbn [snd].
  - eapply touches_step; [eapply touches_step; [exact H|apply step_heap]|apply step_jobs].
  - eapply touches_step; [exact H|apply step_heap].
Qed.

Lemma run_all_touches (envs : nat -> ExecEnv) (ks : list (nat * Job)) (n : nat)
    (w : World) :
  touches host any_id w (snd (run_all host cfg envs n ks w)).
Proof.
  revert n w. induction ks as [|[k j] ks IH]; intros n w; cbn; [apply touches_refl|].
  pose proof (run_job_touches (envs n) k w) as H.
  destruct (run_job host cfg (envs n) k w) as [[u|e] w1]; cbn [snd] in *; [|exact H].
  eapply touches_trans; [exact H|apply IH].
Qed.

Lemma run_ticks_touches (ticks : list (nat -> ExecEnv)) (w : World) :
  touches host any_id w (run_ticks host cfg ticks w).
Proof.
  revert w. induction ticks as [|envs ticks IH]; intros w; cbn; [apply touches_refl|].
  eapply touches_trans; [|apply IH].
  unfold scheduler_tick, run_pending, sleep.
  eapply touches_step; [apply run_all_touches|apply step_clock].
Qed.

Lemma every_do_touches (period : Z) (r : nat) (tag : string) (w w' : World) :
  registered (every_do period r tag w) w = Some w' -> touches host any_id w w'.
Proof.
  unfold every_do.
  repeat match goal with
         | |- context [if ?b then _ else _] => destruct b
         end; cbn [registered]; intros [= <-];
    try apply touches_refl. apply rtc_once. apply step_jobs.
Qed.

Lemma time_trigger_touches (r : nat) (task : Task) (w w' : World) :
  _schedule_time_trigger host r task w = Some w' -> touches host any_id w w'.
Proof.
  unfold _schedule_time_trigger.
  repeat match goal with
         | |- context [match ?x with _ => _ end] => destruct x
         end; try (intros [= <-]; apply touches_refl). apply every_do_touches.
Qed.

Lemma interval_trigger_touches (r : nat) (task : Task) (w w' : World) :
  _schedule_interval_trigger r task w = Some w' -> touches host any_id w w'.
Proof.
  unfold _schedule_interval_trigger, every_unit.
  repeat match goal with
         | |- context [match ?x with _ => _ end] => destruct x
         end; try (intros [= <-]; apply touches_refl); apply every_do_touches.
Qed.

Lemma schedule_task_touches (r : nat) (w : World) :
  touches host any_id w (snd (schedule_task host r w)).
Proof.
  unfold schedule_task. destruct (heap w !! r) as [task|]; [|apply touches_refl].
  assert (Hs : step host any_id w (snd (_save_task_to_db host task w)))
    by (apply step_save; exact I).
  destruct (_save_task_to_db host task w) as [[i t1] w1]. cbn [snd] in Hs.
  destruct (i =? -1); cbn [snd].
  - eapply touches_step; [apply rtc_once; exact Hs|apply step_heap].
  - set (w2 := set_heap _ w1).
    assert (H2 : touches host any_id w w2)
      by (eapply touches_step; [apply rtc_once; exact Hs|apply step_heap]).
    destruct (trigger_type _); cbn [snd]; try exact H2.
    + destruct (_schedule_time_trigger host r _ w2) as [w3|] eqn:E; cbn [snd];
        [|exact H2].
      eapply touches_trans; [exact H2|]. eapply time_trigger_touches. exact E.
    + destruct (_schedule_interval_trigger r _ w2) as [w3|] eqn:E; cbn [snd];
        [|exact H2].
      eapply touches_trans; [exact H2|]. eapply interval_trigger_touches. exact E.
Qed.

End SchedulerTouches.

(** *** Properties of the store under execution *)

Lemma execute_log_length (host : Host) (cfg : Config) (env : ExecEnv)
    (task : Task) (w : World) :
  (length (execution_logs (snd (_execute_task host cfg env task w)))
   <= S (length (execution_logs w)))%nat.
Proof.
  destruct (enabled task) eqn:Hen.
  2:{ unfold _execute_task. rewrite Hen. cbn. lia. }
  destruct (_check_command_security cfg (command task)) as [[|]|e] eqn:Hsec.
  - destruct (execute_allowed host cfg env task w Hen Hsec)
      as (i & res & last & logged & _ & _ & _ & _ & Hlen).
    rewrite Hlen. destruct logged; lia.
  - destruct (execute_denied host cfg env task w Hen Hsec) as (_ & _ & _ & Hl).
    rewrite Hl. lia.
  - unfold _execute_task. rewrite Hen, Hsec. cbn. lia.
Qed.

(** X4. The execution log is append-only: an execution keeps every row of
    [execution_logs] and adds at most one, any number of scheduler ticks
    keeps every row, and each added row has an output of at most 1000
    characters. *)
Theorem execution_log_append_only (host : Host) (cfg : Config) (env : ExecEnv)
    (task : Task) (ticks : list (nat -> ExecEnv)) (w : World) :
  (exists rows,
     execution_logs (snd (_execute_task host cfg env task w))
     = execution_logs w ++ rows
     /\ (length rows <= 1)%nat /\ Forall log_output_bounded rows)
  /\ (exists rows,
        execution_logs (run_ticks host cfg ticks w) = execution_logs w ++ rows
        /\ Forall log_output_bounded rows).
Proof.
  split.
  - destruct (touches_logs host any_id w _
                (execute_touches host cfg any_id env task w (own_id_any task)))
      as (rows & Hrows & Hb).
    exists rows. split; [exact Hrows|]. split; [|exact Hb].
    pose proof (execute_log_length host cfg env task w) as Hlen.
    rewrite Hrows, length_app in Hlen. lia.
  - apply (touches_logs host any_id). apply run_ticks_touches.
Qed.

(** X5. No execution, registration or tick removes a task row or rewrites
    its id, [created_at], [executed_at], [result_code] or [output]; the rows
    added have no result. *)
Theorem task_rows_fixed_columns (host : Host) (cfg : Config) (env : ExecEnv)
    (task : Task) (r : nat) (ticks : list (nat -> ExecEnv)) (w : World) :
  let kept w' :=
    exists added,
      map fixed_columns (tasks w') = map fixed_columns (tasks w ++ added)
      /\ Forall no_result added in
  kept (snd (_execute_task host cfg env task w))
  /\ kept (snd (schedule_task host r w))
  /\ kept (run_ticks host cfg ticks w).
Proof.
  cbv zeta. split; [|split]; apply (touches_fixed_columns host any_id).
  - apply execute_touches, own_id_any.
  - apply schedule_task_touches.
  - apply run_ticks_touches.
Qed.

(** X6. If the ids of the stored tasks are distinct, they are still
    distinct after an execution, a registration or any number of ticks. *)
Theorem task_ids_stay_unique (host : Host) (cfg : Config) (env : ExecEnv)
    (task : Task) (r : nat) (ticks : list (nat -> ExecEnv)) (w : World) :
  ids_unique w ->
  ids_unique (snd (_execute_task host cfg env task w))
  /\ ids_unique (snd (schedule_task host r w))
  /\ ids_unique (run_ticks host cfg ticks w).
Proof.
  intros Hu. split; [|split];
    refine (touches_ids_unique host any_id _ _ _ Hu).
  - apply execute_touches, own_id_any.
  - apply schedule_task_touches.
  - apply run_ticks_touches.
Qed.

Lemma task_ids_stay_unique_witness :
  ids_unique (snd (_execute_task posix_host config_default (env_exit 0 "ok")
                     echo_task aged_world))
  /\ ids_unique (snd (schedule_task posix_host 0 aged_world))
  /\ ids_unique (run_ticks posix_host config_default [all_ok] aged_world).
Proof.
  apply (task_ids_stay_unique posix_host config_default (env_exit 0 "ok")
           echo_task 0 [all_ok] aged_world).
  unfold ids_unique. cbn.
  apply NoDup_cons. split; [|apply NoDup_singleton].
  rewrite list_elem_of_singleton. discriminate.
Defined.

(** X7. The execution of a stored task changes no row but its own: the
    rows are as many as before, each keeps its fixed columns, and a row of
    another id is left whole. *)
Theorem execution_updates_own_row (host : Host) (cfg : Config) (env : ExecEnv)
    (task : Task) (i : Z) (w : World) :
  id task = Some i ->
  Forall2 (same_but i) (tasks w) (tasks (snd (_execute_task host cfg env task w))).
Proof.
  intros Hid.
  assert (Hown : own_id (fun o => o = Some i) task).
  { split; [exact Hid|]. intros H. congruence. }
  destruct (touches_replay host i w _
              (execute_touches host cfg _ env task w Hown)) as (saved & _ & ->).
  apply replay_rows.
Qed.

Lemma execution_updates_own_row_witness :
  Forall2 (same_but 1) (tasks aged_world)
    (tasks (snd (_execute_task posix_host config_default (env_exit 0 "ok")
                   (set_id (Some 1) echo_task) aged_world))).
Proof.
  apply (execution_updates_own_row posix_host config_default (env_exit 0 "ok")
           (set_id (Some 1) echo_task) 1 aged_world).
  reflexivity.
Defined.

Lemma keep_all {A} (old : A -> bool) (rows : list A) :
  Forall (fun row => old row = false) rows -> keep old rows = rows.
Proof.
  unfold keep. induction 1 as [|row rows Hrow _ IH]; [reflexivity|].
  rewrite filter_cons, Hrow. cbn. rewrite decide_True by exact I.
  rewrite IH. reflexivity.
Qed.

(** X8. The retention sweep never deletes a task that only the scheduler
    wrote: starting from a store where no task row has an [executed_at],
    after a registration and any number of ticks no row has one, and the
    sweep leaves [tasks] as it is. *)
Theorem sweep_keeps_scheduler_tasks (host : Host) (cfg : Config) (r : nat)
    (ticks : list (nat -> ExecEnv)) (w : World) :
  never_executed w ->
  let w' := run_ticks host cfg ticks (snd (schedule_task host r w)) in
  never_executed w'
  /\ tasks (snd (cleanup_old_tasks host cfg w')) = tasks w'.
Proof.
  intros Hn w'.
  assert (Hn' : never_executed w').
  { refine (touches_never_executed host any_id _ _ _ Hn). subst w'.
    eapply touches_trans; [apply schedule_task_touches|apply run_ticks_touches]. }
  split; [exact Hn'|].
  unfold cleanup_old_tasks.
  destruct (cleanup_cutoff host cfg w') as [cutoff|]; [|reflexivity].
  cbn [snd tasks set_tasks set_execution_logs].
  apply keep_all. eapply Forall_impl; [exact Hn'|].
  intros row Hrow. unfold task_is_old. rewrite Hrow. apply andb_false_r.
Qed.

Lemma sweep_keeps_scheduler_tasks_witness :
  let w' := run_ticks posix_host config_default [all_ok; all_ok; all_ok]
              (snd (schedule_task posix_host 0 (world_with soon_task))) in
  never_executed w'
  /\ tasks (snd (cleanup_old_tasks posix_host config_default w')) = tasks w'.
Proof.
  apply (sweep_keeps_scheduler_tasks posix_host config_default 0
           [all_ok; all_ok; all_ok] (world_with soon_task)).
  constructor.
Defined.





(** *** The commands an execution runs *)

Section Runs.

Variable host : Host.
Variable cfg : Config.

Lemma save_runs (task : Task) (w : World) :
  child_runs (trace (snd (_save_task_to_db host task w))) = child_runs (trace w).
Proof. rewrite save_trace, child_runs_app. cbn. apply app_nil_r. Qed.

Lemma log_execution_runs (tid : option Z) (time : string) (d rc : Z) (out : string)
    (w : World) :
  child_runs (trace (_log_execution tid time d rc out w)) = child_runs (trace w).
Proof.
  unfold _log_execution. destruct tid; cbn; rewrite child_runs_app; apply app_nil_r.
Qed.

Lemma notification_runs (title message : string) (w : World) :
  exists notice,
    child_runs (trace (_send_notification cfg title message w))
    = child_runs (trace w) ++ notice
    /\ length notice = if notify_kde cfg then 1%nat else 0%nat.
Proof.
  unfold _send_notification. destruct (notify_kde cfg).
  - eexists [_]. cbn. rewrite child_runs_app. split; reflexivity.
  - exists []. rewrite app_nil_r. split; reflexivity.
Qed.

Ltac save_runs_step :=
  match goal with
  | |- context [_save_task_to_db host ?t ?w] =>
      let H := fresh "Hsr" in
      let Hs := fresh "Hs" in
      let i := fresh "i" in
      let t1 := fresh "t" in
      let w1 := fresh "w" in
      pose proof (save_runs t w) as H;
      destruct (_save_task_to_db host t w) as [[i t1] w1] eqn:Hs;
      apply save_inv in Hs as (-> & _ & _ & _); cbn [fst snd] in H
  end.

Lemma finish_run_runs (start_time : Z) (success : bool) (task : Task) (w : World) :
  exists notice,
    child_runs (trace (snd (finish_run host cfg start_time success task w)))
    = child_runs (trace w) ++ notice
    /\ length notice
       = if notify_kde cfg && (negb success || notify_on_completion task)
         then 1%nat else 0%nat.
Proof.
  unfold finish_run. cbv zeta. save_runs_step.
  match goal with
  | |- context [_log_execution ?a ?b ?c ?d ?e ?f] =>
      pose proof (log_execution_runs a b c d e f) as Hl;
      set (w2 := _log_execution a b c d e f) in *
  end.
  cbn [notify_on_completion set_id set_executed_at set_status].
  destruct success; cbn [andb negb orb snd].
  - destruct (notify_on_completion task); cbn [snd].
    + match goal with
      | |- context [_send_notification cfg ?a ?b w2] =>
          destruct (notification_runs a b w2) as (notice & Hn & Hlen)
      end.
      exists notice. rewrite Hn, Hl, Hsr, andb_true_r. split; [reflexivity|exact Hlen].
    + exists []. rewrite app_nil_r, Hl, Hsr, andb_false_r. split; reflexivity.
  - match goal with
    | |- context [_send_notification cfg ?a ?b w2] =>
        destruct (notification_runs a b w2) as (notice & Hn & Hlen)
    end.
    exists notice. rewrite Hn, Hl, Hsr, andb_true_r. split; [reflexivity|exact Hlen].
Qed.

Lemma on_timeout_runs (task : Task) (w : World) :
  exists notice,
    child_runs (trace (snd (on_timeout host cfg task w))) = child_runs (trace w) ++ notice
    /\ length notice = if notify_kde cfg then 1%nat else 0%nat.
Proof.
  unfold on_timeout. cbv zeta. save_runs_step. cbn [snd].
  match goal with
  | |- context [_send_notification cfg ?a ?b ?w2] =>
      destruct (notification_runs a b w2) as (notice & Hn & Hlen)
  end.
  exists notice. rewrite Hn, Hsr. split; [reflexivity|exact Hlen].
Qed.

Lemma on_exception_runs (msg : string) (task : Task) (w : World) :
  child_runs (trace (snd (on_exception host msg task w))) = child_runs (trace w).
Proof. unfold on_exception. cbv zeta. save_runs_step. exact Hsr. Qed.

(** The pop-ups that follow the action: one if the end is announced and
    [notify_kde] is set. *)
Lemma run_child_runs (env : ExecEnv) (start_time : Z) (argv : list string)
    (shell : bool) (cwd : option string) (task : Task) (w : World) :
  task_type task = COMMAND \/ task_type task = SCRIPT ->
  exists notice,
    child_runs (trace (snd (run_child host cfg env start_time
                              (EvRun argv shell cwd) task w)))
    = child_runs (trace w) ++ [argv] ++ notice
    /\ length notice = if notify_kde cfg && announced env task then 1%nat else 0%nat.
Proof.
  intros Hty. unfold run_child. cbv zeta.
  set (w2 := set_clock _ (emit _ w)).
  assert (H2 : child_runs (trace w2) = child_runs (trace w) ++ [argv]).
  { subst w2. cbn. rewrite child_runs_app. reflexivity. }
  assert (Han : announced env task
                = match proc env with
                  | Exited rc _ _ => if rc =? 0 then notify_on_completion task else true
                  | TimeoutExpired => true
                  | RunError _ => false
                  end).
  { unfold announced. destruct Hty as [-> | ->]; reflexivity. }
  rewrite Han. destruct (proc env) as [rc out err| |msg].
  - destruct (finish_run_runs start_time (rc =? 0)
                (set_output (out +:+ err) (set_result_code rc task)) w2)
      as (notice & Hn & Hlen).
    exists notice. rewrite Hn, H2, <- app_assoc. split; [reflexivity|].
    rewrite Hlen. cbn [notify_on_completion set_output set_result_code].
    destruct (rc =? 0); reflexivity.
  - destruct (on_timeout_runs task w2) as (notice & Hn & Hlen).
    exists notice. rewrite Hn, H2, <- app_assoc, andb_true_r. split; [reflexivity|exact Hlen].
  - exists []. rewrite on_exception_runs, H2, andb_false_r. split; reflexivity.
Qed.

Lemma run_notifier_runs (env : ExecEnv) (start_time : Z) (argv : list string)
    (task : Task) (w : World) :
  exists notice,
    child_runs (trace (snd (run_notifier host cfg env start_time argv task w)))
    = child_runs (trace w) ++ [argv] ++ notice
    /\ length notice
       = if notify_kde cfg
            && match notify_error env with
               | None => notify_on_completion task
               | Some _ => false
               end
         then 1%nat else 0%nat.
Proof.
  unfold run_notifier. cbv zeta.
  set (w2 := set_clock _ (emit _ w)).
  assert (H2 : child_runs (trace w2) = child_runs (trace w) ++ [argv]).
  { subst w2. cbn. rewrite child_runs_app. reflexivity. }
  destruct (notify_error env) as [msg|].
  - exists []. rewrite on_exception_runs, H2, andb_false_r. split; reflexivity.
  - destruct (finish_run_runs start_time true
                (set_output "Notificación enviada" (set_result_code 0 task)) w2)
      as (notice & Hn & Hlen).
    exists notice. rewrite Hn, H2, <- app_assoc. split; [reflexivity|exact Hlen].
Qed.

(** The commands run by an execution that passed the check: those of the
    action, then at most one pop-up. *)
Lemma execute_runs (env : ExecEnv) (task : Task) (w : World) :
  enabled task = true ->
  _check_command_security cfg (command task) = Ok true ->
  exists notice,
    child_runs (trace (snd (_execute_task host cfg env task w)))
    = child_runs (trace w) ++ action_runs host cfg task ++ notice
    /\ length notice = if notify_kde cfg && announced env task then 1%nat else 0%nat.
Proof.
  intros Hen Hsec. unfold _execute_task. rewrite Hen, Hsec. cbn [negb]. cbv zeta.
  save_runs_step. rewrite <- Hsr.
  set (t1 := set_id (Some i) (set_status RUNNING task)).
  assert (Hact : action_runs host cfg task = action_runs host cfg t1) by reflexivity.
  assert (Han : announced env task = announced env t1) by reflexivity.
  rewrite Hact, Han. clearbody t1. clear Hact Han Hsr.
  unfold action_runs. cbv zeta. destruct (task_type t1) eqn:Hty.
  - destruct (arguments t1); apply run_child_runs; auto.
  - apply run_child_runs; auto.
  - unfold announced. rewrite Hty.
    destruct (String.eqb (command t1) "kdialog"); cbn [orb];
      [apply run_notifier_runs|].
    destruct (String.eqb (command t1) "notify-send"); [apply run_notifier_runs|].
    destruct (finish_run_runs (clock w0) true
                (set_output "Notificación enviada" (set_result_code 0 t1)) w0)
      as (notice & Hn & Hlen).
    exists notice. split; [exact Hn|exact Hlen].
  - unfold announced. rewrite Hty.
    match goal with
    | |- context [finish_run host cfg ?st true ?t ?w2] =>
        destruct (finish_run_runs st true t w2) as (notice & Hn & Hlen)
    end.
    exists notice. rewrite Hn. split; [|exact Hlen].
    unfold _send_notification. destruct (notify_kde cfg); cbn.
    + rewrite child_runs_app, <- app_assoc. reflexivity.
    + reflexivity.
Qed.

Lemma action_result_status (env : ExecEnv) (task : Task) (now : Z)
    (res : bool) (last : Task) (logged : bool) :
  action_result host env task now = (res, last, logged) ->
  status last = if res then COMPLETED else FAILED.
Proof.
  unfold action_result, child_result.
  destruct (task_type task); try destruct (proc env) as [rc ? ?| |?];
    try destruct (rc =? 0); try destruct (_ || _)%bool;
    try destruct (notify_error env);
    intros H; injection H as <- <- <-; reflexivity.
Qed.

End Runs.

(** X10. An enabled task whose command passes the check is executed
    whatever its status, CANCELLED and COMPLETED included: exactly one
    execution is begun, the task ends COMPLETED when [_execute_task] returns
    [True] and FAILED when it returns [False]. *)
Theorem execution_ignores_status (host : Host) (cfg : Config) (env : ExecEnv)
    (task : Task) (w : World) :
  enabled task = true ->
  _check_command_security cfg (command task) = Ok true ->
  let '(res, task', w') := _execute_task host cfg env task w in
  exists b,
    res = Ok b
    /\ status task' = (if b then COMPLETED else FAILED)
    /\ runs_started (trace w') = S (runs_started (trace w)).
Proof.
  intros Hen Hsec.
  destruct (execute_allowed host cfg env task w Hen Hsec)
    as (i & res & last & logged & Hact & Hr & [j Hj] & Hsn & _).
  apply action_result_status in Hact.
  destruct (_execute_task host cfg env task w) as [[r t'] w']. cbn [fst snd] in *.
  subst r t'. exists res. split; [reflexivity|]. split; [exact Hact|].
  unfold runs_started. rewrite Hsn, filter_app, length_app.
  rewrite filter_cons, filter_cons, filter_nil. cbn [status set_status].
  rewrite decide_True by (apply bool_decide_pack; reflexivity).
  rewrite decide_False; [cbn; lia|].
  intros H. apply bool_decide_unpack in H. rewrite Hact in H. destruct res; discriminate.
Qed.

Lemma execution_ignores_status_witness :
  let '(res, task', w') :=
    _execute_task posix_host config_default (env_exit 0 "") wipe_task (new_world t0) in
  exists b,
    res = Ok b
    /\ status task' = (if b then COMPLETED else FAILED)
    /\ runs_started (trace w') = S (runs_started (trace (new_world t0))).
Proof.
  apply (execution_ignores_status posix_host config_default (env_exit 0 "")
           wipe_task (new_world t0)); reflexivity.
Defined.

(** X11. With [notify_kde] unset, a REMINDER task whose text passes the
    check ends COMPLETED with output "Recordatorio mostrado" although no
    command at all is run: nothing is shown. *)
Theorem reminder_reported_but_not_shown (host : Host) (cfg : Config)
    (env : ExecEnv) (task : Task) (w : World) :
  enabled task = true ->
  _check_command_security cfg (command task) = Ok true ->
  task_type task = REMINDER ->
  notify_kde cfg = false ->
  let '(res, task', w') := _execute_task host cfg env task w in
  res = Ok true /\ status task' = COMPLETED
  /\ output task' = "Recordatorio mostrado"
  /\ child_runs (trace w') = child_runs (trace w).
Proof.
  intros Hen Hsec Hty Hnk.
  destruct (execute_allowed host cfg env task w Hen Hsec)
    as (i & res & last & logged & Hact & Hr & [j Hj] & _ & _).
  destruct (execute_runs host cfg env task w Hen Hsec) as (notice & Hruns & Hlen).
  unfold action_result in Hact. cbn [task_type set_id set_status] in Hact.
  rewrite Hty in Hact. injection Hact as <- <- <-.
  unfold action_runs in Hruns. rewrite Hty, Hnk in Hruns.
  rewrite Hnk in Hlen. cbn in Hlen. destruct notice; [|discriminate].
  destruct (_execute_task host cfg env task w) as [[r t'] w']. cbn [fst snd] in *.
  subst r t'. rewrite Hruns, !app_nil_r. repeat split.
Qed.

Lemma reminder_reported_but_not_shown_witness :
  let '(res, task', w') :=
    _execute_task posix_host quiet_config (env_exit 0 "") reminder_task (new_world t0) in
  res = Ok true /\ status task' = COMPLETED
  /\ output task' = "Recordatorio mostrado"
  /\ child_runs (trace w') = child_runs (trace (new_world t0)).
Proof.
  apply (reminder_reported_but_not_shown posix_host quiet_config (env_exit 0 "")
           reminder_task (new_world t0)); reflexivity.
Defined.

(** X12. The commands run by an execution that passed the check are those
    of the kind-specific action followed by at most one pop-up, and the
    pop-up is there exactly when [notify_kde] is set and the end is
    announced: a success only if [notify_on_completion] is set, a failure by
    exit status and a timeout always, an exception of the run never. *)
Theorem execution_runs_action_then_notice (host : Host) (cfg : Config)
    (env : ExecEnv) (task : Task) (w : World) :
  enabled task = true ->
  _check_command_security cfg (command task) = Ok true ->
  exists notice,
    child_runs (trace (snd (_execute_task host cfg env task w)))
    = child_runs (trace w) ++ action_runs host cfg task ++ notice
    /\ length notice = if notify_kde cfg && announced env task then 1%nat else 0%nat.
Proof. apply execute_runs. Qed.

Lemma execution_runs_action_then_notice_witness :
  exists notice,
    child_runs (trace (snd (_execute_task posix_host config_default
                              {| proc := Exited 2 "" "no"; elapsed := 1000;
                                 notify_error := None |}
                              wipe_task (new_world t0))))
    = child_runs (trace (new_world t0))
      ++ action_runs posix_host config_default wipe_task ++ notice
    /\ length notice
       = if notify_kde config_default
            && announced {| proc := Exited 2 "" "no"; elapsed := 1000;
                            notify_error := None |} wipe_task
         then 1%nat else 0%nat.
Proof.
  apply (execution_runs_action_then_notice posix_host config_default
           {| proc := Exited 2 "" "no"; elapsed := 1000; notify_error := None |}
           wipe_task (new_world t0)); reflexivity.
Defined.

(** X13. The check reads the command only: a COMMAND task whose command
    passes is run with all its arguments, whatever they hold, a blocked
    text included. *)
Theorem arguments_run_unchecked (host : Host) (cfg : Config) (env : ExecEnv)
    (task : Task) (w : World) :
  enabled task = true ->
  _check_command_security cfg (command task) = Ok true ->
  task_type task = COMMAND ->
  arguments task <> [] ->
  exists notice,
    child_runs (trace (snd (_execute_task host cfg env task w)))
    = child_runs (trace w) ++ [command task :: arguments task] ++ notice.
Proof.
  intros Hen Hsec Hty Hargs.
  destruct (execute_runs host cfg env task w Hen Hsec) as (notice & Hruns & _).
  exists notice. rewrite Hruns. unfold action_runs. rewrite Hty.
  destruct (arguments task); [contradiction|reflexivity].
Qed.

Lemma arguments_run_unchecked_witness :
  exists notice,
    child_runs (trace (snd (_execute_task posix_host config_default (env_exit 0 "")
                              wipe_task (new_world t0))))
    = child_runs (trace (new_world t0))
      ++ [command wipe_task :: arguments wipe_task] ++ notice.
Proof.
  apply (arguments_run_unchecked posix_host config_default (env_exit 0 "")
           wipe_task (new_world t0)); try reflexivity.
  discriminate.
Defined.

(** *** The job registry *)

Lemma insert_job_elem (x y : nat * Job) (l : list (nat * Job)) :
  y ∈ insert_job x l <-> y = x \/ y ∈ l.
Proof.
  induction l as [|z l IH]; cbn.
  - rewrite list_elem_of_singleton, elem_of_nil. tauto.
  - destruct (_ <=? _).
    + rewrite elem_of_cons. tauto.
    + rewrite !elem_of_cons, IH. tauto.
Qed.

Lemma sorted_jobs_elem (y : nat * Job) (l : list (nat * Job)) :
  y ∈ sorted_jobs l <-> y ∈ l.
Proof.
  unfold sorted_jobs. induction l as [|x l IH]; cbn; [tauto|].
  rewrite insert_job_elem, elem_of_cons, IH. tauto.
Qed.

(** [run_pending] considers exactly the jobs that are due. *)
Lemma runnable_spec (k : nat) (j : Job) (w : World) :
  (k, j) ∈ runnable_jobs w <-> jobs w !! k = Some j /\ job_next_run j <= clock w.
Proof.
  unfold runnable_jobs. rewrite sorted_jobs_elem, list_elem_of_filter, elem_of_lookup_imap.
  unfold should_run. cbn [snd]. split.
  - intros [Hdue (i & y & [= -> ->] & Hl)]. split; [exact Hl|].
    apply Is_true_true in Hdue. apply Z.leb_le in Hdue. exact Hdue.
  - intros [Hl Hdue]. split.
    + apply Is_true_true. apply Z.leb_le. exact Hdue.
    + exists k, j. split; [reflexivity|exact Hl].
Qed.

Section Registry.

Variable host : Host.
Variable cfg : Config.

Lemma run_job_static (env : ExecEnv) (k : nat) (w : World) :
  job_static <$> jobs (snd (run_job host cfg env k w)) = job_static <$> jobs w.
Proof.
  unfold run_job. destruct (jobs w !! k) as [j|] eqn:Hj; [|reflexivity].
  destruct (heap w !! job_task j) as [task|]; [|reflexivity].
  pose proof (execute_frame host cfg env task w) as [Hjobs _].
  destruct (_execute_task host cfg env task w) as [[res task'] w1]. cbn [snd] in Hjobs.
  destruct res as [b|e]; cbn [snd jobs set_jobs set_heap]; rewrite Hjobs; [|reflexivity].
  rewrite list_fmap_insert. apply list_insert_id.
  rewrite list_lookup_fmap, Hj. reflexivity.
Qed.

Lemma run_all_static (envs : nat -> ExecEnv) (ks : list (nat * Job)) (n : nat)
    (w : World) :
  job_static <$> jobs (snd (run_all host cfg envs n ks w)) = job_static <$> jobs w.
Proof.
  revert n w. induction ks as [|[k j] ks IH]; intros n w; cbn; [reflexivity|].
  pose proof (run_job_static (envs n) k w) as H.
  destruct (run_job host cfg (envs n) k w) as [[u|e] w1]; cbn [snd] in *; [|exact H].
  rewrite IH. exact H.
Qed.

(** A job that runs keeps its place; one that is not at [k] leaves the job
    at [k] and its object alone. *)
Lemma run_job_other (env : ExecEnv) (k k' : nat) (j : Job) (w : World) :
  sole_job k j w -> k' <> k ->
  let w' := snd (run_job host cfg env k' w) in
  sole_job k j w' /\ heap w' !! job_task j = heap w !! job_task j.
Proof.
  intros [Hk Hsole] Hne. cbv zeta. unfold run_job.
  destruct (jobs w !! k') as [j'|] eqn:Hj'; [|split; [split|]; auto].
  destruct (heap w !! job_task j') as [task|]; [|split; [split|]; auto].
  pose proof (Hsole k' j' Hj' Hne) as Htask.
  pose proof (execute_frame host cfg env task w) as [Hjobs Hheap].
  destruct (_execute_task host cfg env task w) as [[res task'] w1].
  cbn [snd] in Hjobs, Hheap.
  assert (Hlook : <[job_task j' := task']> (heap w1) !! job_task j
                  = heap w !! job_task j).
  { rewrite list_lookup_insert_ne by exact Htask. rewrite Hheap. reflexivity. }
  destruct res as [b|e]; unfold sole_job;
    cbn [snd heap jobs set_heap set_jobs]; rewrite Hjobs.
  - split; [|exact Hlook]. split.
    + rewrite list_lookup_insert_ne by exact Hne. exact Hk.
    + intros k2 j2 H2 Hne2. destruct (decide (k2 = k')) as [->|Hd].
      * rewrite list_lookup_insert_eq in H2
          by (apply lookup_lt_is_Some; eauto).
        injection H2 as <-. exact Htask.
      * rewrite list_lookup_insert_ne in H2 by (intros E; apply Hd; symmetry; exact E).
        apply (Hsole k2 j2 H2 Hne2).
  - split; [|exact Hlook]. split; assumption.
Qed.

Lemma run_all_other (envs : nat -> ExecEnv) (k : nat) (j : Job)
    (ks : list (nat * Job)) (n : nat) (w : World) :
  sole_job k j w ->
  Forall (fun kj => fst kj <> k) ks ->
  let w' := snd (run_all host cfg envs n ks w) in
  sole_job k j w' /\ heap w' !! job_task j = heap w !! job_task j.
Proof.
  revert n w. induction ks as [|[k' j'] ks IH]; intros n w Hs Hks; cbn.
  - split; [exact Hs|reflexivity].
  - inversion Hks as [|? ? Hk' Hks']; subst. cbn in Hk'.
    destruct (run_job_other (envs n) k k' j w Hs Hk') as [Hs1 Hh1].
    destruct (run_job host cfg (envs n) k' w) as [[u|e] w1]; cbn [snd] in *.
    + destruct (IH (S n) w1 Hs1 Hks') as [Hs2 Hh2]. split; [exact Hs2|congruence].
    + split; assumption.
Qed.

End Registry.

(** X14. No tick removes or replaces a job: after any number of ticks the
    registry holds the same jobs in the same order, with their periods,
    task objects and tags; only the instants of their next runs move. *)
Theorem ticks_keep_every_job (host : Host) (cfg : Config)
    (ticks : list (nat -> ExecEnv)) (w : World) :
  job_static <$> jobs (run_ticks host cfg ticks w) = job_static <$> jobs w.
Proof.
  revert w. induction ticks as [|envs ticks IH]; intros w; cbn; [reflexivity|].
  rewrite IH. unfold scheduler_tick, run_pending, sleep. cbn [jobs set_clock].
  apply run_all_static.
Qed.

(** X15. A job that is not yet due is left alone by [run_pending], and so
    is its task object when no other job closes over it. *)
Theorem job_not_run_before_due (host : Host) (cfg : Config)
    (envs : nat -> ExecEnv) (k : nat) (j : Job) (w : World) :
  sole_job k j w ->
  clock w < job_next_run j ->
  let w' := snd (run_pending host cfg envs w) in
  jobs w' !! k = Some j /\ heap w' !! job_task j = heap w !! job_task j.
Proof.
  intros Hs Hlt. cbv zeta. unfold run_pending.
  destruct (run_all_other host cfg envs k j (runnable_jobs w) 0 w Hs) as [[Hk _] Hh].
  - apply Forall_forall. intros [k' j'] Hin Heq. cbn in Heq. subst k'.
    apply runnable_spec in Hin as [Hl Hdue]. destruct Hs as [Hk _].
    rewrite Hk in Hl. injection Hl as <-. lia.
  - split; assumption.
Qed.

Lemma job_not_run_before_due_witness :
  let w := snd (schedule_task posix_host 0 (world_with soon_task)) in
  let j := {| job_period := 10 * seconds; job_next_run := t0 + 10 * seconds;
              job_task := 0; job_tag := "task_1" |} in
  let w' := snd (run_pending posix_host config_default all_ok w) in
  jobs w' !! 0%nat = Some j /\ heap w' !! job_task j = heap w !! job_task j.
Proof.
  apply (job_not_run_before_due posix_host config_default all_ok 0
           {| job_period := 10 * seconds; job_next_run := t0 + 10 * seconds;
              job_task := 0; job_tag := "task_1" |}
           (snd (schedule_task posix_host 0 (world_with soon_task)))).
  - split; [vm_compute; reflexivity|].
    intros [|k'] j' H Hne; [contradiction|]. vm_compute in H. discriminate H.
  - vm_compute. reflexivity.
Defined.

(** *** A job whose check raises *)

Lemma sorted_jobs_head (l : list (nat * Job)) :
  hd_error (sorted_jobs l) = first_due l.
Proof.
  unfold sorted_jobs, first_due. induction l as [|x l IH]; [reflexivity|]. cbn.
  rewrite <- IH. destruct (foldr insert_job [] l) as [|y rest]; [reflexivity|]. cbn.
  destruct (_ <=? _); reflexivity.
Qed.

Lemma first_due_elem (l : list (nat * Job)) (m : nat * Job) :
  first_due l = Some m -> m ∈ l.
Proof.
  unfold first_due. revert m. induction l as [|x l IH]; intros m; cbn; [discriminate|].
  destruct (foldr earlier None l) as [y|]; cbn.
  - destruct (_ <=? _); intros [= <-]; [left|right; apply IH; reflexivity].
  - intros [= <-]. left.
Qed.

Lemma filter_due_cons (c : Z) (x : nat * Job) (l : list (nat * Job)) :
  filter (fun kj => should_run c (snd kj)) (x :: l)
  = if should_run c (snd x)
    then x :: filter (fun kj => should_run c (snd kj)) l
    else filter (fun kj => should_run c (snd kj)) l.
Proof. rewrite filter_cons. destruct (should_run c (snd x)); reflexivity. Qed.

(** The first due job stays first when time passes. *)
Lemma first_due_stable (c c' : Z) (l : list (nat * Job)) :
  c <= c' ->
  match first_due (filter (fun kj => should_run c (snd kj)) l) with
  | Some m => first_due (filter (fun kj => should_run c' (snd kj)) l) = Some m
  | None => forall y, first_due (filter (fun kj => should_run c' (snd kj)) l) = Some y ->
                      c < job_next_run (snd y)
  end.
Proof.
  intros Hle. induction l as [|x l IH]; [cbn; discriminate|].
  rewrite !filter_due_cons.
  assert (Hall : forall m, first_due (filter (fun kj => should_run c (snd kj)) l) = Some m ->
                           job_next_run (snd m) <= c).
  { intros m Hm. apply first_due_elem in Hm. apply list_elem_of_filter in Hm as [Hd _].
    apply Is_true_true in Hd. apply Z.leb_le in Hd. exact Hd. }
  unfold first_due in *.
  destruct (should_run c (snd x)) eqn:Hx; unfold should_run in Hx.
  - apply Z.leb_le in Hx.
    assert (Hx' : should_run c' (snd x) = true) by (apply Z.leb_le; lia).
    rewrite Hx'. cbn [foldr].
    destruct (foldr earlier None (filter (fun kj => should_run c (snd kj)) l)) as [m|];
      destruct (foldr earlier None (filter (fun kj => should_run c' (snd kj)) l)) as [y|];
      cbn in *; try discriminate IH.
    + injection IH as ->. destruct (_ <=? _); reflexivity.
    + specialize (IH y eq_refl).
      destruct (_ <=? _) eqn:E; [reflexivity|]. apply Z.leb_gt in E. lia.
    + reflexivity.
  - apply Z.leb_gt in Hx.
    destruct (should_run c' (snd x)) eqn:Hx'; unfold should_run in Hx'; [|exact IH].
    apply Z.leb_le in Hx'. cbn [foldr].
    destruct (foldr earlier None (filter (fun kj => should_run c (snd kj)) l)) as [m|];
      destruct (foldr earlier None (filter (fun kj => should_run c' (snd kj)) l)) as [y|];
      cbn in *; try discriminate IH.
    + injection IH as ->. specialize (Hall m eq_refl).
      destruct (_ <=? _) eqn:E; [apply Z.leb_le in E; lia|reflexivity].
    + specialize (IH y eq_refl). intros y0.
      destruct (_ <=? _); intros [= <-]; [lia|exact IH].
    + intros y0 [= <-]. lia.
Qed.

Lemma set_heap_same (w : World) : set_heap (heap w) w = w.
Proof. destruct w. reflexivity. Qed.

Section Blocked.

Variable host : Host.
Variable cfg : Config.

(** One [run_pending] whose first job raises: nothing is run. *)
Lemma run_pending_raises (envs : nat -> ExecEnv) (k : nat) (j : Job)
    (rest : list (nat * Job)) (task : Task) (e : Exc) (w : World) :
  runnable_jobs w = (k, j) :: rest ->
  heap w !! job_task j = Some task ->
  enabled task = true ->
  _check_command_security cfg (command task) = Raise e ->
  run_pending host cfg envs w = (Raise e, w).
Proof.
  intros Hrun Hheap Hen Hsec. unfold run_pending. rewrite Hrun. cbn [run_all].
  assert (Hk : jobs w !! k = Some j).
  { apply (runnable_spec k j w). rewrite Hrun. left. }
  unfold run_job. rewrite Hk, Hheap. unfold _execute_task.
  rewrite Hen, Hsec. cbn [negb]. rewrite list_insert_id by exact Hheap.
  rewrite set_heap_same. reflexivity.
Qed.

Lemma runnable_head_stable (k : nat) (j : Job) (rest : list (nat * Job))
    (c' : Z) (w : World) :
  runnable_jobs w = (k, j) :: rest ->
  clock w <= c' ->
  exists rest', runnable_jobs (set_clock c' w) = (k, j) :: rest'.
Proof.
  intros Hrun Hle.
  pose proof (sorted_jobs_head (filter (fun kj => should_run (clock w) (snd kj))
                                  (imap (fun k j => (k, j)) (jobs w)))) as Hh.
  fold (runnable_jobs w) in Hh. rewrite Hrun in Hh. cbn in Hh.
  pose proof (first_due_stable (clock w) c' (imap (fun k j => (k, j)) (jobs w)) Hle) as Hs.
  rewrite <- Hh in Hs.
  rewrite <- sorted_jobs_head in Hs.
  unfold runnable_jobs. cbn [clock jobs set_clock].
  destruct (sorted_jobs _) as [|x rest']; [discriminate|].
  injection Hs as ->. exists rest'. reflexivity.
Qed.

End Blocked.

(** X16. A due job whose task has a command that makes the check raise
    (blanks only) stops the loop for good once it sorts first: at every
    later tick it raises again, it is never re-armed, and no job due after
    it is run; the trace, the registry, the task objects and the store stay
    as they are. *)
Theorem raising_job_blocks_every_tick (host : Host) (cfg : Config)
    (ticks : list (nat -> ExecEnv)) (k : nat) (j : Job)
    (rest : list (nat * Job)) (task : Task) (e : Exc) (w : World) :
  0 <= check_interval_seconds cfg ->
  runnable_jobs w = (k, j) :: rest ->
  heap w !! job_task j = Some task ->
  enabled task = true ->
  _check_command_security cfg (command task) = Raise e ->
  let w' := run_ticks host cfg ticks w in
  trace w' = trace w /\ jobs w' = jobs w /\ heap w' = heap w /\ tasks w' = tasks w.
Proof.
  intros Hc Hrun Hheap Hen Hsec. cbv zeta.
  revert w rest Hrun Hheap. induction ticks as [|envs ticks IH]; intros w rest Hrun Hheap.
  - repeat split.
  - cbn [run_ticks]. unfold scheduler_tick.
    rewrite (run_pending_raises host cfg envs k j rest task e w Hrun Hheap Hen Hsec).
    cbn [snd]. unfold sleep.
    destruct (runnable_head_stable k j rest
                (clock w + check_interval_seconds cfg * seconds) w Hrun)
      as [rest' Hrun']; [unfold seconds; lia|].
    destruct (IH _ rest' Hrun' Hheap) as (H1 & H2 & H3 & H4).
    rewrite H1, H2, H3, H4. repeat split.
Qed.

Lemma raising_job_blocks_every_tick_witness :
  let w := sleep 5 (snd (schedule_task posix_host 1
                           (snd (schedule_task posix_host 0
                                   (world_with_two blank_task
                                      (set_id None (time_task "2024-03-01T08:30:03"))))))) in
  let w' := run_ticks posix_host config_default [all_ok; all_ok; all_ok] w in
  trace w' = trace w /\ jobs w' = jobs w /\ heap w' = heap w /\ tasks w' = tasks w.
Proof.
  apply (raising_job_blocks_every_tick posix_host config_default
           [all_ok; all_ok; all_ok] 0
           {| job_period := 1 * seconds; job_next_run := t0 + 1 * seconds;
              job_task := 0; job_tag := "task_1" |}
           [(1%nat, {| job_period := 3 * seconds; job_next_run := t0 + 3 * seconds;
                       job_task := 1; job_tag := "task_2" |})]
           (set_id (Some 1) blank_task) IndexError).
  - vm_compute. discriminate.
  - vm_compute. reflexivity.
  - vm_compute. reflexivity.
  - reflexivity.
  - vm_compute. reflexivity.
Defined.

(** *** Registration *)

Lemma next_rowid_above (seq : Z) (ids : list Z) : seq < next_rowid seq ids.
Proof.
  unfold next_rowid. induction ids as [|i ids IH]; cbn; lia.
Qed.










(** An interval of zero, and so the boolean [false]: [do] does not return,
    and neither does [schedule_task].  A negative interval, a text and a
    period beyond the range of [timedelta] are refused with an exception
    that is logged: the task is stored, and nothing is registered. *)
Example interval_registrations :
  let with_interval v :=
    world_with {| id := None; name := "pulso"; description := "";
                  task_type := COMMAND; command := "echo"; arguments := ["ok"];
                  working_dir := ""; trigger_type := INTERVAL;
                  trigger_data := {[ "seconds" := v ]}; status := PENDING;
                  created_at := ""; scheduled_for := ""; executed_at := "";
                  result_code := 0; output := ""; enabled := true;
                  notify_on_completion := false; max_retries := 3;
                  retry_count := 0 |} in
  let outcome v :=
    let '(ok, w') := schedule_task posix_host 0 (with_interval v) in
    (ok, length (tasks w'), map job_period (jobs w')) in
  outcome (JInt 0) = (None, 1%nat, [])
  /\ outcome (JBool false) = (None, 1%nat, [])
  /\ outcome (JInt (-5)) = (Some true, 1%nat, [])
  /\ outcome (JStr "5") = (Some true, 1%nat, [])
  /\ outcome (JInt (10 ^ 15)) = (Some true, 1%nat, [])
  /\ outcome (JBool true) = (Some true, 1%nat, [1 * seconds])
  /\ outcome (JInt 5) = (Some true, 1%nat, [5 * seconds]).
Proof. vm_compute. repeat split. Qed.

(** An interval that is a [float]: half a second, a tenth of a second,
    and 1.5 and 2.5 microseconds, which both round to two.  A tenth of a
    microsecond rounds to a period of zero, on which [do] does not return;
    NaN, an infinity, a list and null are refused with an exception that is
    logged.  A count of minutes is rounded after it is turned into
    microseconds. *)
Example float_interval_registrations :
  let with_interval unit v :=
    world_with {| id := None; name := "pulso"; description := "";
                  task_type := COMMAND; command := "echo"; arguments := ["ok"];
                  working_dir := ""; trigger_type := INTERVAL;
                  trigger_data := {[ unit := v ]}; status := PENDING;
                  created_at := ""; scheduled_for := ""; executed_at := "";
                  result_code := 0; output := ""; enabled := true;
                  notify_on_completion := false; max_retries := 3;
                  retry_count := 0 |} in
  let outcome unit v :=
    let '(ok, w') := schedule_task posix_host 0 (with_interval unit v) in
    (ok, map job_period (jobs w')) in
  outcome "seconds" (JFloat false 1 (-1)) = (Some true, [500000])
  /\ outcome "seconds" (JFloat false 3602879701896397 (-55)) = (Some true, [100000])
  /\ outcome "seconds" (JFloat false 1770887431076117 (-70)) = (Some true, [2])
  /\ outcome "seconds" (JFloat false 5902958103587057 (-71)) = (Some true, [2])
  /\ outcome "seconds" (JFloat false 944473296573929 (-73)) = (None, [])
  /\ outcome "minutes" (JFloat false 944473296573929 (-73)) = (Some true, [6])
  /\ outcome "seconds" (JFloat true 1 (-1)) = (Some true, [])
  /\ outcome "seconds" JNaN = (Some true, [])
  /\ outcome "seconds" (JInfinity false) = (Some true, [])
  /\ outcome "seconds" (JList [JInt 5]) = (Some true, [])
  /\ outcome "seconds" JNull = (Some true, []).
Proof. vm_compute. repeat split. Qed.

(** *** The retention sweep, further *)

Lemma keep_keep {A} (old : A -> bool) (rows : list A) :
  keep old (keep old rows) = keep old rows.
Proof.
  apply keep_all. apply Forall_forall. intros row Hin.
  apply keep_spec in Hin as [_ H]. exact H.
Qed.

(** X18. The sweep is idempotent: run again at the same instant, it
    deletes nothing more. *)
Theorem cleanup_idempotent (host : Host) (cfg : Config) (w : World) :
  let w1 := snd (cleanup_old_tasks host cfg w) in
  snd (cleanup_old_tasks host cfg w1) = w1.
Proof.
  cbv zeta.
  assert (Hcut : cleanup_cutoff host cfg (snd (cleanup_old_tasks host cfg w))
                 = cleanup_cutoff host cfg w).
  { unfold cleanup_old_tasks.
    destruct (cleanup_cutoff host cfg w) eqn:E; [|exact E].
    rewrite <- E. reflexivity. }
  set (w1 := snd (cleanup_old_tasks host cfg w)) in *.
  unfold cleanup_old_tasks at 1. rewrite Hcut. subst w1. unfold cleanup_old_tasks.
  destruct (cleanup_cutoff host cfg w) as [cutoff|]; [|reflexivity].
  cbn [snd clock tasks tasks_seq execution_logs logs_seq set_tasks set_execution_logs].
  rewrite !keep_keep. reflexivity.
Qed.



(** *** Saving and loading, further *)






(** *** The interactive front end *)

Section InteractiveFacts.

Variable host : Host.
Variable cfg : Config.
Variable int_of_str : string -> option Z.

(** A task read with an answer to "when" other than 1 and 2 has a TIME
    trigger at the time of reading. *)
Lemma read_task_now (now : Z) (ins : list string) (task : Task) (choice : string) :
  read_task host int_of_str now ins = Some (task, choice) ->
  choice <> "1" -> choice <> "2" ->
  id task = None /\ status task = PENDING /\ trigger_type task = TIME
  /\ trigger_data task !! "datetime" = Some (JStr (isoformat host now)).
Proof.
  unfold read_task. intros H Hc1 Hc2.
  repeat match type of H with
         | match ?x with _ => _ end = Some _ =>
             destruct x as [[? ?]|] eqn:?; [|discriminate H]
         | (let '(_, _) := ?x in _) = Some _ => destruct x eqn:?
         end.
  repeat match goal with
         | p : (_ * _)%type |- _ => destruct p
         end.
  injection H as <- <-.
  match goal with
  | Ht : read_trigger _ _ _ _ _ = Some _ |- _ =>
      unfold read_trigger in Ht;
      apply String.eqb_neq in Hc1; apply String.eqb_neq in Hc2;
      rewrite Hc1, Hc2 in Ht; injection Ht as <- <- <-
  end.
  cbn. repeat split.
Qed.

(** Registering a new TIME task whose instant is not ahead: it is saved,
    the object gets its id, and no job is added. *)
Lemma schedule_task_not_ahead (r : nat) (task : Task) (text : string) (t : Z)
    (w : World) :
  heap w !! r = Some task ->
  id task = None ->
  0 <= tasks_seq w ->
  trigger_type task = TIME ->
  trigger_data task !! "datetime" = Some (JStr text) ->
  fromisoformat host text = Some t ->
  t <= clock w ->
  exists i w1,
    schedule_task host r w = (Some true, w1)
    /\ jobs w1 = jobs w
    /\ heap w1 = <[r := set_id (Some i) task]> (heap w)
    /\ saved_snapshots (trace w1) = saved_snapshots (trace w) ++ [task].
Proof.
  intros Hr Hid Hseq Hty Hd Hp Hle. unfold schedule_task. rewrite Hr.
  unfold _save_task_to_db. rewrite Hid.
  set (i := next_rowid _ _).
  assert (Hi : (i =? -1) = false).
  { apply Z.eqb_neq. pose proof (next_rowid_above (tasks_seq w) (map col_id (tasks w))).
    subst i. cbn [tasks tasks_seq emit]. lia. }
  rewrite Hi. cbn [trigger_type set_id]. rewrite Hty.
  unfold _schedule_time_trigger. cbn [trigger_data set_id]. rewrite Hd, Hp.
  cbn [clock set_heap set_tasks emit].
  destruct (clock w <? t) eqn:E; [apply Z.ltb_lt in E; lia|].
  exists i. eexists. split; [reflexivity|]. cbn. rewrite saved_snapshots_app.
  repeat split.
Qed.

End InteractiveFacts.

(** X22. A task created with an answer to "when" other than 1 and 2 gets
    a TIME trigger at the present instant, which is not ahead: no job is
    registered for it, so no tick will ever execute it.  With the answer 3
    it is executed once on the spot, if it is enabled and its command passes
    the check; with any other answer it is stored and never executed. *)
Theorem created_for_now_is_not_scheduled (host : Host) (cfg : Config)
    (int_of_str : string -> option Z) (env : ExecEnv) (ins : list string)
    (task : Task) (choice : string) (w : World) :
  read_task host int_of_str (clock w) ins = Some (task, choice) ->
  choice <> "1" -> choice <> "2" ->
  0 <= tasks_seq w ->
  fromisoformat host (isoformat host (clock w)) = Some (clock w) ->
  let '(ok, w') := create_task_interactive host cfg int_of_str env ins w in
  jobs w' = jobs w
  /\ (choice <> "3" ->
      ok = Some true
      /\ saved_snapshots (trace w') = saved_snapshots (trace w) ++ [task])
  /\ (choice = "3" -> enabled task = true ->
      _check_command_security cfg (command task) = Ok true ->
      ok = Some true /\ runs_started (trace w') = S (runs_started (trace w))).
Proof.
  intros Hread Hc1 Hc2 Hseq Hiso.
  destruct (read_task_now host int_of_str _ _ _ _ Hread Hc1 Hc2)
    as (Hid & Hst & Hty & Hd).
  unfold create_task_interactive. rewrite Hread. cbv zeta.
  set (r := length (heap w)).
  set (w0 := set_heap (heap w ++ [task]) w).
  assert (Hr : heap w0 !! r = Some task).
  { subst w0 r. cbn. rewrite lookup_app_r by lia. rewrite Nat.sub_diag. reflexivity. }
  destruct (schedule_task_not_ahead host r task _ (clock w) w0 Hr Hid Hseq Hty Hd Hiso)
    as (i & w1 & -> & Hjobs & Hheap & Hsn); [cbn; lia|].
  destruct (String.eqb choice "3") eqn:Hc3.
  - apply String.eqb_eq in Hc3.
    assert (Hr1 : heap w1 !! r = Some (set_id (Some i) task)).
    { rewrite Hheap. apply list_lookup_insert_eq. eapply lookup_lt_Some. exact Hr. }
    rewrite Hr1.
    pose proof (execute_frame host cfg env (set_id (Some i) task) w1) as [Hj2 _].
    pose proof (fun Hen Hsec =>
                  execute_allowed host cfg env (set_id (Some i) task) w1 Hen Hsec) as Hex.
    destruct (_execute_task host cfg env (set_id (Some i) task) w1) as [[res t2] w2].
    cbn [fst snd] in *.
    assert (Hjw : jobs (set_heap (<[r := t2]> (heap w2)) w2) = jobs w)
      by (cbn; rewrite Hj2; exact Hjobs).
    destruct res as [b|e]; (split; [exact Hjw|]); (split; [intros H; contradiction|]).
    + intros _ Hen Hsec. split; [reflexivity|].
      destruct (Hex Hen Hsec) as (i' & res & last & logged & Hact & _ & _ & Hs2 & _).
      apply action_result_status in Hact.
      cbn [trace set_heap]. unfold runs_started. rewrite Hs2, Hsn.
      rewrite !filter_app, !length_app, !filter_cons, !filter_nil.
      cbn [status set_status set_id]. rewrite Hst.
      rewrite (decide_False (P := Is_true (bool_decide (PENDING = RUNNING))))
        by (intros H; apply bool_decide_unpack in H; discriminate).
      rewrite (decide_True (P := Is_true (bool_decide (RUNNING = RUNNING))))
        by (apply bool_decide_pack; reflexivity).
      rewrite decide_False; [cbn; lia|].
      intros H. apply bool_decide_unpack in H. rewrite Hact in H. destruct res; discriminate.
    + intros _ Hen Hsec.
      destruct (Hex Hen Hsec) as (_ & res & _ & _ & _ & Hres & _). discriminate Hres.
  - apply String.eqb_neq in Hc3. split; [exact Hjobs|]. split.
    + intros _. split; [reflexivity|exact Hsn].
    + intros H. contradiction.
Qed.

Lemma created_for_now_is_not_scheduled_witness :
  let ins := ["saludo"; ""; "1"; "echo"; "hola mundo"; ""; "3"; "n"; "s"] in
  let task :=
    {| id := None; name := "saludo"; description := ""; task_type := COMMAND;
       command := "echo"; arguments := ["hola"; "mundo"]; working_dir := "";
       trigger_type := TIME;
       trigger_data := {[ "datetime" := JStr "2024-03-01T08:30:00" ]};
       status := PENDING; created_at := "2024-03-01T08:30:00";
       scheduled_for := "2024-03-01T08:30:00"; executed_at := ""; result_code := 0;
       output := ""; enabled := true; notify_on_completion := false;
       max_retries := 3; retry_count := 0 |} in
  let '(ok, w') :=
    create_task_interactive posix_host config_default int_py (env_exit 0 "hola mundo")
      ins (new_world t0) in
  jobs w' = jobs (new_world t0)
  /\ ("3" <> "3" ->
      ok = Some true
      /\ saved_snapshots (trace w') = saved_snapshots (trace (new_world t0)) ++ [task])
  /\ ("3" = "3" -> enabled task = true ->
      _check_command_security config_default (command task) = Ok true ->
      ok = Some true
      /\ runs_started (trace w') = S (runs_started (trace (new_world t0)))).
Proof.
  cbv zeta.
  apply (created_for_now_is_not_scheduled posix_host config_default int_py
           (env_exit 0 "hola mundo")
           ["saludo"; ""; "1"; "echo"; "hola mundo"; ""; "3"; "n"; "s"]
           _ "3" (new_world t0)).
  - vm_compute. reflexivity.
  - discriminate.
  - discriminate.
  - cbn. lia.
  - vm_compute. reflexivity.
Defined.


(** X23. With fewer than seven lines on the standard input the reading
    ends in an exception: [create_task_interactive] returns [False] and
    nothing is stored, registered or run. *)
Theorem too_few_answers_create_nothing (host : Host) (cfg : Config)
    (int_of_str : string -> option Z) (env : ExecEnv) (ins : list string)
    (w : World) :
  (length ins < 7)%nat ->
  create_task_interactive host cfg int_of_str env ins w = (Some false, w).
Proof.
  intros Hlen. unfold create_task_interactive.
  assert (Hnone : read_task host int_of_str (clock w) ins = None);
    [|rewrite Hnone; reflexivity].
  unfold read_task, read_action, read_trigger, ask.
  do 7 (destruct ins as [|? ins];
        [repeat match goal with
                | |- context [task_type_of_choice ?x] =>
                    destruct (task_type_of_choice x)
                | |- context [String.eqb ?a ?b] => destruct (String.eqb a b)
                | |- context [int_of_str ?a] => destruct (int_of_str a)
                end; reflexivity|]).
  cbn in Hlen. lia.
Qed.

Lemma too_few_answers_create_nothing_witness :
  create_task_interactive posix_host config_default int_py (env_exit 0 "")
    ["saludo"; ""; "4"; "Llamar"; "3"; "s"] (new_world t0)
  = (Some false, new_world t0).
Proof.
  apply (too_few_answers_create_nothing posix_host config_default int_py
           (env_exit 0 "") ["saludo"; ""; "4"; "Llamar"; "3"; "s"] (new_world t0)).
  cbn. lia.
Defined.

(** *** Executing a task as the store holds it *)

Lemma select_by_id_id (i : Z) (rows : list TaskRow) (row : TaskRow) :
  select_by_id i rows = Some row -> col_id row = i.
Proof.
  unfold select_by_id. intros H. apply find_some in H as [_ H].
  apply Z.eqb_eq in H. exact H.
Qed.

Lemma action_result_max_retries (host : Host) (env : ExecEnv) (task : Task) (now : Z)
    (res : bool) (last : Task) (logged : bool) :
  action_result host env task now = (res, last, logged) ->
  max_retries last = max_retries task.
Proof.
  unfold action_result, child_result.
  destruct (task_type task); try destruct (proc env) as [rc ? ?| |?];
    try destruct (rc =? 0); try destruct (_ || _)%bool;
    try destruct (notify_error env);
    intros H; injection H as <- <- <-; reflexivity.
Qed.

(** X24. A task loaded from the store by its id and executed (as
    [_load_task_from_db] returns it, enabled, its command accepted or
    rejected by the check) leaves its row with status completed or failed,
    with the id, [created_at] and result columns it had, and with
    [max_retries] as the load read it, a stored 0 or NULL having become 3. *)
Theorem loaded_task_execution_updates_the_row (host : Host) (cfg : Config)
    (env : ExecEnv) (i : Z) (task : Task) (b : bool) (w : World) :
  _load_task_from_db i w = Some task ->
  enabled task = true ->
  _check_command_security cfg (command task) = Ok b ->
  exists row row',
    select_by_id i (tasks w) = Some row
    /\ select_by_id i (tasks (snd (_execute_task host cfg env task w))) = Some row'
    /\ (col_status row' = "completed" \/ col_status row' = "failed")
    /\ col_max_retries row' = Some (int_or 3 (col_max_retries row))
    /\ fixed_columns row' = fixed_columns row.
Proof.
  unfold _load_task_from_db. intros Hload Hen Hsec.
  destruct (select_by_id i (tasks w)) as [row|] eqn:Hsel; [|discriminate].
  rename Hload into Hrow. exists row.
  assert (Hid : id task = Some i).
  { unfold task_of_row in Hrow.
    destruct (type_of_value (col_task_type row)),
      (trigger_of_value (col_trigger_type row)),
      (status_of_value (col_status row)); try discriminate. injection Hrow as <-. cbn.
    rewrite (select_by_id_id _ _ _ Hsel). reflexivity. }
  assert (Hmax : max_retries task = int_or 3 (col_max_retries row)).
  { unfold task_of_row in Hrow.
    destruct (type_of_value (col_task_type row)),
      (trigger_of_value (col_trigger_type row)),
      (status_of_value (col_status row)); try discriminate. injection Hrow as <-. reflexivity. }
  assert (Hown : own_id (fun o => o = Some i) task).
  { split; [exact Hid|]. intros H. congruence. }
  destruct (touches_replay host i w _
              (execute_touches host cfg _ env task w Hown)) as (saved & Hsaved & Htasks).
  assert (Hout : exists pre last,
             saved = pre ++ [last]
             /\ (status last = COMPLETED \/ status last = FAILED)
             /\ max_retries last = max_retries task).
  { destruct b.
    - destruct (execute_allowed host cfg env task w Hen Hsec)
        as (i' & res & last & logged & Hact & _ & _ & Hsn & _).
      rewrite Hsn in Hsaved. apply app_inv_head in Hsaved.
      pose proof (action_result_max_retries _ _ _ _ _ _ _ Hact) as Hm.
      apply action_result_last in Hact as [Hst _].
      exists [set_status RUNNING task], last. rewrite <- Hsaved. auto.
    - destruct (execute_denied host cfg env task w Hen Hsec) as (_ & _ & Htr & _).
      rewrite Htr, saved_snapshots_app in Hsaved. apply app_inv_head in Hsaved.
      eexists [], _. rewrite <- Hsaved. split; [reflexivity|]. split; [right|]; reflexivity. }
  destruct Hout as (pre & last & -> & Hst & Hm).
  rewrite Htasks. unfold replay_updates. rewrite foldl_app. cbn [foldl].
  rewrite select_update.
  assert (Hpre : exists row1, select_by_id i (foldl (fun rows t => update_where_id i t rows)
                                                (tasks w) pre) = Some row1
                              /\ fixed_columns row1 = fixed_columns row).
  { clear -Hsel. revert row Hsel. generalize (tasks w).
    induction pre as [|t pre IH]; intros rows row Hsel; cbn.
    - exists row. split; [exact Hsel|reflexivity].
    - destruct (IH (update_where_id i t rows) (updated_row t row)) as (row1 & H1 & H2).
      + rewrite select_update, Hsel. reflexivity.
      + exists row1. split; [exact H1|]. rewrite H2. reflexivity. }
  destruct Hpre as (row1 & -> & Hfix). cbn [option_map].
  eexists. split; [reflexivity|]. split; [reflexivity|].
  cbn [updated_row col_status col_max_retries].
  split; [|split].
  - destruct Hst as [-> | ->]; [left|right]; reflexivity.
  - rewrite Hm, Hmax. reflexivity.
  - rewrite <- Hfix. reflexivity.
Qed.

Lemma loaded_task_execution_updates_the_row_witness :
  let w := snd (_save_task_to_db posix_host no_retry_task (new_world t0)) in
  exists task,
    _load_task_from_db 1 w = Some task
    /\ exists row row',
         select_by_id 1 (tasks w) = Some row
         /\ select_by_id 1 (tasks (snd (_execute_task posix_host config_default
                                          (env_exit 0 "ok") task w))) = Some row'
         /\ (col_status row' = "completed" \/ col_status row' = "failed")
         /\ col_max_retries row' = Some (int_or 3 (col_max_retries row))
         /\ fixed_columns row' = fixed_columns row.
Proof.
  cbv zeta. eexists. split; [vm_compute; reflexivity|].
  apply (loaded_task_execution_updates_the_row posix_host config_default
           (env_exit 0 "ok") 1 _ true); reflexivity.
Defined.

(** On that store the column goes from 0 to 3, though nothing asked for a
    change. *)
Example loaded_task_max_retries :
  let w := snd (_save_task_to_db posix_host no_retry_task (new_world t0)) in
  match _load_task_from_db 1 w with
  | Some task =>
      map col_max_retries (tasks w) = [Some 0]
      /\ map col_max_retries
           (tasks (snd (_execute_task posix_host config_default (env_exit 0 "ok")
                          task w))) = [Some 3]
  | None => False
  end.
Proof. vm_compute. split; reflexivity. Qed.

(** *** Registration, further *)



(** The first unit found among seconds, minutes, hours and days decides. *)
Example two_units_one_job :
  jobs (snd (schedule_task posix_host 0 (world_with two_units_task)))
  = [{| job_period := 120 * seconds; job_next_run := t0 + 120 * seconds;
        job_task := 0; job_tag := "task_1" |}].
Proof. vm_compute. reflexivity. Qed.
